(** * The push path of the Mergin Python client

    A shallow embedding of [mergin/client_push.py] (with the constants and
    the exception class of [mergin/common.py]) and the properties of its
    chunk planning, upload tasks, polling, finalisation and cancellation.

    Python objects that the code mutates (the job, the local project, the
    remote service as seen through its request log) live in an explicit
    state that every operation threads; exceptions are a result value. *)

From Stdlib Require Import ZArith Lia DecimalString.
From stdpp Require Import gmap strings list.

Local Open Scope Z_scope.

(** ** [mergin/common.py] *)

Definition CHUNK_SIZE : Z := 100 * 1024 * 1024.

Definition UPLOAD_CHUNK_SIZE : Z := 10 * 1024 * 1024.

(** Exceptions: [ClientError] is the class of [common.py]; every other
    Python exception (KeyError, TypeError, OSError, ...) is [PyError] with
    its class name. *)
Inductive exn : Type :=
| ClientError (msg : string)
| PyError (cls : string) (msg : string).

(** [str(err)] *)
Definition str_exn (e : exn) : string :=
  match e with
  | ClientError msg => msg
  | PyError _ msg => msg
  end.

(** ** Python values *)

(** [str(n)] for an int. *)
Definition str_int (n : Z) : string := NilZero.string_of_int (Z.to_int n).

(** What [json.load] yields (floats are left out). *)
#[warnings="-register-all"]
Inductive json : Type :=
| JNull
| JBool (b : bool)
| JInt (n : Z)
| JStr (s : string)
| JList (l : list json)
| JDict (d : list (string * json)).

Fixpoint assoc (k : string) (d : list (string * json)) : option json :=
  match d with
  | [] => None
  | (k', v) :: r => if String.eqb k k' then Some v else assoc k r
  end.

(** [v == n] for an int [n]: Python compares [True]/[False] as 1/0. *)
Definition eq_int (v : json) (n : Z) : bool :=
  match v with
  | JInt m => m =? n
  | JBool b => (if b then 1 else 0) =? n
  | _ => false
  end.

(** [v == s] for a str [s]. *)
Definition eq_str (v : json) (s : string) : bool :=
  match v with
  | JStr t => String.eqb t s
  | _ => false
  end.

(** Truth value of an object, as [if v] tests it. *)
Definition truthy (v : json) : bool :=
  match v with
  | JNull => false
  | JBool b => b
  | JInt n => negb (n =? 0)
  | JStr s => negb (String.eqb s EmptyString)
  | JList l => negb (bool_decide (l = []))
  | JDict d => negb (bool_decide (d = []))
  end.

(** ** The change set *)

Module Diff.
Record t : Type := mk { path : string; size : Z }.
End Diff.

(** A file entry of the change set: a dict with the keys the push reads.
    The keys [diff], [upload_file] and [origin_checksum] may be absent. *)
Module FileEntry.
Record t : Type := mk {
  path : string;
  size : Z;
  chunks : list string;
  diff : option Diff.t;
  upload_file : option string;
  origin_checksum : option string
}.
End FileEntry.

(** The dictionary of local changes: collection name to file entries. *)
Abbreviation changeset := (gmap string (list FileEntry.t)).

(** ** Upload tasks *)

Module UploadQueueItem.
Record t : Type := mk {
  file_path : string;
  size : Z;
  transaction_id : json;
  chunk_id : string;
  chunk_index : Z
}.
End UploadQueueItem.

(** [concurrent.futures.Future]: the states a future of this module goes
    through (no future is ever cancelled here). *)
Inductive future_state : Type :=
| PENDING
| RUNNING
| FINISHED (exception : option exn).

Module Future.
Record t : Type := mk { item : UploadQueueItem.t; state : future_state }.

Definition done (f : t) : bool :=
  match state f with FINISHED _ => true | _ => false end.

Definition running (f : t) : bool :=
  match state f with RUNNING => true | _ => false end.

Definition exception (f : t) : option exn :=
  match state f with FINISHED e => e | _ => None end.
End Future.

(** [str(v)], as [format] and f-strings render a value; the rendering of
    lists and dicts is left to [repr]. *)
Definition py_str (repr : json -> string) (v : json) : string :=
  match v with
  | JNull => "None"
  | JBool true => "True"
  | JBool false => "False"
  | JInt n => str_int n
  | JStr s => s
  | _ => repr v
  end.

(** [a == b] on loaded values.  A list of items stands for the dict in
    which a key has its first item ([assoc]); two dicts are equal when
    they have the same keys with equal values, in whatever order. *)
Fixpoint py_eq (a b : json) {struct a} : bool :=
  match a, b with
  | JNull, JNull => true
  | JBool x, JBool y => bool_decide (x = y)
  | JBool x, JInt n | JInt n, JBool x => (if x then 1 else 0) =? n
  | JInt n, JInt m => n =? m
  | JStr s, JStr t => String.eqb s t
  | JList l, JList m =>
      (fix all2 (l m : list json) {struct l} : bool :=
         match l, m with
         | [], [] => true
         | x :: l', y :: m' => py_eq x y && all2 l' m'
         | _, _ => false
         end) l m
  | JDict d, JDict e =>
      forallb (fun item => bool_decide (is_Some (assoc item.1 d))) e
      && (fix each (seen : list string) (items : list (string * json))
              {struct items} : bool :=
            match items with
            | [] => true
            | (k, x) :: items' =>
                (if bool_decide (k ∈ seen) then true
                 else match assoc k e with
                      | Some y => py_eq x y
                      | None => false
                      end)
                && each (k :: seen) items'
            end) [] d
  | _, _ => false
  end.

(** [repr(s)] for a str: in single quotes, or in double quotes when [s]
    holds a single quote and no double quote; the quote in use, the
    backslash and the control characters are escaped.  Characters outside
    ASCII are taken to be printable. *)
Definition squote : Ascii.ascii := Ascii.ascii_of_nat 39.

Definition dquote : Ascii.ascii := Ascii.ascii_of_nat 34.

Definition backslash : Ascii.ascii := Ascii.ascii_of_nat 92.

Definition hex_digit (n : nat) : Ascii.ascii :=
  Ascii.ascii_of_nat (if (n <? 10)%nat then 48 + n else 87 + n).

Fixpoint has_char (c : Ascii.ascii) (s : string) : bool :=
  match s with
  | EmptyString => false
  | String c' rest => Ascii.eqb c c' || has_char c rest
  end.

Fixpoint escaped (quote : Ascii.ascii) (s : string) : string :=
  match s with
  | EmptyString => EmptyString
  | String c rest =>
      let n := Ascii.nat_of_ascii c in
      (if Ascii.eqb c quote || Ascii.eqb c backslash
       then String backslash (String c EmptyString)
       else if (n =? 10)%nat then String backslash "n"
       else if (n =? 13)%nat then String backslash "r"
       else if (n =? 9)%nat then String backslash "t"
       else if (n <? 32)%nat || (n =? 127)%nat
       then String backslash
              (String (Ascii.ascii_of_nat 120)
                 (String (hex_digit (n / 16))
                    (String (hex_digit (n mod 16)) EmptyString)))
       else String c EmptyString)
        +:+ escaped quote rest
  end.

Definition py_repr_str (s : string) : string :=
  let quote :=
    if has_char squote s && negb (has_char dquote s) then dquote
    else squote in
  String quote (escaped quote s +:+ String quote EmptyString).

(** [type(v).__name__] *)
Definition type_name (v : json) : string :=
  match v with
  | JNull => "NoneType"
  | JBool _ => "bool"
  | JInt _ => "int"
  | JStr _ => "str"
  | JList _ => "list"
  | JDict _ => "dict"
  end.

(** ** Results, state and exceptions *)

Inductive result (A : Type) : Type :=
| Ok (a : A)
| Raise (e : exn).
Arguments Ok {A} a.
Arguments Raise {A} e.

(** A computation over a state [S] that returns or raises; the state
    survives a raise, as mutations made before a Python exception do. *)
Definition M (S A : Type) : Type := S -> result A * S.

Definition ret {S A} (a : A) : M S A := fun s => (Ok a, s).

Definition raise {S A} (e : exn) : M S A := fun s => (Raise e, s).

Definition bind {S A B} (m : M S A) (k : A -> M S B) : M S B :=
  fun s =>
    match m s with
    | (Ok a, s') => k a s'
    | (Raise e, s') => (Raise e, s')
    end.

Notation "x <- m ;; k" := (bind m (fun x => k))
  (at level 100, m at next level, right associativity).
Notation "m ;; k" := (bind m (fun _ => k))
  (at level 100, right associativity).

(** [try: body except ClientError as err: handler] *)
Definition try_except_ClientError {S A} (body : M S A)
    (handler : string -> M S A) : M S A :=
  fun s =>
    match body s with
    | (Raise (ClientError err), s') => handler err s'
    | other => other
    end.

(** [try: body except Exception as e: handler] *)
Definition try_except_Exception {S A} (body : M S A)
    (handler : exn -> M S A) : M S A :=
  fun s =>
    match body s with
    | (Raise e, s') => handler e s'
    | other => other
    end.

(** [for x in xs: body(x)] when the body mutates the element it visits:
    the list holds the elements as the loop leaves them. *)
Fixpoint for_each_update {S A} (xs : list A) (body : A -> M S A)
    : M S (list A) :=
  match xs with
  | [] => ret []
  | x :: rest =>
      x' <- body x ;;
      rest' <- for_each_update rest body ;;
      ret (x' :: rest')
  end.

(** [d[k]] on a loaded value, for a str [k]; the messages are those of
    CPython 3.11. *)
Definition subscript {S} (v : json) (k : string) : M S json :=
  match v with
  | JDict d =>
      match assoc k d with
      | Some x => ret x
      | None => raise (PyError "KeyError" (py_repr_str k))
      end
  | JList _ =>
      raise (PyError "TypeError"
               "list indices must be integers or slices, not str")
  | JStr _ =>
      raise (PyError "TypeError" "string indices must be integers, not 'str'")
  | _ =>
      raise (PyError "TypeError"
               ("'" +:+ type_name v +:+ "' object is not subscriptable"))
  end.

(** ** The world outside the job *)

Inductive payload : Type :=
| NoData
| Bytes (data : list Byte.byte)
| PushData (version : json) (changes : changeset).

Module Request.
Record t : Type := mk {
  url : string;
  data : payload;
  headers : list (string * string)
}.
End Request.

(** An HTTP response: its reason phrase and what [json.load] makes of its
    body ([None] when the body is not JSON). *)
Module Response.
Record t : Type := mk { msg : string; body : option json }.
End Response.

Inductive reply : Type :=
| Answer (resp : Response.t)
| Failure (detail : string).

Module ServerInfo.
Record t : Type := mk { version : json; writersnames : list string }.
End ServerInfo.

(** What the program does to its surroundings, in order. *)
Inductive event : Type :=
| Log (level : string) (msg : string)
| Post (request : Request.t)
| ProjectInfo (project_path : string)
| StorageCheck (changes : changeset)
| CopyVersioned (path : string) (tmp_dir : string)
| ApplyPushChanges (changes : changeset).

Module Metadata.
Record t : Type := mk { name : string; version : json; files : json }.
End Metadata.

Module World.
Record t : Type := mk {
  trace : list event;
  metadata : Metadata.t;
  tmp_dirs : gset string
}.

Definition emit (e : event) (w : t) : t :=
  mk (trace w ++ [e]) (metadata w) (tmp_dirs w).

Definition set_metadata (md : Metadata.t) (w : t) : t :=
  mk (trace w) md (tmp_dirs w).

Definition set_tmp_dirs (d : gset string) (w : t) : t :=
  mk (trace w) (metadata w) d.
End World.

Module MerginClient.
(** Modelled from the spec: the [MerginClient] of [mergin/client.py],
    which is not among the sources.  A request to the remote service
    either yields a response or fails, and a failure reaches the caller as
    a [ClientError] (the spec's RemoteError, section 6).  The service may
    answer by everything that happened so far. *)
Record t : Type := mk {
  user_agent_info : string;
  username : string;
  project_info : list event -> string -> string + ServerInfo.t;
  enough_storage_available : list event -> changeset -> string + bool * Z;
  post : list event -> Request.t -> reply
}.
End MerginClient.

Module MerginProject.
(** Modelled from the spec: the [MerginProject] of
    [mergin/merginproject.py], which is not among the sources: the local
    project store of section 6 of the spec.  [copy_versioned_file_for_upload]
    gives the file entry as the call leaves it (it records the copy under
    [upload_file]); [apply_push_changes] gives the exception it raises, if
    any. *)
Record t : Type := mk {
  has_unfinished_pull : bool;
  get_push_changes : changeset;
  is_versioned_file : string -> bool;
  copy_versioned_file_for_upload : FileEntry.t -> string -> exn + FileEntry.t;
  apply_push_changes : changeset -> option exn;
  fpath : string -> string;
  fpath_meta : string -> string
}.
End MerginProject.

(** The Python runtime and libraries the module calls: [hashlib.sha1],
    the content of the files [open] finds, the directory name
    [tempfile.TemporaryDirectory] picks for a prefix, [pprint.pformat],
    [repr] of lists and dicts, and the message of the error that
    [json.load] raises on a body that is no JSON document. *)
Module Env.
Record t : Type := mk {
  sha1_hexdigest : list Byte.byte -> string;
  file_content : string -> option (list Byte.byte);
  mkdtemp : string -> gset string -> string;
  pformat : changeset -> string;
  repr : json -> string;
  decode_error : Response.t -> string
}.
End Env.

(** [concurrent.futures.ThreadPoolExecutor] *)
Module ThreadPoolExecutor.
Record t : Type := mk { max_workers : nat; is_shutdown : bool }.
End ThreadPoolExecutor.

(** ** The upload job *)

(** The fields [mp] and [mc] of the Python object are references to the
    project and the client; the operations below take both as arguments. *)
Module UploadJob.
Record t : Type := mk {
  project_path : string;
  changes : changeset;
  transaction_id : json;
  total_size : Z;
  transferred_size : Z;
  upload_queue_items : list UploadQueueItem.t;
  tmp_dir : string;
  is_cancelled : bool;
  executor : option ThreadPoolExecutor.t;
  futures : list Future.t;
  server_resp : json
}.

(** [__init__] *)
Definition init (project_path : string) (changes : changeset)
    (transaction_id : json) (tmp_dir : string) : t :=
  mk project_path changes transaction_id 0 0 [] tmp_dir false None [] JNull.

Definition set_total_size (v : Z) (j : t) : t :=
  mk (project_path j) (changes j) (transaction_id j) v (transferred_size j)
     (upload_queue_items j) (tmp_dir j) (is_cancelled j) (executor j)
     (futures j) (server_resp j).

Definition set_transferred_size (v : Z) (j : t) : t :=
  mk (project_path j) (changes j) (transaction_id j) (total_size j) v
     (upload_queue_items j) (tmp_dir j) (is_cancelled j) (executor j)
     (futures j) (server_resp j).

Definition set_upload_queue_items (v : list UploadQueueItem.t) (j : t) : t :=
  mk (project_path j) (changes j) (transaction_id j) (total_size j)
     (transferred_size j) v (tmp_dir j) (is_cancelled j) (executor j)
     (futures j) (server_resp j).

Definition set_is_cancelled (v : bool) (j : t) : t :=
  mk (project_path j) (changes j) (transaction_id j) (total_size j)
     (transferred_size j) (upload_queue_items j) (tmp_dir j) v (executor j)
     (futures j) (server_resp j).

Definition set_executor (v : option ThreadPoolExecutor.t) (j : t) : t :=
  mk (project_path j) (changes j) (transaction_id j) (total_size j)
     (transferred_size j) (upload_queue_items j) (tmp_dir j)
     (is_cancelled j) v (futures j) (server_resp j).

Definition set_futures (v : list Future.t) (j : t) : t :=
  mk (project_path j) (changes j) (transaction_id j) (total_size j)
     (transferred_size j) (upload_queue_items j) (tmp_dir j)
     (is_cancelled j) (executor j) v (server_resp j).

Definition set_server_resp (v : json) (j : t) : t :=
  mk (project_path j) (changes j) (transaction_id j) (total_size j)
     (transferred_size j) (upload_queue_items j) (tmp_dir j)
     (is_cancelled j) (executor j) (futures j) v.
End UploadJob.

(** A job together with the world it runs in. *)
Module JobState.
Record t : Type := mk { job : UploadJob.t; world : World.t }.
End JobState.

Definition on_world {A} (m : M World.t A) : M JobState.t A :=
  fun s =>
    let '(r, w) := m (JobState.world s) in
    (r, JobState.mk (JobState.job s) w).

Definition get_job : M JobState.t UploadJob.t :=
  fun s => (Ok (JobState.job s), s).

Definition modify_job (f : UploadJob.t -> UploadJob.t) : M JobState.t unit :=
  fun s => (Ok tt, JobState.mk (f (JobState.job s)) (JobState.world s)).

(** ** Effects *)

(** [mp.log.<level>(msg)] *)
Definition log (level msg : string) : M World.t unit :=
  fun w => (Ok tt, World.emit (Log level msg) w).

(** [mc.post(url, data, headers)] *)
Definition post (mc : MerginClient.t) (url : string) (data : payload)
    (headers : list (string * string)) : M World.t Response.t :=
  fun w =>
    let request := Request.mk url data headers in
    let w' := World.emit (Post request) w in
    match MerginClient.post mc (World.trace w) request with
    | Answer resp => (Ok resp, w')
    | Failure detail => (Raise (ClientError detail), w')
    end.

(** [json.load(resp)] *)
Definition json_load {S} (env : Env.t) (resp : Response.t) : M S json :=
  match Response.body resp with
  | Some v => ret v
  | None => raise (PyError "JSONDecodeError" (Env.decode_error env resp))
  end.

(** [file_handle.seek(offset)] then [file_handle.read(n)] on the content
    of a file; lengths are counted in [Z] so that the 10 MiB chunk size can
    be computed with. *)
Fixpoint seek (content : list Byte.byte) (offset : Z) : list Byte.byte :=
  match content with
  | [] => []
  | b :: rest => if offset <=? 0 then content else seek rest (offset - 1)
  end.

Fixpoint read (content : list Byte.byte) (n : Z) : list Byte.byte :=
  match content with
  | [] => []
  | b :: rest => if n <=? 0 then [] else b :: read rest (n - 1)
  end.

(** [len(data)] *)
Definition len {A} (l : list A) : Z := Z.of_nat (length l).

(** [changes[key]] *)
Definition getitem {S} (changes : changeset) (key : string)
    : M S (list FileEntry.t) :=
  match changes !! key with
  | Some files => ret files
  | None => raise (PyError "KeyError" (py_repr_str key))
  end.

(** [sum(len(v) for v in changes.values())] *)
Definition count_changes (changes : changeset) : nat :=
  map_fold (fun _ v n => (length v + n)%nat) 0%nat changes.

(** [s.split("/")[0]] *)
Fixpoint before_slash (s : string) : string :=
  match s with
  | EmptyString => EmptyString
  | String c rest =>
      if Ascii.eqb c (Ascii.ascii_of_nat 47) then EmptyString
      else String c (before_slash rest)
  end.

Definition newline : string := String (Ascii.ascii_of_nat 10) EmptyString.

(** [mc.project_info(project_path)] *)
Definition mc_project_info (mc : MerginClient.t) (project_path : string)
    : M World.t ServerInfo.t :=
  fun w =>
    let w' := World.emit (ProjectInfo project_path) w in
    match MerginClient.project_info mc (World.trace w) project_path with
    | inr info => (Ok info, w')
    | inl detail => (Raise (ClientError detail), w')
    end.

(** [mc.enough_storage_available(changes)] *)
Definition mc_enough_storage_available (mc : MerginClient.t)
    (changes : changeset) : M World.t (bool * Z) :=
  fun w =>
    let w' := World.emit (StorageCheck changes) w in
    match MerginClient.enough_storage_available mc (World.trace w) changes with
    | inr answer => (Ok answer, w')
    | inl detail => (Raise (ClientError detail), w')
    end.

(** [mp.copy_versioned_file_for_upload(f, tmp_dir)]; the result is the
    entry [f] after the call. *)
Definition mp_copy_versioned_file_for_upload (mp : MerginProject.t)
    (f : FileEntry.t) (tmp_dir : string) : M World.t FileEntry.t :=
  fun w =>
    let w' := World.emit (CopyVersioned (FileEntry.path f) tmp_dir) w in
    match MerginProject.copy_versioned_file_for_upload mp f tmp_dir with
    | inr f' => (Ok f', w')
    | inl e => (Raise e, w')
    end.

(** [mp.apply_push_changes(changes)] *)
Definition mp_apply_push_changes (mp : MerginProject.t) (changes : changeset)
    : M World.t unit :=
  fun w =>
    let w' := World.emit (ApplyPushChanges changes) w in
    match MerginProject.apply_push_changes mp changes with
    | None => (Ok tt, w')
    | Some e => (Raise e, w')
    end.

(** [tempfile.TemporaryDirectory(prefix=...)]; the result is its [name].
    The object removes its directory when [cleanup] is called on it and,
    through its finalizer, when the last reference to it goes. *)
Definition TemporaryDirectory (env : Env.t) (prefix : string)
    : M World.t string :=
  fun w =>
    let name := Env.mkdtemp env prefix (World.tmp_dirs w) in
    (Ok name, World.set_tmp_dirs ({[name]} ∪ World.tmp_dirs w) w).

(** The finalizer of the TemporaryDirectory object named [tmp_dir]. *)
Definition finalized (tmp_dir : string) (w : World.t) : World.t :=
  World.set_tmp_dirs (World.tmp_dirs w ∖ {[tmp_dir]}) w.

(** [mp.metadata = ...] *)
Definition set_metadata (metadata : Metadata.t) : M World.t unit :=
  fun w => (Ok tt, World.set_metadata metadata w).

(** [tmp_dir.cleanup()] *)
Definition cleanup (tmp_dir : string) : M World.t unit :=
  fun w => (Ok tt, World.set_tmp_dirs (World.tmp_dirs w ∖ {[tmp_dir]}) w).

(** ** Chunk planning: lines 172-196 of [push_project_async] *)

(** The three branches choosing where a file is read from and how long it
    is. *)
Definition file_source (mp : MerginProject.t) (file : FileEntry.t)
    : string * Z :=
  match FileEntry.diff file with
  | Some d => (MerginProject.fpath_meta mp (Diff.path d), Diff.size d)
  | None =>
      match FileEntry.upload_file file with
      | Some tmp => (tmp, FileEntry.size file)
      | None =>
          (MerginProject.fpath mp (FileEntry.path file), FileEntry.size file)
      end
  end.

Definition file_size (mp : MerginProject.t) (file : FileEntry.t) : Z :=
  (file_source mp file).2.

(** [for chunk_index, chunk_id in enumerate(file["chunks"])], from index
    [chunk_index] on. *)
Fixpoint chunk_items (file_location : string) (file_size : Z)
    (transaction_id : json) (chunk_index : Z) (chunks : list string)
    : list UploadQueueItem.t :=
  match chunks with
  | [] => []
  | chunk_id :: rest =>
      let size :=
        Z.min UPLOAD_CHUNK_SIZE (file_size - chunk_index * UPLOAD_CHUNK_SIZE) in
      UploadQueueItem.mk file_location size transaction_id chunk_id chunk_index
        :: chunk_items file_location file_size transaction_id
             (chunk_index + 1) rest
  end.

Definition file_items (mp : MerginProject.t) (transaction_id : json)
    (file : FileEntry.t) : list UploadQueueItem.t :=
  let '(file_location, file_size) := file_source mp file in
  chunk_items file_location file_size transaction_id 0 (FileEntry.chunks file).

(** The outer loop, with its two accumulators. *)
Fixpoint plan_loop (mp : MerginProject.t) (transaction_id : json)
    (upload_files : list FileEntry.t)
    (upload_queue_items : list UploadQueueItem.t) (total_size : Z)
    : list UploadQueueItem.t * Z :=
  match upload_files with
  | [] => (upload_queue_items, total_size)
  | file :: rest =>
      plan_loop mp transaction_id rest
        (upload_queue_items ++ file_items mp transaction_id file)
        (total_size + file_size mp file)
  end.

Definition plan_upload (mp : MerginProject.t) (transaction_id : json)
    (upload_files : list FileEntry.t) : list UploadQueueItem.t * Z :=
  plan_loop mp transaction_id upload_files [] 0.

(** ** [UploadQueueItem.upload_blocking] *)

Definition chunk_url (env : Env.t) (self : UploadQueueItem.t) : string :=
  "/v1/project/push/chunk/"
    +:+ py_str (Env.repr env) (UploadQueueItem.transaction_id self)
    +:+ "/" +:+ UploadQueueItem.chunk_id self.

Definition cancel_url (env : Env.t) (transaction_id : json) : string :=
  "/v1/project/push/cancel/" +:+ py_str (Env.repr env) transaction_id.

Definition finish_url (env : Env.t) (transaction_id : json) : string :=
  "/v1/project/push/finish/" +:+ py_str (Env.repr env) transaction_id.

Definition mismatch_error (self : UploadQueueItem.t) : exn :=
  ClientError ("Mismatch between uploaded file chunk "
                 +:+ UploadQueueItem.chunk_id self +:+ " and local one").

Definition upload_blocking (env : Env.t) (self : UploadQueueItem.t)
    (mc : MerginClient.t) (mp : MerginProject.t) : M World.t unit :=
  match Env.file_content env (UploadQueueItem.file_path self) with
  | None =>
      raise (PyError "FileNotFoundError"
               ("[Errno 2] No such file or directory: "
                  +:+ py_repr_str (UploadQueueItem.file_path self)))
  | Some content =>
      let offset := UploadQueueItem.chunk_index self * UPLOAD_CHUNK_SIZE in
      if offset <? 0 then raise (PyError "OSError" "[Errno 22] Invalid argument")
      else
        let data := read (seek content offset) UPLOAD_CHUNK_SIZE in
        let checksum := Env.sha1_hexdigest env data in
        log "debug" ("Uploading " +:+ UploadQueueItem.file_path self +:+ " part="
                       +:+ str_int (UploadQueueItem.chunk_index self)) ;;
        let headers := [("Content-Type", "application/octet-stream")] in
        resp <- post mc (chunk_url env self) (Bytes data) headers ;;
        resp_dict <- json_load env resp ;;
        log "debug" ("Upload finished: " +:+ UploadQueueItem.file_path self) ;;
        size <- subscript resp_dict "size" ;;
        matches <- (if eq_int size (len data)
                    then sum <- subscript resp_dict "checksum" ;;
                         ret (eq_str sum checksum)
                    else ret false) ;;
        if matches then ret tt
        else
          try_except_ClientError
            (post mc (cancel_url env (UploadQueueItem.transaction_id self))
               NoData [] ;; ret tt)
            (fun _ => ret tt) ;;
          raise (mismatch_error self)
  end.

(** ** [_do_upload] and the worker pool *)

(** The two statements of [_do_upload] after the cancellation test. *)
Definition upload_and_account (env : Env.t) (mc : MerginClient.t)
    (mp : MerginProject.t) (item : UploadQueueItem.t) : M JobState.t unit :=
  on_world (upload_blocking env item mc mp) ;;
  modify_job (fun job =>
    UploadJob.set_transferred_size
      (UploadJob.transferred_size job + UploadQueueItem.size item) job).


(** How a task ended. *)
Inductive task_outcome : Type :=
| Skipped
| Uploaded
| Failed (e : exn).

Definition set_future_state (i : nat) (st : future_state) (s : JobState.t)
    : JobState.t :=
  JobState.mk
    (UploadJob.set_futures
       (alter (fun f => Future.mk (Future.item f) st) i
          (UploadJob.futures (JobState.job s)))
       (JobState.job s))
    (JobState.world s).

(** A worker takes the pending task [i]: [_do_upload] tests the
    cancellation flag at once, so the task is either over or in flight.
    The pool runs at most [max_workers] tasks at a time; that bound only
    removes schedules and is not enforced here. *)
Definition worker_start (i : nat) (s : JobState.t)
    : option task_outcome * JobState.t :=
  match UploadJob.futures (JobState.job s) !! i with
  | Some f =>
      match Future.state f with
      | PENDING =>
          if UploadJob.is_cancelled (JobState.job s)
          then (Some Skipped, set_future_state i (FINISHED None) s)
          else (None, set_future_state i RUNNING s)
      | _ => (None, s)
      end
  | None => (None, s)
  end.

(** The task [i] in flight runs to its end; the transfer and the update
    of the counter are taken as one step. *)
Definition worker_finish (env : Env.t) (mc : MerginClient.t)
    (mp : MerginProject.t) (i : nat) (s : JobState.t)
    : option task_outcome * JobState.t :=
  match UploadJob.futures (JobState.job s) !! i with
  | Some f =>
      match Future.state f with
      | RUNNING =>
          match upload_and_account env mc mp (Future.item f) s with
          | (Ok _, s') => (Some Uploaded, set_future_state i (FINISHED None) s')
          | (Raise e, s') =>
              (Some (Failed e), set_future_state i (FINISHED (Some e)) s')
          end
      | _ => (None, s)
      end
  | None => (None, s)
  end.

(** What happens to a job while its pool is at work: a worker takes a
    task or ends one, or the controller sets the cancellation flag (the
    assignment [job.is_cancelled = True] of [push_project_cancel]). *)
Inductive pool_action : Type :=
| Start (i : nat)
| Finish (i : nat)
| SetCancelled.

Definition action_index (a : pool_action) : nat :=
  match a with Start i | Finish i => i | SetCancelled => 0%nat end.

Definition pool_step (env : Env.t) (mc : MerginClient.t)
    (mp : MerginProject.t) (a : pool_action) (s : JobState.t)
    : option task_outcome * JobState.t :=
  match a with
  | Start i => worker_start i s
  | Finish i => worker_finish env mc mp i s
  | SetCancelled =>
      (None,
       JobState.mk (UploadJob.set_is_cancelled true (JobState.job s))
         (JobState.world s))
  end.

(** A sequential execution of the pool: the actions of a schedule one
    after the other, with the tasks that ended and how. *)
Fixpoint run_workers (env : Env.t) (mc : MerginClient.t)
    (mp : MerginProject.t) (schedule : list pool_action) (s : JobState.t)
    : list (nat * task_outcome) * JobState.t :=
  match schedule with
  | [] => ([], s)
  | a :: rest =>
      let '(o, s') := pool_step env mc mp a s in
      let '(ended, s'') := run_workers env mc mp rest s' in
      (match o with
       | Some out => (action_index a, out) :: ended
       | None => ended
       end, s'')
  end.

(** Every task that has not ended yet is run to its end, in the order of
    submission. *)
Definition drain_schedule (n : nat) : list pool_action :=
  flat_map (fun i => [Start i; Finish i]) (seq 0 n).

Definition drain (env : Env.t) (mc : MerginClient.t) (mp : MerginProject.t)
    (s : JobState.t) : JobState.t :=
  (run_workers env mc mp
     (drain_schedule (length (UploadJob.futures (JobState.job s)))) s).2.

(** [job.executor.shutdown(wait=True)] *)
Definition executor_shutdown (env : Env.t) (mc : MerginClient.t)
    (mp : MerginProject.t) : M JobState.t unit :=
  job <- get_job ;;
  match UploadJob.executor job with
  | None =>
      raise (PyError "AttributeError"
               "'NoneType' object has no attribute 'shutdown'")
  | Some ex =>
      fun s =>
        let s' := drain env mc mp s in
        let ex' :=
          ThreadPoolExecutor.mk (ThreadPoolExecutor.max_workers ex) true in
        (Ok tt,
         JobState.mk (UploadJob.set_executor (Some ex') (JobState.job s'))
           (JobState.world s'))
  end.

(** ** [push_project_wait] *)

Definition push_project_wait (env : Env.t) (mc : MerginClient.t)
    (mp : MerginProject.t) : M JobState.t unit :=
  fun s => (Ok tt, drain env mc mp s).

(** ** [push_project_is_running] *)

Fixpoint is_running_loop (futures : list Future.t) : M World.t bool :=
  match futures with
  | [] => ret false
  | future :: rest =>
      match Future.done future, Future.exception future with
      | true, Some e =>
          log "error" ("Error while pushing data: " +:+ str_exn e) ;;
          log "info" "--- push aborted" ;;
          raise e
      | _, _ =>
          if Future.running future then ret true
          else is_running_loop rest
      end
  end.

Definition push_project_is_running : M JobState.t bool :=
  job <- get_job ;;
  on_world (is_running_loop (UploadJob.futures job)).

(** ** [push_project_finalize] *)

(** [for future in job.futures: if future.exception() is not None: ...] *)
Fixpoint raise_worker_exception (futures : list Future.t) : M World.t unit :=
  match futures with
  | [] => ret tt
  | future :: rest =>
      match Future.exception future with
      | Some e =>
          log "error" ("Error while pushing data: " +:+ str_exn e) ;;
          log "info" "--- push aborted" ;;
          raise e
      | None => raise_worker_exception rest
      end
  end.

Definition size_error_msg (job : UploadJob.t) : string :=
  "Transferred size (" +:+ str_int (UploadJob.transferred_size job)
    +:+ ") and expected total size (" +:+ str_int (UploadJob.total_size job)
    +:+ ") do not match!".

(** [a + v] for a str [a]; the message is that of CPython 3.7 and
    later. *)
Definition str_add {S} (a : string) (v : json) : M S string :=
  match v with
  | JStr s => ret (a +:+ s)
  | _ =>
      raise (PyError "TypeError"
               ("can only concatenate str (not "
                  +:+ String dquote (type_name v +:+ String dquote EmptyString)
                  +:+ ") to str"))
  end.

(** Lines 245-252: the pool is shut down and the first exception of a
    worker, if any, is raised. *)
Definition await_workers (env : Env.t) (mc : MerginClient.t)
    (mp : MerginProject.t) : M JobState.t unit :=
  executor_shutdown env mc mp ;;
  job <- get_job ;;
  on_world (raise_worker_exception (UploadJob.futures job)).

(** Lines 254-257 *)
Definition check_sizes : M JobState.t unit :=
  job <- get_job ;;
  if negb (UploadJob.transferred_size job =? UploadJob.total_size job) then
    let error_msg := size_error_msg job in
    on_world (log "error" ("--- push finish failed! " +:+ error_msg)) ;;
    raise (ClientError ("Upload error: " +:+ error_msg))
  else ret tt.

(** Lines 260-277 *)
Definition finish_transaction (env : Env.t) (mc : MerginClient.t)
    : M JobState.t unit :=
  job <- get_job ;;
  let transaction_id := UploadJob.transaction_id job in
  try_except_ClientError
    (on_world (log "info" ("Finishing transaction "
                             +:+ py_str (Env.repr env) transaction_id)) ;;
     resp <- on_world (post mc (finish_url env transaction_id) NoData []) ;;
     server_resp <- json_load env resp ;;
     modify_job (UploadJob.set_server_resp server_resp))
    (fun err =>
       on_world (log "error" ("--- push finish failed! " +:+ err)) ;;
       on_world (log "info" "canceling the pending transaction...") ;;
       try_except_ClientError
         (resp_cancel <-
            on_world (post mc (cancel_url env transaction_id) NoData []) ;;
          on_world (log "info" ("cancel response: "
                                  +:+ Response.msg resp_cancel)))
         (fun err2 => on_world (log "info" ("cancel response: " +:+ err2))) ;;
       raise (ClientError err)).

(** Lines 279-293 *)
Definition apply_changes (mp : MerginProject.t) : M JobState.t unit :=
  job <- get_job ;;
  version <- subscript (UploadJob.server_resp job) "version" ;;
  files <- subscript (UploadJob.server_resp job) "files" ;;
  on_world (set_metadata
              (Metadata.mk (UploadJob.project_path job) version files)) ;;
  try_except_Exception
    (on_world (mp_apply_push_changes mp (UploadJob.changes job)))
    (fun e =>
       on_world (log "error" ("Failed to apply push changes: " +:+ str_exn e)) ;;
       on_world (log "info" "--- push aborted") ;;
       raise (ClientError ("Failed to apply push changes: " +:+ str_exn e))) ;;
  on_world (cleanup (UploadJob.tmp_dir job)) ;;
  version <- subscript (UploadJob.server_resp job) "version" ;;
  msg <- str_add "--- push finished - new project version " version ;;
  on_world (log "info" msg).

Definition push_project_finalize (env : Env.t) (mc : MerginClient.t)
    (mp : MerginProject.t) : M JobState.t unit :=
  job <- get_job ;;
  let with_upload_of_files := bool_decide (is_Some (UploadJob.executor job)) in
  (if with_upload_of_files then await_workers env mc mp else ret tt) ;;
  check_sizes ;;
  (if with_upload_of_files then finish_transaction env mc else ret tt) ;;
  apply_changes mp.

(** ** [push_project_cancel] *)

Definition push_project_cancel (env : Env.t) (mc : MerginClient.t)
    (mp : MerginProject.t) : M JobState.t unit :=
  on_world (log "info" "user cancelled the push...") ;;
  modify_job (UploadJob.set_is_cancelled true) ;;
  executor_shutdown env mc mp ;;
  job <- get_job ;;
  try_except_ClientError
    (resp_cancel <-
       on_world (post mc (cancel_url env (UploadJob.transaction_id job))
                   NoData []) ;;
     modify_job (UploadJob.set_server_resp (JStr (Response.msg resp_cancel))))
    (fun err =>
       on_world (log "error" ("--- push cancelling failed! " +:+ err)) ;;
       raise (ClientError err)) ;;
  job <- get_job ;;
  on_world (log "info" ("--- push cancel response: "
                          +:+ py_str (Env.repr env) (UploadJob.server_resp job))).

(** ** [push_project_async] *)

(** [item.pop('origin_checksum', None)] *)
Definition pop_origin_checksum (item : FileEntry.t) : FileEntry.t :=
  FileEntry.mk (FileEntry.path item) (FileEntry.size item)
    (FileEntry.chunks item) (FileEntry.diff item) (FileEntry.upload_file item)
    None.

(** Runs an operation on a job that the caller holds, and lets the job go. *)
Definition with_job {A} (job : UploadJob.t) (m : M JobState.t A) : M World.t A :=
  fun w =>
    let '(r, s) := m (JobState.mk job w) in
    (r, JobState.world s).

(** [mp.metadata] *)
Definition get_metadata : M World.t Metadata.t :=
  fun w => (Ok (World.metadata w), w).

(** The local [tmp_dir] of [push_project_async] is the only reference to
    the TemporaryDirectory object until a job holds it.  When the function
    returns no job the object goes with the frame, and when it raises,
    with the traceback once the caller has dealt with the exception: the
    finalizer then removes the directory.  A job that is returned keeps
    the object. *)
Definition holding_tmp_dir (tmp_dir : string)
    (body : M World.t (option UploadJob.t)) : M World.t (option UploadJob.t) :=
  fun w =>
    let '(r, w') := body w in
    match r with
    | Ok (Some job) => (r, w')
    | _ => (r, finalized tmp_dir w')
    end.


(** What a double holds of an int: the int rounded to 53 significant
    bits, ties to even. *)
Definition round_to_double (n : Z) : Z :=
  let a := Z.abs n in
  let excess := Z.log2 a + 1 - 53 in
  if excess <=? 0 then n
  else
    let q := Z.shiftr a excess in
    let r := a - Z.shiftl q excess in
    let half := Z.shiftl 1 (excess - 1) in
    let q' := if (half <? r) || ((r =? half) && Z.odd q) then q + 1 else q in
    Z.sgn n * Z.shiftl q' excess.

(** The least magnitude of a dividend whose quotient by 2^20 does not fit
    a double. *)
Definition float_limit : Z := 2 ^ 1044.

(** [int(freespace/(1024*1024))]: the quotient of two ints is the double
    nearest to it, which for the divisor 2^20 is the dividend as a double
    holds it, scaled; [int] truncates towards zero.  The division raises
    when the quotient does not fit a double. *)
Definition megabytes {S} (freespace : Z) : M S Z :=
  let held := round_to_double freespace in
  if float_limit <=? Z.abs held then
    raise (PyError "OverflowError"
             "integer division result too large for a float")
  else ret (Z.quot held (1024 * 1024)).

Definition push_project_async (env : Env.t) (mc : MerginClient.t)
    (mp : MerginProject.t) : M World.t (option UploadJob.t) :=
  (if MerginProject.has_unfinished_pull mp then
     raise (ClientError
       "Project is in unfinished pull state. Please resolve unfinished pull and try again.")
   else ret tt) ;;
  metadata <- get_metadata ;;
  let project_path := Metadata.name metadata in
  let local_version := Metadata.version metadata in
  let str := py_str (Env.repr env) in
  log "info" ("--- version: " +:+ MerginClient.user_agent_info mc) ;;
  log "info" ("--- start push " +:+ project_path) ;;
  server_info <-
    try_except_ClientError (mc_project_info mc project_path)
      (fun err =>
         log "error" ("Error getting project info: " +:+ err) ;;
         log "info" "--- push aborted" ;;
         raise (ClientError err)) ;;
  let server_version :=
    if truthy (ServerInfo.version server_info)
    then ServerInfo.version server_info else JStr "v0" in
  log "info" ("got project info: local version " +:+ str local_version
                +:+ " / server version " +:+ str server_version) ;;
  let username := MerginClient.username mc in
  (if negb (bool_decide (username ∈ ServerInfo.writersnames server_info)) then
     log "error" ("--- push " +:+ project_path +:+ " - username " +:+ username
                    +:+ " does not have write access") ;;
     raise (ClientError
       ("You do not seem to have write access to the project (username '"
          +:+ username +:+ "')"))
   else ret tt) ;;
  (if negb (py_eq local_version server_version) then
     log "error" ("--- push " +:+ project_path +:+ " - not up to date (local "
                    +:+ str local_version +:+ " vs server "
                    +:+ str server_version +:+ ")") ;;
     raise (ClientError
       ("There is a new version of the project on the server. Please update your local copy."
          +:+ newline +:+ newline +:+ "Local version: " +:+ str local_version
          +:+ newline +:+ "Server version: " +:+ str server_version))
   else ret tt) ;;
  let changes := MerginProject.get_push_changes mp in
  log "debug" ("push changes:" +:+ newline +:+ Env.pformat env changes) ;;
  tmp_dir <- TemporaryDirectory env "mergin-py-client-" ;;
  holding_tmp_dir tmp_dir (
  updated <- getitem changes "updated" ;;
  updated <-
    for_each_update updated (fun f =>
      if MerginProject.is_versioned_file mp (FileEntry.path f)
         && negb (bool_decide (is_Some (FileEntry.diff f)))
      then mp_copy_versioned_file_for_upload mp f tmp_dir
      else ret f) ;;
  let changes := <["updated" := updated]> changes in
  added <- getitem changes "added" ;;
  added <-
    for_each_update added (fun f =>
      if MerginProject.is_versioned_file mp (FileEntry.path f)
      then mp_copy_versioned_file_for_upload mp f tmp_dir
      else ret f) ;;
  let changes := <["added" := added]> changes in
  (if String.eqb username (before_slash project_path) then
     answer <- mc_enough_storage_available mc changes ;;
     let '(enough_free_space, freespace) := answer in
     if negb enough_free_space then
       freespace <- megabytes freespace ;;
       log "error" ("--- push " +:+ project_path +:+ " - not enough space") ;;
       raise (ClientError ("Storage limit has been reached. Only "
                             +:+ str_int freespace +:+ "MB left"))
     else ret tt
   else ret tt) ;;
  if bool_decide (count_changes changes = 0%nat) then
    log "info" ("--- push " +:+ project_path +:+ " - nothing to do") ;;
    ret None
  else
    updated <- getitem changes "updated" ;;
    let changes := <["updated" := pop_origin_checksum <$> updated]> changes in
    resp <-
      try_except_ClientError
        (post mc ("/v1/project/push/" +:+ project_path)
           (PushData local_version changes)
           [("Content-Type", "application/json")])
        (fun err =>
           log "error" ("Error starting transaction: " +:+ err) ;;
           log "info" "--- push aborted" ;;
           raise (ClientError err)) ;;
    server_resp <- json_load env resp ;;
    added <- getitem changes "added" ;;
    updated <- getitem changes "updated" ;;
    let upload_files := added ++ updated in
    transaction_id <-
      (if bool_decide (upload_files = []) then ret JNull
       else subscript server_resp "transaction") ;;
    let job := UploadJob.init project_path changes transaction_id tmp_dir in
    if bool_decide (upload_files = []) then
      log "info" "not uploading any files" ;;
      with_job (UploadJob.set_server_resp server_resp job)
        (push_project_finalize env mc mp) ;;
      ret None
    else
      log "info" ("got transaction ID " +:+ str transaction_id) ;;
      let '(upload_queue_items, total_size) :=
        plan_upload mp transaction_id upload_files in
      let job :=
        UploadJob.set_upload_queue_items upload_queue_items
          (UploadJob.set_total_size total_size job) in
      log "info" ("will upload " +:+ str_int (len upload_queue_items)
                    +:+ " items with total size " +:+ str_int total_size) ;;
      let job :=
        UploadJob.set_executor (Some (ThreadPoolExecutor.mk 4 false)) job in
      let job :=
        UploadJob.set_futures
          ((fun item => Future.mk item PENDING) <$> upload_queue_items) job in
      ret (Some job)).

(** * Notions used to state the properties *)

(** [math.ceil(a / b)] for a positive [b]. *)
Definition ceil_div (a b : Z) : Z := - ((- a) / b).

(** The change-set invariant: a file to upload has a size that is not
    negative and carries exactly [ceil(file_size / UPLOAD_CHUNK_SIZE)]
    chunk identifiers, the identifier of chunk [i] at position [i]. *)
Definition well_chunked (mp : MerginProject.t) (file : FileEntry.t) : Prop :=
  0 <= file_size mp file /\
  Z.of_nat (length (FileEntry.chunks file))
    = ceil_div (file_size mp file) UPLOAD_CHUNK_SIZE.

Definition sizes (items : list UploadQueueItem.t) : list Z :=
  UploadQueueItem.size <$> items.

Definition sum_list_Z (l : list Z) : Z := foldr Z.add 0 l.

Definition sum_sizes (items : list UploadQueueItem.t) : Z :=
  sum_list_Z (sizes items).

(** Size of a file's last chunk. *)
Definition last_chunk_size (file_size : Z) : Z :=
  if file_size mod UPLOAD_CHUNK_SIZE =? 0 then UPLOAD_CHUNK_SIZE
  else file_size mod UPLOAD_CHUNK_SIZE.

(** The files of a change set that are uploaded. *)
Definition upload_files_of (changes : changeset) : list FileEntry.t :=
  default [] (changes !! "added") ++ default [] (changes !! "updated").

(** Requests by kind, told by their address. *)
Definition is_post (e : event) : bool :=
  match e with Post _ => true | _ => false end.

Definition posts_to (prefix : string) (e : event) : bool :=
  match e with
  | Post request => String.prefix prefix (Request.url request)
  | _ => false
  end.

(** Addresses of the requests of a trace, in order. *)
Definition posted_urls (trace : list event) : list string :=
  omap (fun e => match e with
                 | Post request => Some (Request.url request)
                 | _ => None
                 end) trace.

(** Events that reach the service or change the local project. *)
Definition outward (e : event) : bool :=
  match e with
  | Post _ | ApplyPushChanges _ => true
  | _ => false
  end.

Definition is_finish_request : event -> bool :=
  posts_to "/v1/project/push/finish/".

Definition is_cancel_request : event -> bool :=
  posts_to "/v1/project/push/cancel/".

Definition is_chunk_request : event -> bool :=
  posts_to "/v1/project/push/chunk/".

(** The state in which [push_project_finalize] compares the sizes: the
    pool, if there is one, has been shut down. *)
Definition after_shutdown (env : Env.t) (mc : MerginClient.t)
    (mp : MerginProject.t) (s : JobState.t) : JobState.t :=
  match UploadJob.executor (JobState.job s) with
  | Some _ => (executor_shutdown env mc mp s).2
  | None => s
  end.

Definition no_worker_exception (job : UploadJob.t) : Prop :=
  Forall (fun f => Future.exception f = None) (UploadJob.futures job).

(** The tasks of an execution that transferred their chunk. *)
Definition uploaded (ended : list (nat * task_outcome)) : list nat :=
  omap (fun '(i, o) => match o with Uploaded => Some i | _ => None end) ended.

(** Size of the item of task [i]. *)
Definition size_of (items : list UploadQueueItem.t) (i : nat) : Z :=
  from_option UploadQueueItem.size 0 (items !! i).

(** ** Notions used in the proofs *)

(** [w'] is [w] with more events, all of them in [P]; the project
    metadata and the temporary directories are the same. *)
Definition grows (P : event -> Prop) (w w' : World.t) : Prop :=
  exists evs,
    w' = World.mk (World.trace w ++ evs) (World.metadata w) (World.tmp_dirs w)
    /\ Forall P evs.

Definition quiet {A} (P : event -> Prop) (m : M World.t A) : Prop :=
  forall w, grows P w (m w).2.

(** What a worker may do: write to the log, send a chunk, ask to cancel. *)
Definition worker_event (e : event) : Prop :=
  match e with
  | Log _ _ => True
  | Post request => is_chunk_request e = true \/ is_cancel_request e = true
  | _ => False
  end.

(** Fields of the job that no worker touches. *)
Definition same_frame (j j' : UploadJob.t) : Prop :=
  UploadJob.project_path j' = UploadJob.project_path j
  /\ UploadJob.changes j' = UploadJob.changes j
  /\ UploadJob.transaction_id j' = UploadJob.transaction_id j
  /\ UploadJob.total_size j' = UploadJob.total_size j
  /\ UploadJob.upload_queue_items j' = UploadJob.upload_queue_items j
  /\ UploadJob.tmp_dir j' = UploadJob.tmp_dir j
  /\ UploadJob.executor j' = UploadJob.executor j
  /\ UploadJob.server_resp j' = UploadJob.server_resp j
  /\ Future.item <$> UploadJob.futures j' = Future.item <$> UploadJob.futures j.

Definition items_of (s : JobState.t) : list UploadQueueItem.t :=
  Future.item <$> UploadJob.futures (JobState.job s).

Definition is_done (s : JobState.t) (i : nat) : Prop :=
  exists f, UploadJob.futures (JobState.job s) !! i = Some f
            /\ Future.done f = true.

Definition not_done (s : JobState.t) (i : nat) : Prop :=
  exists f, UploadJob.futures (JobState.job s) !! i = Some f
            /\ Future.done f = false.

(** What one worker action does: [o] is how task [i] ended, if it did. *)
Record step_ok (i : nat) (o : option task_outcome) (s s' : JobState.t)
    : Prop := {
  so_world : grows worker_event (JobState.world s) (JobState.world s');
  so_frame : same_frame (JobState.job s) (JobState.job s');
  so_transferred :
    UploadJob.transferred_size (JobState.job s')
    = UploadJob.transferred_size (JobState.job s)
      + match o with Some Uploaded => size_of (items_of s) i | _ => 0 end;
  so_ended : o <> None -> not_done s i /\ is_done s' i;
  so_mono : forall j f,
    UploadJob.futures (JobState.job s) !! j = Some f ->
    Future.done f = true ->
    UploadJob.futures (JobState.job s') !! j = Some f
}.

(** What an execution of the pool does. *)
Record run_ok (ended : list (nat * task_outcome)) (s s' : JobState.t)
    : Prop := {
  ro_world : grows worker_event (JobState.world s) (JobState.world s');
  ro_frame : same_frame (JobState.job s) (JobState.job s');
  ro_transferred :
    UploadJob.transferred_size (JobState.job s')
    = UploadJob.transferred_size (JobState.job s)
      + sum_list_Z (size_of (items_of s) <$> uploaded ended);
  ro_nodup : NoDup ended.*1;
  ro_ended : forall i, i ∈ ended.*1 -> not_done s i /\ is_done s' i;
  ro_mono : forall j f,
    UploadJob.futures (JobState.job s) !! j = Some f ->
    Future.done f = true ->
    UploadJob.futures (JobState.job s') !! j = Some f
}.

(** [w'] has the requests, the applied changes and the project metadata
    of [w]. *)
Definition unposted (w w' : World.t) : Prop :=
  filter (fun e => outward e = true) (World.trace w')
  = filter (fun e => outward e = true) (World.trace w)
  /\ World.metadata w' = World.metadata w.

(** [m] sends nothing and leaves the metadata; what it returns is in [Q]. *)
Definition post_free {A} (m : M World.t A) (Q : A -> Prop) : Prop :=
  forall w,
    unposted w (m w).2
    /\ match (m w).1 with Ok a => Q a | Raise _ => True end.

(** [m] removes no temporary directory and keeps the one of the job. *)
Definition keeps_tmp {A} (m : M JobState.t A) : Prop :=
  forall s,
    World.tmp_dirs (JobState.world (m s).2) = World.tmp_dirs (JobState.world s)
    /\ UploadJob.tmp_dir (JobState.job (m s).2)
       = UploadJob.tmp_dir (JobState.job s).

Definition returns {A} (m : M World.t A) (Q : A -> Prop) : Prop :=
  forall w, match (m w).1 with Ok a => Q a | Raise _ => True end.

(** The job as the planning loop and the submission of the tasks leave
    it. *)
Definition planned (mp : MerginProject.t) (job : UploadJob.t) : Prop :=
  let plan :=
    plan_upload mp (UploadJob.transaction_id job)
      (upload_files_of (UploadJob.changes job)) in
  UploadJob.transferred_size job = 0
  /\ UploadJob.is_cancelled job = false
  /\ UploadJob.upload_queue_items job = plan.1
  /\ UploadJob.total_size job = plan.2
  /\ UploadJob.futures job
     = (fun item => Future.mk item PENDING) <$> UploadJob.upload_queue_items job.

(** * A small project to run the operations on *)

Module Demo.
Definition env : Env.t :=
  Env.mk (fun data => "sha1-" +:+ str_int (len data))
    (fun path => if String.eqb path "/p/notes.txt"
                 then Some [Byte.x68; Byte.x69; Byte.x0a] else None)
    (fun prefix _ => "/tmp/" +:+ prefix +:+ "0001")
    (fun _ => "{...}")
    (fun _ => "[...]")
    (fun _ => "Expecting value: line 1 column 1 (char 0)").

Definition notes : FileEntry.t :=
  FileEntry.mk "notes.txt" 3 ["chunk-a"] None None None.

Definition survey : FileEntry.t :=
  FileEntry.mk "survey.gpkg" 98304 ["chunk-b"; "chunk-c"; "chunk-d"]
    (Some (Diff.mk "survey.gpkg-diff-1" (2 * UPLOAD_CHUNK_SIZE + 5)))
    None (Some "0a1b").

Definition mp (changes : changeset) : MerginProject.t :=
  MerginProject.mk false changes
    (fun path => String.eqb path "survey.gpkg")
    (fun f dir => inr f) (fun _ => None)
    (fun path => "/p/" +:+ path) (fun path => "/p/.mergin/" +:+ path).

Definition changes_of (added updated removed renamed : list FileEntry.t)
    : changeset :=
  <["added" := added]> (<["updated" := updated]>
    (<["removed" := removed]> (<["renamed" := renamed]> ∅))).

Definition info : ServerInfo.t := ServerInfo.mk (JStr "v3") ["alice"].

Definition mc (storage : string + bool * Z)
    (post : list event -> Request.t -> reply) : MerginClient.t :=
  MerginClient.mk "py-client/0.7" "alice" (fun _ _ => inr info)
    (fun _ _ => storage) post.

Definition ok (body : json) : reply := Answer (Response.mk "OK" (Some body)).

Definition project_state : json :=
  JDict [("version", JStr "v4"); ("files", JList [])].

(** A service that acknowledges every chunk as sent, opens and finishes
    transactions. *)
Definition good_service (trace : list event) (request : Request.t) : reply :=
  let url := Request.url request in
  if String.prefix "/v1/project/push/chunk/" url then
    match Request.data request with
    | Bytes data =>
        ok (JDict [("size", JInt (len data));
                   ("checksum", JStr (Env.sha1_hexdigest env data))])
    | _ => Failure "no data"
    end
  else if String.prefix "/v1/project/push/finish/" url then ok project_state
  else if String.prefix "/v1/project/push/cancel/" url then ok JNull
  else ok (JDict [("transaction", JStr "t-1"); ("version", JStr "v4");
                  ("files", JList [])]).

(** A service that reports one byte less than it was sent, and fails
    every other request. *)
Definition short_service (trace : list event) (request : Request.t) : reply :=
  if String.prefix "/v1/project/push/chunk/" (Request.url request) then
    match Request.data request with
    | Bytes data =>
        ok (JDict [("size", JInt (len data - 1));
                   ("checksum", JStr (Env.sha1_hexdigest env data))])
    | _ => Failure "no data"
    end
  else Failure "503 Service Unavailable".

(** A service on which nothing succeeds. *)
Definition down_service (trace : list event) (request : Request.t) : reply :=
  Failure "503 Service Unavailable".

Definition world : World.t :=
  World.mk [] (Metadata.mk "alice/field" (JStr "v3") (JList [])) ∅.

Definition item : UploadQueueItem.t :=
  UploadQueueItem.mk "/p/notes.txt" 3 (JStr "t-1") "chunk-a" 0.

Definition job (transferred_size : Z) (futures : list Future.t)
    : UploadJob.t :=
  UploadJob.mk "alice/field" (changes_of [notes] [] [] []) (JStr "t-1") 3
    transferred_size [item] "/tmp/mergin-py-client-0001" false
    (Some (ThreadPoolExecutor.mk 4 false)) futures JNull.

Definition state (transferred_size : Z) (futures : list Future.t)
    : JobState.t :=
  JobState.mk (job transferred_size futures)
    (World.set_tmp_dirs {["/tmp/mergin-py-client-0001"]} world).
End Demo.

(** * Further notions *)

(** The bytes [upload_blocking] reads for the chunk of index [i]: the
    [seek] and the [read] of lines 60-61. *)
Definition chunk_data (content : list Byte.byte) (i : Z) : list Byte.byte :=
  read (seek content (i * UPLOAD_CHUNK_SIZE)) UPLOAD_CHUNK_SIZE.


(** Task [i] is in flight. *)
Definition in_flight (s : JobState.t) (i : nat) : Prop :=
  exists f, UploadJob.futures (JobState.job s) !! i = Some f
            /\ Future.running f = true.

(** The project of [Demo] with one added file, and a service that
    answers. *)
Definition demo_client : MerginClient.t :=
  Demo.mc (inr (true, 0)) Demo.good_service.

Definition demo_project : MerginProject.t :=
  Demo.mp (Demo.changes_of [Demo.notes] [] [] []).

(** States in which a world can be seen: the world itself, and a job
    with its world. *)
Class HasWorld (S : Type) := world_of : S -> World.t.

#[global] Instance world_has_world : HasWorld World.t := fun w => w.

#[global] Instance job_state_has_world : HasWorld JobState.t := JobState.world.

(** [m] calls [mc.post] not once. *)
Definition silent {S} `{HasWorld S} {A} (m : M S A) : Prop :=
  forall s, exists evs,
    World.trace (world_of (m s).2) = World.trace (world_of s) ++ evs
    /\ posted_urls evs = [].

(** [m] calls [mc.post] once, on [url]. *)
Definition sends {A} (m : M World.t A) (url : string) : Prop :=
  forall w, exists evs,
    World.trace (m w).2 = World.trace w ++ evs /\ posted_urls evs = [url].

(** [m] calls [mc.post] once, on [url], or not at all, and then it
    returns no job. *)
Definition opens (m : M World.t (option UploadJob.t)) (url : string) : Prop :=
  forall w, exists evs,
    World.trace (m w).2 = World.trace w ++ evs
    /\ ((posted_urls evs = [] /\ forall job, (m w).1 <> Ok (Some job))
        \/ posted_urls evs = [url]).



(** ** The workers, statement by statement *)

(** Where a worker stands in [_do_upload] once it has taken a task and
    found the job not cancelled: before the upload of line 321, before
    the read of [job.transferred_size] in line 322, or between that read
    and the write of the sum, holding the value it read. *)
Inductive worker_pc : Type :=
| AtUpload
| AtLoad
| AtStore (loaded : Z).

Module Threads.
Record t : Type := mk { state : JobState.t; pcs : gmap nat worker_pc }.
End Threads.


(** What a thread does in one go: a worker takes a task and tests the
    cancellation flag (line 318), uploads the chunk (line 321), reads the
    counter or writes the sum back (the two halves of the [+=] of line
    322), or the controller sets the flag. *)
Inductive thread_action : Type :=
| Take (i : nat)
| Upload (i : nat)
| Load (i : nat)
| Store (i : nat)
| Cancel.




(** The statements of the workers behind the two steps of the pool. *)
Definition statements (a : pool_action) : list thread_action :=
  match a with
  | Start i => [Take i]
  | Finish i => [Upload i; Load i; Store i]
  | SetCancelled => [Cancel]
  end.









(** * Properties *)

(** ** The plan *)

Lemma sum_list_Z_app a b : sum_list_Z (a ++ b) = sum_list_Z a + sum_list_Z b.
Proof.
  unfold sum_list_Z. induction a as [|x a IH]; simpl; [lia|].
  rewrite IH. lia.
Qed.

Lemma sum_sizes_app a b : sum_sizes (a ++ b) = sum_sizes a + sum_sizes b.
Proof. unfold sum_sizes, sizes. rewrite fmap_app. apply sum_list_Z_app. Qed.

Lemma sum_sizes_cons x l :
  sum_sizes (x :: l) = UploadQueueItem.size x + sum_sizes l.
Proof. reflexivity. Qed.

Lemma plan_loop_spec mp tid files acc tot :
  plan_loop mp tid files acc tot
  = (acc ++ concat (file_items mp tid <$> files),
     tot + sum_list_Z (file_size mp <$> files)).
Proof.
  revert acc tot. induction files as [|f files IH]; intros acc tot.
  - simpl. rewrite app_nil_r. f_equal. unfold sum_list_Z. simpl. lia.
  - simpl plan_loop. rewrite IH, !fmap_cons. simpl concat.
    rewrite <- app_assoc. f_equal.
    change (sum_list_Z (?x :: ?l)) with (x + sum_list_Z l). lia.
Qed.

Lemma plan_upload_spec mp tid files :
  plan_upload mp tid files
  = (concat (file_items mp tid <$> files), sum_list_Z (file_size mp <$> files)).
Proof. unfold plan_upload. rewrite plan_loop_spec. reflexivity. Qed.

Lemma UPLOAD_CHUNK_SIZE_pos : 0 < UPLOAD_CHUNK_SIZE.
Proof. reflexivity. Qed.

(** With [n] chunk identifiers left from index [i], and the file ending
    inside the last of them. *)
Lemma chunk_items_exact loc fsz tid chunks : forall i,
  0 <= i ->
  (chunks = [] -> fsz = i * UPLOAD_CHUNK_SIZE) ->
  (chunks <> [] ->
     (i + Z.of_nat (length chunks) - 1) * UPLOAD_CHUNK_SIZE < fsz
     /\ fsz <= (i + Z.of_nat (length chunks)) * UPLOAD_CHUNK_SIZE) ->
  sum_sizes (chunk_items loc fsz tid i chunks) = fsz - i * UPLOAD_CHUNK_SIZE
  /\ Forall (fun it => 0 < UploadQueueItem.size it <= UPLOAD_CHUNK_SIZE)
       (chunk_items loc fsz tid i chunks)
  /\ (forall it, last (chunk_items loc fsz tid i chunks) = Some it ->
        UploadQueueItem.size it
        = fsz - (i + Z.of_nat (length chunks) - 1) * UPLOAD_CHUNK_SIZE).
Proof.
  pose proof UPLOAD_CHUNK_SIZE_pos as HU.
  induction chunks as [|c chunks IH]; intros i Hi Hnil Hcons.
  - simpl. split; [rewrite Hnil by reflexivity; unfold sum_sizes; simpl; lia|].
    split; [constructor|]. intros it H. discriminate H.
  - specialize (Hcons ltac:(discriminate)). destruct Hcons as [Hlo Hhi].
    simpl length in *. rewrite Nat2Z.inj_succ in *.
    destruct chunks as [|c' chunks].
    + simpl in *. unfold sum_sizes. simpl.
      split; [lia|]. split.
      * constructor; [simpl; lia|constructor].
      * intros it H. injection H as <-. simpl. lia.
    + destruct (IH (i + 1)) as (Hs & Hf & Hl).
      * lia.
      * discriminate.
      * intros _. simpl length in *. rewrite Nat2Z.inj_succ in *. lia.
      * simpl length in *. rewrite Nat2Z.inj_succ in *.
        change (chunk_items loc fsz tid i (c :: c' :: chunks))
          with (UploadQueueItem.mk loc
                  (Z.min UPLOAD_CHUNK_SIZE (fsz - i * UPLOAD_CHUNK_SIZE))
                  tid c i
                :: chunk_items loc fsz tid (i + 1) (c' :: chunks)).
        split; [|split].
        -- rewrite sum_sizes_cons, Hs. simpl. lia.
        -- constructor; [simpl; lia|exact Hf].
        -- intros it H. rewrite last_cons in H.
           destruct (last (chunk_items loc fsz tid (i + 1) (c' :: chunks)))
             as [it'|] eqn:E.
           ++ injection H as <-. rewrite (Hl it' eq_refl). lia.
           ++ apply last_None in E. discriminate E.
Qed.

Lemma ceil_div_bounds a :
  0 <= a ->
  (ceil_div a UPLOAD_CHUNK_SIZE - 1) * UPLOAD_CHUNK_SIZE < a + Z.b2z (a =? 0)
  /\ a <= ceil_div a UPLOAD_CHUNK_SIZE * UPLOAD_CHUNK_SIZE
  /\ (a = 0 -> ceil_div a UPLOAD_CHUNK_SIZE = 0).
Proof.
  intros Ha. pose proof UPLOAD_CHUNK_SIZE_pos as HU. unfold ceil_div.
  pose proof (Z.div_mod (- a) UPLOAD_CHUNK_SIZE ltac:(lia)) as Hdm.
  pose proof (Z.mod_pos_bound (- a) UPLOAD_CHUNK_SIZE HU) as Hm.
  split; [|split].
  - destruct (a =? 0) eqn:E; simpl; nia.
  - nia.
  - intros ->. reflexivity.
Qed.

Lemma last_chunk_size_spec a :
  0 < a ->
  a - (ceil_div a UPLOAD_CHUNK_SIZE - 1) * UPLOAD_CHUNK_SIZE
  = last_chunk_size a.
Proof.
  intros Ha. pose proof UPLOAD_CHUNK_SIZE_pos as HU.
  unfold last_chunk_size, ceil_div.
  pose proof (Z.div_mod a UPLOAD_CHUNK_SIZE ltac:(lia)) as Hdm.
  pose proof (Z.mod_pos_bound a UPLOAD_CHUNK_SIZE HU) as Hm.
  destruct (a mod UPLOAD_CHUNK_SIZE =? 0) eqn:E.
  - apply Z.eqb_eq in E. rewrite E in Hdm.
    assert (Hq : - a = (- (a / UPLOAD_CHUNK_SIZE)) * UPLOAD_CHUNK_SIZE) by lia.
    rewrite Hq, Z.div_mul by lia. lia.
  - apply Z.eqb_neq in E.
    assert (Hq : (- a) / UPLOAD_CHUNK_SIZE = - (a / UPLOAD_CHUNK_SIZE) - 1).
    { symmetry. apply (Z.div_unique_pos _ _ _
        (UPLOAD_CHUNK_SIZE - a mod UPLOAD_CHUNK_SIZE)); lia. }
    rewrite Hq. lia.
Qed.

Lemma file_items_well_chunked mp tid file :
  well_chunked mp file ->
  sum_sizes (file_items mp tid file) = file_size mp file
  /\ Forall (fun it => 0 < UploadQueueItem.size it <= UPLOAD_CHUNK_SIZE)
       (file_items mp tid file)
  /\ (forall it, last (file_items mp tid file) = Some it ->
        UploadQueueItem.size it = last_chunk_size (file_size mp file)).
Proof.
  intros [Hpos Hlen]. unfold file_items, file_size in *.
  destruct (file_source mp file) as [loc fsz]. simpl in *.
  destruct (ceil_div_bounds fsz Hpos) as (Hlo & Hhi & Hz).
  destruct (chunk_items_exact loc fsz tid (FileEntry.chunks file) 0) as (Hs & Hf & Hl).
  - lia.
  - intros E. rewrite E in Hlen. simpl in Hlen.
    destruct (fsz =? 0) eqn:E0; [apply Z.eqb_eq in E0; lia|].
    simpl in Hlo. apply Z.eqb_neq in E0. lia.
  - intros E. rewrite Hlen.
    destruct (fsz =? 0) eqn:E0.
    + apply Z.eqb_eq in E0. rewrite (Hz E0) in Hlen.
      destruct (FileEntry.chunks file); [congruence|discriminate Hlen].
    + simpl in Hlo. lia.
  - split; [lia|]. split; [exact Hf|].
    intros it H. rewrite (Hl it H), Hlen. simpl.
    destruct (FileEntry.chunks file) as [|c cs] eqn:E; [discriminate H|].
    apply last_chunk_size_spec.
    destruct (fsz =? 0) eqn:E0; [|apply Z.eqb_neq in E0; lia].
    apply Z.eqb_eq in E0. rewrite (Hz E0) in Hlen. discriminate Hlen.
Qed.

Lemma plan_sum mp tid files :
  Forall (well_chunked mp) files ->
  sum_sizes (concat (file_items mp tid <$> files))
  = sum_list_Z (file_size mp <$> files)
  /\ Forall (fun it => 0 < UploadQueueItem.size it <= UPLOAD_CHUNK_SIZE)
       (concat (file_items mp tid <$> files)).
Proof.
  induction 1 as [|f files Hf _ [IHs IHb]].
  - split; [reflexivity|constructor].
  - destruct (file_items_well_chunked mp tid f Hf) as (Hs & Hb & _).
    rewrite !fmap_cons. simpl concat.
    rewrite sum_sizes_app, Hs, IHs. split; [reflexivity|].
    apply Forall_app; split; assumption.
Qed.

(** ** Stepping through a computation *)

Lemma bind_ret {S A B} (a : A) (k : A -> M S B) s : (x <- ret a ;; k x) s = k a s.
Proof. reflexivity. Qed.

Lemma bind_raise {S A B} (e : exn) (k : A -> M S B) s :
  (x <- raise e ;; k x) s = (Raise e, s).
Proof. reflexivity. Qed.

Lemma bind_ok {S A B} (m : M S A) (k : A -> M S B) s a s' :
  m s = (Ok a, s') -> (x <- m ;; k x) s = k a s'.
Proof. intros H. unfold bind. rewrite H. reflexivity. Qed.

Lemma bind_fail {S A B} (m : M S A) (k : A -> M S B) s e s' :
  m s = (Raise e, s') -> (x <- m ;; k x) s = (Raise e, s').
Proof. intros H. unfold bind. rewrite H. reflexivity. Qed.

Lemma bind_log {B} level msg (k : unit -> M World.t B) w :
  (x <- log level msg ;; k x) w = k tt (World.emit (Log level msg) w).
Proof. reflexivity. Qed.

Lemma bind_post {B} mc url data headers (k : Response.t -> M World.t B) w :
  (x <- post mc url data headers ;; k x) w
  = match MerginClient.post mc (World.trace w) (Request.mk url data headers) with
    | Answer resp => k resp (World.emit (Post (Request.mk url data headers)) w)
    | Failure detail =>
        (Raise (ClientError detail),
         World.emit (Post (Request.mk url data headers)) w)
    end.
Proof. unfold bind, post. destruct (MerginClient.post mc _ _); reflexivity. Qed.

Lemma bind_get_job {B} (k : UploadJob.t -> M JobState.t B) s :
  (x <- get_job ;; k x) s = k (JobState.job s) s.
Proof. reflexivity. Qed.

Lemma bind_modify_job {B} f (k : unit -> M JobState.t B) s :
  (x <- modify_job f ;; k x) s
  = k tt (JobState.mk (f (JobState.job s)) (JobState.world s)).
Proof. reflexivity. Qed.

Lemma bind_on_world_log {B} level msg (k : unit -> M JobState.t B) s :
  (x <- on_world (log level msg) ;; k x) s
  = k tt (JobState.mk (JobState.job s)
            (World.emit (Log level msg) (JobState.world s))).
Proof. reflexivity. Qed.

Lemma bind_on_world_post {B} mc url data headers
    (k : Response.t -> M JobState.t B) s :
  (x <- on_world (post mc url data headers) ;; k x) s
  = match MerginClient.post mc (World.trace (JobState.world s))
            (Request.mk url data headers) with
    | Answer resp =>
        k resp (JobState.mk (JobState.job s)
                  (World.emit (Post (Request.mk url data headers))
                     (JobState.world s)))
    | Failure detail =>
        (Raise (ClientError detail),
         JobState.mk (JobState.job s)
           (World.emit (Post (Request.mk url data headers)) (JobState.world s)))
    end.
Proof.
  unfold bind, on_world, post.
  destruct (MerginClient.post mc _ _); reflexivity.
Qed.

Lemma trace_emit e w : World.trace (World.emit e w) = World.trace w ++ [e].
Proof. reflexivity. Qed.

(** ** Upload tasks *)

Lemma prefix_app (p s : string) : String.prefix p (p +:+ s) = true.
Proof.
  induction p as [|c p IH]; simpl; [destruct s; reflexivity|].
  rewrite IH. destruct (Ascii.ascii_dec c c); [reflexivity|congruence].
Qed.

Lemma cancel_url_is_cancel env tid data headers :
  is_cancel_request (Post (Request.mk (cancel_url env tid) data headers)) = true.
Proof. apply prefix_app. Qed.

Lemma finish_url_is_finish env tid data headers :
  is_finish_request (Post (Request.mk (finish_url env tid) data headers)) = true.
Proof. apply prefix_app. Qed.

(** C3. When the acknowledgement of a chunk reports a byte count that
    differs from the number of bytes sent, or a checksum that differs from
    the SHA-1 of those bytes, upload_blocking raises the chunk-mismatch
    ClientError; by then it has sent the chunk and exactly one cancel
    request for the transaction, and whether that cancel request failed
    makes no difference to the error raised. *)
Theorem upload_blocking_mismatch env self mc mp w content resp d size :
  Env.file_content env (UploadQueueItem.file_path self) = Some content ->
  0 <= UploadQueueItem.chunk_index self ->
  let data :=
    read (seek content (UploadQueueItem.chunk_index self * UPLOAD_CHUNK_SIZE))
      UPLOAD_CHUNK_SIZE in
  let uploading :=
    Log "debug" ("Uploading " +:+ UploadQueueItem.file_path self +:+ " part="
                   +:+ str_int (UploadQueueItem.chunk_index self)) in
  let chunk_request :=
    Request.mk (chunk_url env self) (Bytes data)
      [("Content-Type", "application/octet-stream")] in
  let cancel_request :=
    Request.mk (cancel_url env (UploadQueueItem.transaction_id self)) NoData [] in
  MerginClient.post mc (World.trace w ++ [uploading]) chunk_request = Answer resp ->
  Response.body resp = Some (JDict d) ->
  assoc "size" d = Some size ->
  (eq_int size (len data) = false
   \/ exists sum, assoc "checksum" d = Some sum
                  /\ eq_str sum (Env.sha1_hexdigest env data) = false) ->
  exists w',
    upload_blocking env self mc mp w
    = (Raise (ClientError ("Mismatch between uploaded file chunk "
                             +:+ UploadQueueItem.chunk_id self
                             +:+ " and local one")), w')
    /\ World.trace w'
       = World.trace w
         ++ [uploading; Post chunk_request;
             Log "debug" ("Upload finished: " +:+ UploadQueueItem.file_path self);
             Post cancel_request]
    /\ length (filter (fun e => is_cancel_request e = true)
                 (drop (length (World.trace w)) (World.trace w'))) = 1%nat.
Proof.
  intros Hfile Hidx data uploading chunk_request cancel_request Hpost Hbody
    Hsize Hbad.
  pose proof UPLOAD_CHUNK_SIZE_pos as HU.
  assert (Hoff : (UploadQueueItem.chunk_index self * UPLOAD_CHUNK_SIZE <? 0) = false)
    by (apply Z.ltb_ge; nia).
  assert (Hmatch :
    (if eq_int size (len data)
     then sum <- subscript (JDict d) "checksum" ;;
          ret (eq_str sum (Env.sha1_hexdigest env data))
     else ret false)
      (World.emit (Log "debug" ("Upload finished: "
                                  +:+ UploadQueueItem.file_path self))
         (World.emit (Post chunk_request) (World.emit uploading w)))
    = (Ok false,
       World.emit (Log "debug" ("Upload finished: "
                                  +:+ UploadQueueItem.file_path self))
         (World.emit (Post chunk_request) (World.emit uploading w)))).
  { destruct Hbad as [Hne | (sum & Hsum & Hne)].
    - rewrite Hne. reflexivity.
    - destruct (eq_int size (len data)); [|reflexivity].
      unfold bind, subscript. rewrite Hsum. unfold ret. rewrite Hne.
      reflexivity. }
  eexists. split; [|split].
  - unfold upload_blocking. rewrite Hfile, Hoff.
    rewrite bind_log, bind_post, trace_emit. fold data uploading chunk_request.
    rewrite Hpost. unfold json_load. rewrite Hbody, bind_ret, bind_log.
    unfold subscript at 1. rewrite Hsize, bind_ret.
    rewrite (bind_ok _ _ _ _ _ Hmatch).
    unfold bind, try_except_ClientError, post, raise, ret, mismatch_error.
    match goal with
    | |- context [MerginClient.post mc ?t ?r] =>
        destruct (MerginClient.post mc t r)
    end; reflexivity.
  - simpl. rewrite <- !app_assoc. reflexivity.
  - simpl. rewrite <- !app_assoc. simpl.
    rewrite drop_app_length.
    unfold uploading, chunk_request, cancel_request.
    rewrite !filter_cons, filter_nil.
    change (is_cancel_request (Post (Request.mk (chunk_url env self) ?a ?b)))
      with false.
    rewrite cancel_url_is_cancel. simpl.
    repeat case_decide; try congruence; reflexivity.
Qed.


(** An instance: the service reports 2 bytes for the 3 it was sent, and
    fails the cancel request. *)
Lemma upload_blocking_mismatch_witness :
  exists w',
    upload_blocking Demo.env Demo.item
      (Demo.mc (inr (true, 0)) Demo.short_service) (Demo.mp ∅) Demo.world
    = (Raise (ClientError
                "Mismatch between uploaded file chunk chunk-a and local one"),
       w')
    /\ posted_urls (World.trace w')
       = ["/v1/project/push/chunk/t-1/chunk-a"; "/v1/project/push/cancel/t-1"].
Proof.
  destruct (upload_blocking_mismatch Demo.env Demo.item
              (Demo.mc (inr (true, 0)) Demo.short_service) (Demo.mp ∅)
              Demo.world [Byte.x68; Byte.x69; Byte.x0a]
              (Response.mk "OK"
                 (Some (JDict [("size", JInt 2); ("checksum", JStr "sha1-3")])))
              [("size", JInt 2); ("checksum", JStr "sha1-3")] (JInt 2))
    as (w' & Hrun & Htrace & _).
  - reflexivity.
  - simpl. lia.
  - reflexivity.
  - reflexivity.
  - reflexivity.
  - left. reflexivity.
  - exists w'. split; [exact Hrun|]. rewrite Htrace. reflexivity.
Defined.

(** ** Polling *)

Lemma is_running_loop_outcome futures w :
  exists evs,
    (is_running_loop futures w).2
    = World.mk (World.trace w ++ evs) (World.metadata w) (World.tmp_dirs w)
    /\ Forall (fun e => is_post e = false) evs
    /\ forall w', (is_running_loop futures w').1 = (is_running_loop futures w).1.
Proof.
  induction futures as [|f futures IH]; simpl.
  - exists []. rewrite app_nil_r. destruct w; repeat split; constructor.
  - destruct (Future.done f) eqn:Hd, (Future.exception f) as [e|] eqn:He;
      try (destruct (Future.running f);
           [exists []; rewrite app_nil_r; destruct w; repeat split; constructor
           | exact IH]).
    eexists [_; _]. split; [|split].
    + unfold bind, log, raise. simpl. unfold World.emit. simpl.
      rewrite <- app_assoc. reflexivity.
    + repeat constructor.
    + reflexivity.
Qed.


Lemma exception_done f e : Future.exception f = Some e -> Future.done f = true.
Proof.
  unfold Future.done, Future.exception.
  destruct (Future.state f); [discriminate..|reflexivity].
Qed.

Lemma is_running_loop_false futures w :
  (is_running_loop futures w).1 = Ok false ->
  Forall (fun f => Future.running f = false /\ Future.exception f = None)
    futures.
Proof.
  induction futures as [|f futures IH]; simpl; intros H; [constructor|].
  destruct (Future.exception f) as [e|] eqn:He.
  - rewrite (exception_done f e He) in H. discriminate H.
  - assert (H' : ((if Future.running f then ret true
                   else is_running_loop futures) w).1 = Ok false)
      by (destruct (Future.done f); exact H).
    destruct (Future.running f) eqn:Hr; [discriminate H'|].
    constructor; [split; assumption|exact (IH H')].
Qed.








(** C6 (amended). A call of push_project_is_running changes no field of
    the job, the project metadata or the temporary directories, and sends
    nothing to the service; repeated while the tasks stay in their states,
    the call gives the same outcome each time, so that the error of a
    failed task is raised again by every call. *)
Theorem push_project_is_running_repeatable (s : JobState.t) :
  let '(r1, s1) := push_project_is_running s in
  let '(r2, s2) := push_project_is_running s1 in
  JobState.job s1 = JobState.job s
  /\ JobState.job s2 = JobState.job s
  /\ r2 = r1
  /\ World.metadata (JobState.world s2) = World.metadata (JobState.world s)
  /\ World.tmp_dirs (JobState.world s2) = World.tmp_dirs (JobState.world s)
  /\ posted_urls (World.trace (JobState.world s2))
     = posted_urls (World.trace (JobState.world s)).
Proof.
  unfold push_project_is_running. rewrite bind_get_job. unfold on_world.
  destruct (is_running_loop_outcome (UploadJob.futures (JobState.job s))
              (JobState.world s)) as (evs1 & Hw1 & Hevs1 & Hres).
  destruct (is_running_loop (UploadJob.futures (JobState.job s))
              (JobState.world s)) as [r1 w1] eqn:E1.
  rewrite bind_get_job. simpl JobState.job. simpl JobState.world.
  destruct (is_running_loop_outcome (UploadJob.futures (JobState.job s)) w1)
    as (evs2 & Hw2 & Hevs2 & _).
  specialize (Hres w1).
  destruct (is_running_loop (UploadJob.futures (JobState.job s)) w1)
    as [r2 w2] eqn:E2.
  simpl in *. subst w1 w2. simpl.
  repeat split; try congruence.
  unfold posted_urls. rewrite !omap_app.
  assert (Hnil : forall evs, Forall (fun e => is_post e = false) evs ->
            omap (fun e => match e with
                           | Post request => Some (Request.url request)
                           | _ => None
                           end) evs = []).
  { induction 1 as [|e evs He _ IH]; [reflexivity|].
    simpl. destruct e; try discriminate He; exact IH. }
  rewrite (Hnil _ Hevs1), (Hnil _ Hevs2), !app_nil_r. reflexivity.
Qed.

(** C6, as stated, fails: the error of one failed task is raised by the
    first call and again by the second, while another task is not yet
    complete. *)
Lemma push_project_is_running_counterexample_twice :
  let s := Demo.state 0 [Future.mk Demo.item (FINISHED (Some (ClientError "timeout")));
                         Future.mk Demo.item PENDING] in
  let '(r1, s1) := push_project_is_running s in
  let '(r2, s2) := push_project_is_running s1 in
  r1 = Raise (ClientError "timeout") /\ r2 = Raise (ClientError "timeout").
Proof. split; reflexivity. Qed.

(** ** What an operation leaves behind in the world *)

Create HintDb quiet.

Lemma grows_refl P w : grows P w w.
Proof. exists []. rewrite app_nil_r. destruct w. split; [reflexivity|constructor]. Qed.

Lemma grows_trans P w1 w2 w3 : grows P w1 w2 -> grows P w2 w3 -> grows P w1 w3.
Proof.
  intros (e1 & -> & H1) (e2 & -> & H2). exists (e1 ++ e2). simpl.
  rewrite app_assoc. split; [reflexivity|]. apply Forall_app; split; assumption.
Qed.

Lemma grows_emit (P : event -> Prop) e w : P e -> grows P w (World.emit e w).
Proof. intros H. exists [e]. split; [reflexivity|]. repeat constructor. exact H. Qed.

Lemma quiet_ret {A} P (a : A) : quiet P (ret a).
Proof. intros w. apply grows_refl. Qed.

Lemma quiet_raise {A} P e : quiet P (@raise World.t A e).
Proof. intros w. apply grows_refl. Qed.

Lemma quiet_bind {A B} P (m : M World.t A) (k : A -> M World.t B) :
  quiet P m -> (forall a, quiet P (k a)) -> quiet P (x <- m ;; k x).
Proof.
  intros Hm Hk w. unfold bind. specialize (Hm w).
  destruct (m w) as [[a|e] w1]; simpl in *; [|exact Hm].
  exact (grows_trans _ _ _ _ Hm (Hk a w1)).
Qed.

Lemma quiet_try {A} P (m : M World.t A) h :
  quiet P m -> (forall err, quiet P (h err)) ->
  quiet P (try_except_ClientError m h).
Proof.
  intros Hm Hh w. unfold try_except_ClientError. specialize (Hm w).
  destruct (m w) as [[a|[err|cls msg]] w1]; simpl in *; try exact Hm.
  exact (grows_trans _ _ _ _ Hm (Hh err w1)).
Qed.

Lemma quiet_log (P : event -> Prop) level msg :
  P (Log level msg) -> quiet P (log level msg).
Proof. intros H w. apply grows_emit, H. Qed.

Lemma quiet_post (P : event -> Prop) mc url data headers :
  P (Post (Request.mk url data headers)) -> quiet P (post mc url data headers).
Proof.
  intros H w. unfold post.
  destruct (MerginClient.post mc _ _); apply grows_emit, H.
Qed.

Lemma quiet_subscript P v k : quiet P (subscript v k).
Proof.
  intros w. unfold subscript. destruct v; try apply grows_refl.
  destruct (assoc k d); apply grows_refl.
Qed.

Lemma quiet_json_load P env resp : quiet P (json_load env resp).
Proof.
  intros w. unfold json_load. destruct (Response.body resp); apply grows_refl.
Qed.

Lemma prefix_inv (p s : string) :
  String.prefix p s = true -> exists r, s = p +:+ r.
Proof.
  revert s. induction p as [|c p IH]; intros s H; [exists s; reflexivity|].
  destruct s as [|c' s]; [discriminate H|]. simpl in H.
  destruct (Ascii.ascii_dec c c') as [<-|]; [|discriminate H].
  destruct (IH s H) as [r ->]. exists r. reflexivity.
Qed.

Lemma worker_event_not_finish e : worker_event e -> is_finish_request e = false.
Proof.
  destruct e as [| [url data headers] | | | |]; simpl; try tauto;
    try (intros _; reflexivity).
  unfold is_chunk_request, is_cancel_request, is_finish_request, posts_to.
  simpl Request.url.
  intros [H|H]; apply prefix_inv in H; destruct H as [r ->]; reflexivity.
Qed.

#[local] Hint Resolve quiet_ret quiet_raise quiet_subscript quiet_json_load
  : quiet.

Lemma upload_blocking_quiet env self mc mp :
  quiet worker_event (upload_blocking env self mc mp).
Proof.
  unfold upload_blocking.
  destruct (Env.file_content env _); [|auto with quiet].
  destruct (_ <? 0); [auto with quiet|].
  apply quiet_bind; [apply quiet_log; exact I|intros _].
  apply quiet_bind.
  { apply quiet_post. left. apply prefix_app. }
  intros resp. apply quiet_bind; [auto with quiet|intros resp_dict].
  apply quiet_bind; [apply quiet_log; exact I|intros _].
  apply quiet_bind; [auto with quiet|intros size].
  apply quiet_bind.
  { destruct (eq_int _ _); [|auto with quiet].
    apply quiet_bind; auto with quiet. }
  intros [|]; [auto with quiet|].
  apply quiet_bind; [|auto with quiet].
  apply quiet_try; [|auto with quiet].
  apply quiet_bind; [|auto with quiet].
  apply quiet_post. right. apply prefix_app.
Qed.

(** ** The worker pool *)

Lemma same_frame_refl j : same_frame j j.
Proof. repeat split. Qed.

Lemma same_frame_trans j1 j2 j3 :
  same_frame j1 j2 -> same_frame j2 j3 -> same_frame j1 j3.
Proof. unfold same_frame. intuition congruence. Qed.

Lemma step_ok_idle i s : step_ok i None s s.
Proof.
  constructor; try (simpl; lia); try congruence.
  - apply grows_refl.
  - apply same_frame_refl.
Qed.

Lemma items_alter st i (l : list Future.t) :
  Future.item <$> alter (fun f => Future.mk (Future.item f) st) i l
  = Future.item <$> l.
Proof.
  apply list_eq. intros j. rewrite !list_lookup_fmap.
  destruct (decide (i = j)) as [<-|Hne].
  - rewrite list_lookup_alter_eq. destruct (l !! i); reflexivity.
  - rewrite list_lookup_alter_ne by exact Hne. reflexivity.
Qed.

Lemma set_future_state_frame i st s :
  same_frame (JobState.job s) (JobState.job (set_future_state i st s)).
Proof.
  unfold set_future_state. simpl. repeat split. simpl. apply items_alter.
Qed.

Lemma set_future_state_mono i st s f0 :
  UploadJob.futures (JobState.job s) !! i = Some f0 ->
  Future.done f0 = false ->
  forall j f,
    UploadJob.futures (JobState.job s) !! j = Some f ->
    Future.done f = true ->
    UploadJob.futures (JobState.job (set_future_state i st s)) !! j = Some f.
Proof.
  intros Hi Hnd j f Hj Hd. unfold set_future_state. simpl.
  destruct (decide (i = j)) as [<-|Hne]; [congruence|].
  rewrite list_lookup_alter_ne by exact Hne. exact Hj.
Qed.

Lemma set_future_state_done i e s f0 :
  UploadJob.futures (JobState.job s) !! i = Some f0 ->
  is_done (set_future_state i (FINISHED e) s) i.
Proof.
  intros Hi. unfold is_done, set_future_state. simpl.
  rewrite list_lookup_alter_eq, Hi. eexists. split; reflexivity.
Qed.

Lemma worker_start_ok i s :
  let '(o, s') := worker_start i s in step_ok i o s s'.
Proof.
  unfold worker_start.
  destruct (UploadJob.futures (JobState.job s) !! i) as [f|] eqn:Hi;
    [|apply step_ok_idle].
  destruct (Future.state f) eqn:Hst; try apply step_ok_idle.
  assert (Hnd : Future.done f = false) by (unfold Future.done; rewrite Hst; reflexivity).
  destruct (UploadJob.is_cancelled (JobState.job s)).
  - constructor.
    + apply grows_refl.
    + apply set_future_state_frame.
    + simpl. lia.
    + intros _. split; [exists f; split; assumption|].
      eapply set_future_state_done, Hi.
    + eapply set_future_state_mono; eassumption.
  - constructor.
    + apply grows_refl.
    + apply set_future_state_frame.
    + simpl. lia.
    + congruence.
    + eapply set_future_state_mono; eassumption.
Qed.

Lemma upload_and_account_run env mc mp item s :
  upload_and_account env mc mp item s
  = match upload_blocking env item mc mp (JobState.world s) with
    | (Ok _, w') =>
        (Ok tt,
         JobState.mk
           (UploadJob.set_transferred_size
              (UploadJob.transferred_size (JobState.job s)
               + UploadQueueItem.size item) (JobState.job s)) w')
    | (Raise e, w') => (Raise e, JobState.mk (JobState.job s) w')
    end.
Proof.
  unfold upload_and_account, bind, on_world, modify_job.
  destruct (upload_blocking env item mc mp (JobState.world s)) as [[[]|e] w'];
    reflexivity.
Qed.

Lemma worker_finish_ok env mc mp i s :
  let '(o, s') := worker_finish env mc mp i s in step_ok i o s s'.
Proof.
  unfold worker_finish.
  destruct (UploadJob.futures (JobState.job s) !! i) as [f|] eqn:Hi;
    [|apply step_ok_idle].
  destruct (Future.state f) eqn:Hst; try apply step_ok_idle.
  assert (Hnd : Future.done f = false) by (unfold Future.done; rewrite Hst; reflexivity).
  rewrite upload_and_account_run.
  pose proof (upload_blocking_quiet env (Future.item f) mc mp (JobState.world s)) as Hq.
  destruct (upload_blocking env (Future.item f) mc mp (JobState.world s))
    as [[[]|e] w'] eqn:E; simpl in Hq.
  - constructor.
    + exact Hq.
    + eapply same_frame_trans; [|apply set_future_state_frame].
      simpl. repeat split.
    + simpl. unfold size_of, items_of. rewrite list_lookup_fmap, Hi.
      reflexivity.
    + intros _. split; [exists f; split; assumption|].
      eapply set_future_state_done. simpl. exact Hi.
    + intros j g Hj Hd.
      eapply (set_future_state_mono i _ (JobState.mk _ w') f); simpl; eassumption.
  - constructor.
    + exact Hq.
    + apply (set_future_state_frame i _ (JobState.mk (JobState.job s) w')).
    + simpl. lia.
    + intros _. split; [exists f; split; assumption|].
      eapply set_future_state_done. simpl. exact Hi.
    + intros j g Hj Hd.
      eapply (set_future_state_mono i _ (JobState.mk _ w') f); simpl; eassumption.
Qed.

Lemma pool_step_ok env mc mp a s :
  let '(o, s') := pool_step env mc mp a s in step_ok (action_index a) o s s'.
Proof.
  destruct a; simpl; [apply worker_start_ok|apply worker_finish_ok|].
  constructor; try (simpl; lia); try congruence.
  - apply grows_refl.
  - repeat split.
  - intros j f H _. exact H.
Qed.

Lemma not_done_back i o s s' j :
  step_ok i o s s' -> not_done s' j -> not_done s j.
Proof.
  intros H (f' & Hf' & Hnd).
  assert (Hlen : length (UploadJob.futures (JobState.job s))
                 = length (UploadJob.futures (JobState.job s'))).
  { destruct (so_frame _ _ _ _ H) as (_ & _ & _ & _ & _ & _ & _ & _ & Hit).
    rewrite <- (length_fmap Future.item), <- Hit, length_fmap. reflexivity. }
  destruct (lookup_lt_is_Some_2 (UploadJob.futures (JobState.job s)) j) as [f Hf].
  { rewrite Hlen. apply lookup_lt_is_Some_1. eexists; exact Hf'. }
  exists f. split; [exact Hf|].
  destruct (Future.done f) eqn:Hd; [|reflexivity].
  pose proof (so_mono _ _ _ _ H j f Hf Hd). congruence.
Qed.

Lemma uploaded_cons i o ended :
  uploaded ((i, o) :: ended)
  = match o with Uploaded => i :: uploaded ended | _ => uploaded ended end.
Proof. destruct o; reflexivity. Qed.

Lemma sum_list_Z_cons x l : sum_list_Z (x :: l) = x + sum_list_Z l.
Proof. reflexivity. Qed.

Lemma run_workers_ok env mc mp schedule : forall s,
  let '(ended, s') := run_workers env mc mp schedule s in run_ok ended s s'.
Proof.
  induction schedule as [|a schedule IH]; intros s; simpl.
  - constructor; try (intros; set_solver).
    + apply grows_refl.
    + apply same_frame_refl.
    + simpl. unfold sum_list_Z. simpl. lia.
    + constructor.
  - pose proof (pool_step_ok env mc mp a s) as Hstep.
    destruct (pool_step env mc mp a s) as [o s1].
    specialize (IH s1).
    destruct (run_workers env mc mp schedule s1) as [ended s2].
    assert (Hitems : items_of s1 = items_of s).
    { destruct (so_frame _ _ _ _ Hstep) as (_ & _ & _ & _ & _ & _ & _ & _ & Hit).
      exact Hit. }
    assert (Hcommon :
      grows worker_event (JobState.world s) (JobState.world s2)
      /\ same_frame (JobState.job s) (JobState.job s2)
      /\ (forall j f,
            UploadJob.futures (JobState.job s) !! j = Some f ->
            Future.done f = true ->
            UploadJob.futures (JobState.job s2) !! j = Some f)).
    { split; [|split].
      - eapply grows_trans; [exact (so_world _ _ _ _ Hstep)|exact (ro_world _ _ _ IH)].
      - eapply same_frame_trans; [exact (so_frame _ _ _ _ Hstep)|exact (ro_frame _ _ _ IH)].
      - intros j f Hj Hd. eapply (ro_mono _ _ _ IH); [|exact Hd].
        eapply (so_mono _ _ _ _ Hstep); eassumption. }
    destruct Hcommon as (Hw & Hfr & Hmono).
    destruct o as [out|].
    + destruct (so_ended _ _ _ _ Hstep ltac:(discriminate)) as [Hnd (f1 & Hf1 & Hd1)].
      constructor; try assumption.
      * rewrite (ro_transferred _ _ _ IH), (so_transferred _ _ _ _ Hstep), Hitems.
        rewrite uploaded_cons.
        destruct out; rewrite ?fmap_cons, ?sum_list_Z_cons; lia.
      * simpl. constructor; [|exact (ro_nodup _ _ _ IH)].
        intros Hin. destruct (ro_ended _ _ _ IH _ Hin) as [(f & Hf & Hnd') _].
        congruence.
      * intros j Hj. simpl in Hj. apply elem_of_cons in Hj as [->|Hj].
        -- split; [exact Hnd|]. exists f1. split; [|exact Hd1].
           eapply (ro_mono _ _ _ IH); eassumption.
        -- destruct (ro_ended _ _ _ IH _ Hj) as [Hnd' Hd'].
           split; [exact (not_done_back _ _ _ _ _ Hstep Hnd')|exact Hd'].
    + constructor; try assumption.
      * rewrite (ro_transferred _ _ _ IH), (so_transferred _ _ _ _ Hstep), Hitems.
        lia.
      * exact (ro_nodup _ _ _ IH).
      * intros j Hj. destruct (ro_ended _ _ _ IH _ Hj) as [Hnd' Hd'].
        split; [exact (not_done_back _ _ _ _ _ Hstep Hnd')|exact Hd'].
Qed.

(** *** [_do_upload] as the workers run it *)


(** *** Shutting the pool down *)

Lemma run_workers_app env mc mp sched1 sched2 s :
  run_workers env mc mp (sched1 ++ sched2) s
  = let '(ended1, s1) := run_workers env mc mp sched1 s in
    let '(ended2, s2) := run_workers env mc mp sched2 s1 in
    (ended1 ++ ended2, s2).
Proof.
  revert s. induction sched1 as [|a sched1 IH]; intros s; simpl.
  - destruct (run_workers env mc mp sched2 s); reflexivity.
  - destruct (pool_step env mc mp a s) as [o s']. rewrite IH.
    destruct (run_workers env mc mp sched1 s') as [ended1 s1].
    destruct (run_workers env mc mp sched2 s1) as [ended2 s2].
    destruct o; reflexivity.
Qed.

Lemma futures_length ended s s' :
  run_ok ended s s' ->
  length (UploadJob.futures (JobState.job s'))
  = length (UploadJob.futures (JobState.job s)).
Proof.
  intros H. destruct (ro_frame _ _ _ H) as (_ & _ & _ & _ & _ & _ & _ & _ & Hit).
  rewrite <- (length_fmap Future.item), Hit, length_fmap. reflexivity.
Qed.

Lemma lookup_set_future_state i st s f :
  UploadJob.futures (JobState.job s) !! i = Some f ->
  UploadJob.futures (JobState.job (set_future_state i st s)) !! i
  = Some (Future.mk (Future.item f) st).
Proof.
  intros Hi. unfold set_future_state. simpl.
  rewrite list_lookup_alter_eq, Hi. reflexivity.
Qed.

Lemma run_start_finish env mc mp i s :
  (run_workers env mc mp [Start i; Finish i] s).2
  = (worker_finish env mc mp i (worker_start i s).2).2.
Proof.
  simpl. destruct (worker_start i s) as [o1 s1]. simpl.
  destruct (worker_finish env mc mp i s1) as [o2 s2]. reflexivity.
Qed.

(** A task in flight is over once its worker has finished. *)
Lemma worker_finish_done env mc mp i s f :
  UploadJob.futures (JobState.job s) !! i = Some f ->
  Future.state f <> PENDING ->
  is_done (worker_finish env mc mp i s).2 i.
Proof.
  intros Hi Hst. pose proof (worker_finish_ok env mc mp i s) as Hok.
  unfold worker_finish in *. rewrite Hi in *.
  destruct (Future.state f) eqn:E; [congruence| |].
  - destruct (upload_and_account env mc mp (Future.item f) s) as [[[]|e] s1];
      exact (proj2 (so_ended _ _ _ _ Hok ltac:(discriminate))).
  - exists f. split; [exact Hi|]. unfold Future.done. rewrite E. reflexivity.
Qed.

(** A task that a worker takes and runs is over afterwards. *)
Lemma start_finish_done env mc mp i s :
  (i < length (UploadJob.futures (JobState.job s)))%nat ->
  is_done (run_workers env mc mp [Start i; Finish i] s).2 i.
Proof.
  intros Hlt. destruct (lookup_lt_is_Some_2 _ _ Hlt) as [f Hi].
  rewrite run_start_finish. unfold worker_start. rewrite Hi.
  destruct (Future.state f) eqn:Hst.
  - destruct (UploadJob.is_cancelled (JobState.job s)); simpl;
      (eapply worker_finish_done;
       [apply lookup_set_future_state, Hi|discriminate]).
  - simpl. eapply worker_finish_done; [exact Hi|congruence].
  - simpl. eapply worker_finish_done; [exact Hi|congruence].
Qed.

Lemma drain_schedule_S n :
  drain_schedule (S n) = drain_schedule n ++ [Start n; Finish n].
Proof.
  unfold drain_schedule. rewrite seq_S, flat_map_app. simpl. reflexivity.
Qed.

Lemma drain_prefix_done env mc mp n s :
  (n <= length (UploadJob.futures (JobState.job s)))%nat ->
  forall i, (i < n)%nat ->
    is_done (run_workers env mc mp (drain_schedule n) s).2 i.
Proof.
  induction n as [|n IH]; intros Hn i Hi; [lia|].
  rewrite drain_schedule_S, run_workers_app.
  pose proof (run_workers_ok env mc mp (drain_schedule n) s) as H1.
  specialize (IH ltac:(lia)).
  destruct (run_workers env mc mp (drain_schedule n) s) as [ended1 s1].
  pose proof (run_workers_ok env mc mp [Start n; Finish n] s1) as H2.
  pose proof (start_finish_done env mc mp n s1) as Hn_done.
  destruct (run_workers env mc mp [Start n; Finish n] s1) as [ended2 s2].
  simpl in *.
  destruct (decide (i = n)) as [->|Hne].
  - apply Hn_done. rewrite (futures_length _ _ _ H1). lia.
  - destruct (IH i ltac:(lia)) as (f & Hf & Hd).
    exists f. split; [|exact Hd]. eapply (ro_mono _ _ _ H2); eassumption.
Qed.

(** Once every task was run to its end, every future is done. *)
Lemma drain_all_done env mc mp s :
  Forall (fun f => Future.done f = true)
    (UploadJob.futures (JobState.job (drain env mc mp s))).
Proof.
  apply Forall_lookup_2. intros i f Hf. unfold drain in *.
  pose proof (run_workers_ok env mc mp
    (drain_schedule (length (UploadJob.futures (JobState.job s)))) s) as Hok.
  pose proof (drain_prefix_done env mc mp
    (length (UploadJob.futures (JobState.job s))) s (le_n _) i) as Hdone.
  destruct (run_workers env mc mp _ s) as [ended s']. simpl in *.
  destruct Hdone as (f' & Hf' & Hd').
  - rewrite <- (futures_length _ _ _ Hok). eapply lookup_lt_Some, Hf.
  - congruence.
Qed.

(** ** Finalisation *)

Lemma executor_shutdown_run env mc mp s ex :
  UploadJob.executor (JobState.job s) = Some ex ->
  executor_shutdown env mc mp s = (Ok tt, after_shutdown env mc mp s).
Proof.
  intros H. unfold after_shutdown. rewrite H.
  unfold executor_shutdown. rewrite bind_get_job, H. reflexivity.
Qed.

(** Shutting the pool down lets the workers do what workers do, and
    touches nothing of the job but the futures, the counter and the
    pool. *)
Lemma after_shutdown_ok env mc mp s :
  grows worker_event (JobState.world s)
    (JobState.world (after_shutdown env mc mp s))
  /\ UploadJob.tmp_dir (JobState.job (after_shutdown env mc mp s))
     = UploadJob.tmp_dir (JobState.job s)
  /\ UploadJob.transaction_id (JobState.job (after_shutdown env mc mp s))
     = UploadJob.transaction_id (JobState.job s)
  /\ (is_Some (UploadJob.executor (JobState.job (after_shutdown env mc mp s)))
      <-> is_Some (UploadJob.executor (JobState.job s))).
Proof.
  unfold after_shutdown.
  destruct (UploadJob.executor (JobState.job s)) as [ex|] eqn:Hex.
  - unfold executor_shutdown. rewrite bind_get_job, Hex. simpl.
    unfold drain.
    pose proof (run_workers_ok env mc mp
      (drain_schedule (length (UploadJob.futures (JobState.job s)))) s) as H.
    destruct (run_workers env mc mp _ s) as [ended s']. simpl.
    destruct (ro_frame _ _ _ H) as (_ & _ & Htid & _ & _ & Htmp & _).
    repeat split; try assumption; try (exact (ro_world _ _ _ H)); eauto.
  - rewrite Hex. repeat split; try apply grows_refl; auto.
Qed.

(** After the shutdown every future is done, so that the loop over
    [future.exception()] waits for nothing. *)
Lemma after_shutdown_all_done env mc mp s ex :
  UploadJob.executor (JobState.job s) = Some ex ->
  Forall (fun f => Future.done f = true)
    (UploadJob.futures (JobState.job (after_shutdown env mc mp s))).
Proof.
  intros Hex. unfold after_shutdown. rewrite Hex.
  unfold executor_shutdown. rewrite bind_get_job, Hex. simpl.
  apply drain_all_done.
Qed.

Lemma raise_worker_exception_none futures w :
  Forall (fun f => Future.exception f = None) futures ->
  raise_worker_exception futures w = (Ok tt, w).
Proof.
  induction 1 as [|f futures Hf _ IH]; simpl; [reflexivity|].
  rewrite Hf. exact IH.
Qed.

(** With no exception of a worker pending, finalisation reaches the
    comparison of the sizes in the state the shutdown left. *)
Lemma await_workers_run env mc mp s :
  no_worker_exception (JobState.job (after_shutdown env mc mp s)) ->
  (if bool_decide (is_Some (UploadJob.executor (JobState.job s)))
   then await_workers env mc mp else ret tt) s
  = (Ok tt, after_shutdown env mc mp s).
Proof.
  intros Hnone.
  destruct (UploadJob.executor (JobState.job s)) as [ex|] eqn:Hex.
  - rewrite bool_decide_eq_true_2 by eauto.
    unfold await_workers.
    rewrite (bind_ok _ _ _ _ _ (executor_shutdown_run env mc mp s ex Hex)).
    rewrite bind_get_job. unfold on_world.
    rewrite (raise_worker_exception_none _ _ Hnone).
    destruct (after_shutdown env mc mp s); reflexivity.
  - rewrite bool_decide_eq_false_2 by (intros [? ?]; discriminate).
    unfold after_shutdown. rewrite Hex. reflexivity.
Qed.

Lemma grows_not_finish w w' :
  grows worker_event w w' ->
  exists evs, World.trace w' = World.trace w ++ evs
              /\ Forall (fun e => is_finish_request e = false) evs.
Proof.
  intros (evs & -> & H). exists evs. split; [reflexivity|].
  eapply Forall_impl; [exact H|]. apply worker_event_not_finish.
Qed.

(** C2. When push_project_finalize finds, once the pool is shut down and
    no exception of a worker is pending, that transferred_size differs
    from total_size, it raises the ClientError of the size check
    (Upload error: Transferred size ... do not match!), and it has sent no
    finish request by then, whether or not the job has a transaction or a
    pool. *)
Theorem finalize_size_mismatch env mc mp (s : JobState.t) :
  let s1 := after_shutdown env mc mp s in
  no_worker_exception (JobState.job s1) ->
  UploadJob.transferred_size (JobState.job s1)
    <> UploadJob.total_size (JobState.job s1) ->
  exists s',
    push_project_finalize env mc mp s
    = (Raise (ClientError ("Upload error: " +:+ size_error_msg (JobState.job s1))),
       s')
    /\ JobState.job s' = JobState.job s1
    /\ exists evs,
         World.trace (JobState.world s')
         = World.trace (JobState.world s) ++ evs
         /\ Forall (fun e => is_finish_request e = false) evs.
Proof.
  intros s1 Hnone Hsize.
  unfold push_project_finalize. rewrite bind_get_job.
  rewrite (bind_ok _ _ _ _ _ (await_workers_run env mc mp s Hnone)).
  fold s1. unfold check_sizes at 1.
  assert (Hne : negb (UploadJob.transferred_size (JobState.job s1)
                      =? UploadJob.total_size (JobState.job s1)) = true).
  { apply negb_true_iff, Z.eqb_neq, Hsize. }
  eexists. split; [|split].
  - unfold bind at 1. rewrite bind_get_job, Hne, bind_on_world_log.
    unfold raise. reflexivity.
  - reflexivity.
  - simpl. destruct (after_shutdown_ok env mc mp s) as (Hw & _).
    destruct (grows_not_finish _ _ Hw) as (evs & Hevs & Hall).
    fold s1 in Hevs. exists (evs ++ [Log "error" ("--- push finish failed! "
                               +:+ size_error_msg (JobState.job s1))]).
    rewrite Hevs, app_assoc. split; [reflexivity|].
    apply Forall_app. split; [exact Hall|]. repeat constructor.
Qed.

(** An instance: the only task is over and nothing was transferred. *)
Lemma finalize_size_mismatch_witness :
  exists s',
    push_project_finalize Demo.env (Demo.mc (inr (true, 0)) Demo.good_service)
      (Demo.mp ∅) (Demo.state 0 [Future.mk Demo.item (FINISHED None)])
    = (Raise (ClientError
         "Upload error: Transferred size (0) and expected total size (3) do not match!"),
       s')
    /\ posted_urls (World.trace (JobState.world s')) = [].
Proof.
  destruct (finalize_size_mismatch Demo.env
              (Demo.mc (inr (true, 0)) Demo.good_service) (Demo.mp ∅)
              (Demo.state 0 [Future.mk Demo.item (FINISHED None)]))
    as (s' & Hrun & _ & _).
  - repeat constructor.
  - vm_compute. discriminate.
  - exists s'. split; [exact Hrun|].
    apply (f_equal snd) in Hrun. simpl in Hrun. subst s'. reflexivity.
Defined.

(** C7. When the finish request of push_project_finalize fails, finalize
    logs the failure, asks the service to cancel the transaction, logs the
    answer to that request or its failure without raising it, and raises
    the error of the finish request. *)
Theorem finalize_finish_failure env mc mp (s : JobState.t) ex err :
  UploadJob.executor (JobState.job s) = Some ex ->
  let s1 := after_shutdown env mc mp s in
  let transaction_id := UploadJob.transaction_id (JobState.job s1) in
  let finishing :=
    Log "info" ("Finishing transaction "
                  +:+ py_str (Env.repr env) transaction_id) in
  let finish_request := Request.mk (finish_url env transaction_id) NoData [] in
  let cancel_request := Request.mk (cancel_url env transaction_id) NoData [] in
  no_worker_exception (JobState.job s1) ->
  UploadJob.transferred_size (JobState.job s1)
    = UploadJob.total_size (JobState.job s1) ->
  MerginClient.post mc (World.trace (JobState.world s1) ++ [finishing])
    finish_request = Failure err ->
  exists s' cancel_response,
    push_project_finalize env mc mp s = (Raise (ClientError err), s')
    /\ World.trace (JobState.world s')
       = World.trace (JobState.world s1)
         ++ [finishing; Post finish_request;
             Log "error" ("--- push finish failed! " +:+ err);
             Log "info" "canceling the pending transaction...";
             Post cancel_request;
             Log "info" ("cancel response: " +:+ cancel_response)]
    /\ JobState.job s' = JobState.job s1.
Proof.
  intros Hex s1 transaction_id finishing finish_request cancel_request
    Hnone Hsize Hfail.
  unfold push_project_finalize. rewrite bind_get_job.
  rewrite (bind_ok _ _ _ _ _ (await_workers_run env mc mp s Hnone)).
  fold s1.
  assert (Hcheck : check_sizes s1 = (Ok tt, s1)).
  { unfold check_sizes. rewrite bind_get_job.
    replace (UploadJob.transferred_size (JobState.job s1)
             =? UploadJob.total_size (JobState.job s1)) with true
      by (symmetry; apply Z.eqb_eq, Hsize).
    reflexivity. }
  rewrite (bind_ok _ _ _ _ _ Hcheck).
  rewrite Hex, bool_decide_eq_true_2 by eauto.
  set (w1 := JobState.world s1).
  set (w2 := World.emit (Post finish_request) (World.emit finishing w1)).
  set (w3 := World.emit (Post cancel_request)
               (World.emit (Log "info" "canceling the pending transaction...")
                  (World.emit (Log "error" ("--- push finish failed! " +:+ err))
                     w2))).
  set (answer := MerginClient.post mc
                   (World.trace w2
                    ++ [Log "error" ("--- push finish failed! " +:+ err);
                        Log "info" "canceling the pending transaction..."])
                   cancel_request).
  set (cancel_response :=
         match answer with
         | Answer resp => Response.msg resp
         | Failure err2 => err2
         end).
  assert (Hfinish :
    finish_transaction env mc s1
    = (Raise (ClientError err),
       JobState.mk (JobState.job s1)
         (World.emit (Log "info" ("cancel response: " +:+ cancel_response)) w3))).
  { unfold finish_transaction. rewrite bind_get_job.
    unfold try_except_ClientError at 1.
    rewrite bind_on_world_log, bind_on_world_post.
    simpl JobState.world. rewrite trace_emit.
    change (MerginClient.post mc (World.trace (JobState.world s1) ++ [finishing])
              finish_request)
      with (MerginClient.post mc
              (World.trace (JobState.world s1)
               ++ [Log "info" ("Finishing transaction "
                                 +:+ py_str (Env.repr env)
                                       (UploadJob.transaction_id (JobState.job s1)))])
              (Request.mk
                 (finish_url env (UploadJob.transaction_id (JobState.job s1)))
                 NoData [])) in Hfail.
    rewrite Hfail.
    rewrite !bind_on_world_log.
    unfold bind at 1. unfold try_except_ClientError.
    rewrite bind_on_world_post. simpl JobState.world. simpl JobState.job.
    rewrite !trace_emit, <- !app_assoc. simpl app.
    unfold cancel_response, answer, w3, w2, w1, cancel_request, finish_request,
      finishing, transaction_id.
    rewrite !trace_emit, <- !app_assoc. simpl app.
    match goal with
    | |- context [MerginClient.post mc ?t ?r] =>
        destruct (MerginClient.post mc t r)
    end; reflexivity. }
  exists (JobState.mk (JobState.job s1)
            (World.emit (Log "info" ("cancel response: " +:+ cancel_response)) w3)),
    cancel_response.
  split; [|split].
  - rewrite (bind_fail _ _ _ _ _ Hfinish). reflexivity.
  - unfold w3, w2. simpl. rewrite <- !app_assoc. reflexivity.
  - reflexivity.
Qed.

(** An instance: all 3 bytes were transferred and the service is down. *)
Lemma finalize_finish_failure_witness :
  exists s',
    push_project_finalize Demo.env (Demo.mc (inr (true, 0)) Demo.down_service)
      (Demo.mp ∅) (Demo.state 3 [Future.mk Demo.item (FINISHED None)])
    = (Raise (ClientError "503 Service Unavailable"), s')
    /\ posted_urls (World.trace (JobState.world s'))
       = ["/v1/project/push/finish/t-1"; "/v1/project/push/cancel/t-1"].
Proof.
  destruct (finalize_finish_failure Demo.env
              (Demo.mc (inr (true, 0)) Demo.down_service) (Demo.mp ∅)
              (Demo.state 3 [Future.mk Demo.item (FINISHED None)])
              (ThreadPoolExecutor.mk 4 false) "503 Service Unavailable")
    as (s' & answer & Hrun & Htrace & _).
  - reflexivity.
  - repeat constructor.
  - reflexivity.
  - reflexivity.
  - exists s'. split; [exact Hrun|]. rewrite Htrace. reflexivity.
Defined.

(** ** Starting a push *)







Lemma pf_weaken {A} (m : M World.t A) (Q R : A -> Prop) :
  post_free m Q -> (forall a, Q a -> R a) -> post_free m R.
Proof.
  intros Hm HQR w. destruct (Hm w) as [Hw Ha]. split; [exact Hw|].
  destruct (m w).1; [apply HQR, Ha|exact I].
Qed.















Lemma bind_get_metadata {B} (k : Metadata.t -> M World.t B) w :
  (x <- get_metadata ;; k x) w = k (World.metadata w) w.
Proof. reflexivity. Qed.

Lemma bind_tmp {B} env prefix (k : string -> M World.t B) w :
  (x <- TemporaryDirectory env prefix ;; k x) w
  = k (Env.mkdtemp env prefix (World.tmp_dirs w))
      (World.set_tmp_dirs
         ({[Env.mkdtemp env prefix (World.tmp_dirs w)]} ∪ World.tmp_dirs w) w).
Proof. reflexivity. Qed.

Lemma holding_fst tmp_dir body w :
  (holding_tmp_dir tmp_dir body w).1 = (body w).1.
Proof.
  unfold holding_tmp_dir. destruct (body w) as [[[job|]|e] w']; reflexivity.
Qed.

Lemma trace_set_tmp_dirs d w : World.trace (World.set_tmp_dirs d w) = World.trace w.
Proof. reflexivity. Qed.






(** ** Cancellation and the temporary directory *)

Lemma kt_ret {A} (a : A) : keeps_tmp (ret a).
Proof. intros s. split; reflexivity. Qed.










(** ** The job a push starts *)

Lemma rt_any {A} (m : M World.t A) : returns m (fun _ => True).
Proof. intros w. destruct (m w).1; exact I. Qed.

Lemma rt_ret {A} (a : A) (Q : A -> Prop) : Q a -> returns (ret a) Q.
Proof. intros H w. exact H. Qed.

Lemma rt_bind {A B} (m : M World.t A) (k : A -> M World.t B) Q R :
  returns m Q -> (forall a, Q a -> returns (k a) R) ->
  returns (x <- m ;; k x) R.
Proof.
  intros Hm Hk w. unfold bind. specialize (Hm w).
  destruct (m w) as [[a|e] w1]; simpl in *; [|exact I].
  exact (Hk a Hm w1).
Qed.

Lemma rt_getitem changes key :
  returns (getitem changes key) (fun files => changes !! key = Some files).
Proof. intros w. unfold getitem. destruct (changes !! key); simpl; auto. Qed.

Lemma rt_holding tmp_dir body (Q : option UploadJob.t -> Prop) :
  returns body Q -> returns (holding_tmp_dir tmp_dir body) Q.
Proof. intros Hbody w. rewrite holding_fst. apply Hbody. Qed.

Lemma push_project_async_planned env mc mp :
  returns (push_project_async env mc mp)
    (fun r => match r with Some job => planned mp job | None => True end).
Proof.
  unfold push_project_async.
  do 10 (eapply rt_bind; [apply rt_any|intros ? _]).
  apply rt_holding.
  do 5 (eapply rt_bind; [apply rt_any|intros ? _]).
  destruct (bool_decide (count_changes _ = 0%nat)).
  { eapply rt_bind; [apply rt_any|intros ? _]. apply rt_ret. exact I. }
  eapply rt_bind; [apply rt_getitem|intros updated1 _].
  eapply rt_bind; [apply rt_any|intros resp _].
  eapply rt_bind; [apply rt_any|intros server_resp _].
  eapply rt_bind; [apply rt_getitem|intros added2 Hadded].
  eapply rt_bind; [apply rt_getitem|intros updated2 Hupdated].
  eapply rt_bind; [apply rt_any|intros transaction_id _].
  destruct (bool_decide (added2 ++ updated2 = [])).
  { do 2 (eapply rt_bind; [apply rt_any|intros ? _]). apply rt_ret. exact I. }
  eapply rt_bind; [apply rt_any|intros ? _].
  destruct (plan_upload mp transaction_id (added2 ++ updated2))
    as [upload_queue_items total_size] eqn:Hplan.
  eapply rt_bind; [apply rt_any|intros ? _].
  apply rt_ret. unfold planned. simpl.
  unfold upload_files_of. rewrite Hadded, Hupdated. simpl. rewrite Hplan.
  repeat split.
Qed.

(** ** The plan of a started job *)

(** C1. When every file to upload carries exactly
    ceil(file_size / UPLOAD_CHUNK_SIZE) chunk identifiers, the planning
    loop of push_project_async yields queue items whose sizes sum to the
    total size it computes, no item is larger than UPLOAD_CHUNK_SIZE, the
    items are the per-file items in file order, and the last item of each
    file has size file_size mod UPLOAD_CHUNK_SIZE, or UPLOAD_CHUNK_SIZE
    when that is zero; a job that push_project_async returns for these
    files holds these items and this total as its upload_queue_items and
    total_size. *)
Theorem plan_upload_sizes mp tid (upload_files : list FileEntry.t) :
  Forall (well_chunked mp) upload_files ->
  let '(upload_queue_items, total_size) := plan_upload mp tid upload_files in
  sum_sizes upload_queue_items = total_size
  /\ Forall (fun it => UploadQueueItem.size it <= UPLOAD_CHUNK_SIZE)
       upload_queue_items
  /\ upload_queue_items = concat (file_items mp tid <$> upload_files)
  /\ (forall file it,
        file ∈ upload_files ->
        last (file_items mp tid file) = Some it ->
        UploadQueueItem.size it
        = if file_size mp file mod UPLOAD_CHUNK_SIZE =? 0
          then UPLOAD_CHUNK_SIZE
          else file_size mp file mod UPLOAD_CHUNK_SIZE)
  /\ (forall env mc w0 w1 job,
        push_project_async env mc mp w0 = (Ok (Some job), w1) ->
        UploadJob.transaction_id job = tid ->
        upload_files_of (UploadJob.changes job) = upload_files ->
        UploadJob.upload_queue_items job = upload_queue_items
        /\ UploadJob.total_size job = total_size).
Proof.
  intros Hwf.
  destruct (plan_upload mp tid upload_files) as [items total] eqn:Hplan.
  rewrite plan_upload_spec in Hplan. injection Hplan as <- <-.
  destruct (plan_sum mp tid upload_files Hwf) as [Hs Hb].
  split; [exact Hs|]. split; [|split; [reflexivity|split]].
  - eapply Forall_impl; [exact Hb|]. simpl. intros it H. lia.
  - intros file it Hin Hlast.
    rewrite Forall_forall in Hwf.
    destruct (file_items_well_chunked mp tid file (Hwf _ Hin)) as (_ & _ & Hl).
    exact (Hl it Hlast).
  - intros env mc w0 w1 job Hrun <- <-.
    pose proof (push_project_async_planned env mc mp w0) as Hplanned.
    rewrite Hrun in Hplanned. simpl in Hplanned.
    destruct Hplanned as (_ & _ & Hitems & Htotal & _).
    rewrite plan_upload_spec in Hitems, Htotal. split; assumption.
Qed.

(** An instance: a note of 3 bytes in one chunk and a diff of two full
    chunks and 5 bytes in three. *)
Lemma plan_upload_sizes_witness :
  Forall (well_chunked (Demo.mp (Demo.changes_of [Demo.notes] [Demo.survey] [] [])))
    [Demo.notes; Demo.survey]
  /\ sizes (plan_upload (Demo.mp (Demo.changes_of [Demo.notes] [Demo.survey] [] []))
              (JStr "t-1") [Demo.notes; Demo.survey]).1
     = [3; UPLOAD_CHUNK_SIZE; UPLOAD_CHUNK_SIZE; 5]
  /\ (let '(upload_queue_items, total_size) :=
        plan_upload (Demo.mp (Demo.changes_of [Demo.notes] [Demo.survey] [] []))
          (JStr "t-1") [Demo.notes; Demo.survey] in
      sum_sizes upload_queue_items = total_size
      /\ Forall (fun it => UploadQueueItem.size it <= UPLOAD_CHUNK_SIZE)
           upload_queue_items
      /\ upload_queue_items
         = concat (file_items
                     (Demo.mp (Demo.changes_of [Demo.notes] [Demo.survey] [] []))
                     (JStr "t-1") <$> [Demo.notes; Demo.survey])
      /\ (forall file it,
            file ∈ [Demo.notes; Demo.survey] ->
            last (file_items
                    (Demo.mp (Demo.changes_of [Demo.notes] [Demo.survey] [] []))
                    (JStr "t-1") file) = Some it ->
            UploadQueueItem.size it
            = if file_size
                   (Demo.mp (Demo.changes_of [Demo.notes] [Demo.survey] [] []))
                   file mod UPLOAD_CHUNK_SIZE =? 0
              then UPLOAD_CHUNK_SIZE
              else file_size
                     (Demo.mp (Demo.changes_of [Demo.notes] [Demo.survey] [] []))
                     file mod UPLOAD_CHUNK_SIZE)
      /\ (forall env mc w0 w1 job,
            push_project_async env mc
              (Demo.mp (Demo.changes_of [Demo.notes] [Demo.survey] [] [])) w0
            = (Ok (Some job), w1) ->
            UploadJob.transaction_id job = JStr "t-1" ->
            upload_files_of (UploadJob.changes job) = [Demo.notes; Demo.survey] ->
            UploadJob.upload_queue_items job = upload_queue_items
            /\ UploadJob.total_size job = total_size)).
Proof.
  assert (H : Forall (well_chunked
                        (Demo.mp (Demo.changes_of [Demo.notes] [Demo.survey] [] [])))
                [Demo.notes; Demo.survey]).
  { repeat constructor; vm_compute; discriminate. }
  split; [exact H|]. split; [reflexivity|].
  exact (plan_upload_sizes
           (Demo.mp (Demo.changes_of [Demo.notes] [Demo.survey] [] []))
           (JStr "t-1") [Demo.notes; Demo.survey] H).
Defined.

(** ** The transferred size *)











(** ** The increments of the counter, statement by statement *)












Lemma items_of_pending items w job :
  UploadJob.futures job = (fun item => Future.mk item PENDING) <$> items ->
  items_of (JobState.mk job w) = items.
Proof.
  intros H. unfold items_of. simpl. rewrite H, <- list_fmap_compose.
  apply list_fmap_id.
Qed.







(** * Further properties *)

(** ** Reading a file by chunks *)

Lemma read_nonpositive l n : n <= 0 -> read l n = [].
Proof.
  intros H. destruct l as [|b l]; simpl; [reflexivity|].
  destruct (n <=? 0) eqn:E; [reflexivity|]. apply Z.leb_gt in E. lia.
Qed.

Lemma seek_nonpositive l a : a <= 0 -> seek l a = l.
Proof.
  intros H. destruct l as [|b l]; simpl; [reflexivity|].
  destruct (a <=? 0) eqn:E; [reflexivity|]. apply Z.leb_gt in E. lia.
Qed.

Lemma read_cons b l n : 0 < n -> read (b :: l) n = b :: read l (n - 1).
Proof.
  intros H. simpl. destruct (n <=? 0) eqn:E; [|reflexivity].
  apply Z.leb_le in E. lia.
Qed.

Lemma seek_cons b l a : 0 < a -> seek (b :: l) a = seek l (a - 1).
Proof.
  intros H. simpl. destruct (a <=? 0) eqn:E; [|reflexivity].
  apply Z.leb_le in E. lia.
Qed.

(** Reading [a + b] bytes is reading [a] bytes and then [b] more from
    where the first read stopped. *)
Lemma read_add l : forall a b,
  0 <= a -> 0 <= b -> read l (a + b) = read l a ++ read (seek l a) b.
Proof.
  induction l as [|x l IH]; intros a b Ha Hb; [reflexivity|].
  destruct (Z.eq_dec a 0) as [->|Hne].
  - rewrite (read_nonpositive _ 0), (seek_nonpositive _ 0) by lia. reflexivity.
  - rewrite (read_cons x l (a + b)), (read_cons x l a), seek_cons by lia.
    replace (a + b - 1) with ((a - 1) + b) by lia.
    rewrite IH by lia. reflexivity.
Qed.

Lemma read_all l : forall n, len l <= n -> read l n = l.
Proof.
  unfold len. induction l as [|x l IH]; intros n H; [reflexivity|].
  simpl length in H. rewrite Nat2Z.inj_succ in H.
  rewrite read_cons by lia. rewrite IH by lia. reflexivity.
Qed.

Lemma len_read l : forall n, 0 <= n -> len (read l n) = Z.min n (len l).
Proof.
  unfold len. induction l as [|x l IH]; intros n H.
  - simpl. lia.
  - destruct (Z.eq_dec n 0) as [->|Hne].
    + rewrite read_nonpositive by lia. simpl length. lia.
    + rewrite read_cons by lia. simpl length. rewrite !Nat2Z.inj_succ.
      rewrite IH by lia. lia.
Qed.

Lemma len_seek l : forall a, 0 <= a -> len (seek l a) = Z.max 0 (len l - a).
Proof.
  unfold len. induction l as [|x l IH]; intros a H.
  - simpl. lia.
  - destruct (Z.eq_dec a 0) as [->|Hne].
    + rewrite seek_nonpositive by lia. lia.
    + rewrite seek_cons by lia. simpl length. rewrite Nat2Z.inj_succ.
      rewrite IH by lia. lia.
Qed.

Lemma chunk_data_prefix content n :
  concat (chunk_data content <$> (Z.of_nat <$> seq 0 n))
  = read content (Z.of_nat n * UPLOAD_CHUNK_SIZE).
Proof.
  pose proof UPLOAD_CHUNK_SIZE_pos as HU.
  induction n as [|n IH].
  - simpl. rewrite read_nonpositive by lia. reflexivity.
  - rewrite seq_S, !fmap_app, concat_app, IH. simpl.
    rewrite app_nil_r. unfold chunk_data.
    rewrite <- read_add by nia. f_equal. lia.
Qed.

(** X1. The chunks that the upload tasks of a file read, taken in the
    order of their index, put the content of the file together again:
    nothing is read twice and nothing is left out. *)
Theorem chunk_data_reassemble (content : list Byte.byte) :
  concat (chunk_data content
            <$> (Z.of_nat
                   <$> seq 0 (Z.to_nat (ceil_div (len content) UPLOAD_CHUNK_SIZE))))
  = content.
Proof.
  rewrite chunk_data_prefix. apply read_all.
  assert (Hlen : 0 <= len content) by (unfold len; lia).
  destruct (ceil_div_bounds (len content) Hlen) as (_ & Hhi & _).
  assert (0 <= ceil_div (len content) UPLOAD_CHUNK_SIZE).
  { pose proof UPLOAD_CHUNK_SIZE_pos. unfold ceil_div.
    assert ((- len content) / UPLOAD_CHUNK_SIZE <= 0); [|lia].
    apply Z.div_le_upper_bound; lia. }
  rewrite Z2Nat.id by assumption. exact Hhi.
Qed.

(** ** The tasks of a plan *)

Lemma chunk_items_lookup loc fsz tid chunks : forall i0 k,
  chunk_items loc fsz tid i0 chunks !! k
  = (fun chunk_id =>
       UploadQueueItem.mk loc
         (Z.min UPLOAD_CHUNK_SIZE (fsz - (i0 + Z.of_nat k) * UPLOAD_CHUNK_SIZE))
         tid chunk_id (i0 + Z.of_nat k)) <$> chunks !! k.
Proof.
  induction chunks as [|c chunks IH]; intros i0 k; [reflexivity|].
  destruct k as [|k].
  - simpl. rewrite Z.add_0_r. reflexivity.
  - simpl chunk_items. rewrite !lookup_cons. simpl. rewrite IH.
    replace (i0 + 1 + Z.of_nat k) with (i0 + Z.pos (Pos.of_succ_nat k)) by lia.
    reflexivity.
Qed.

Lemma chunk_items_ids loc fsz tid chunks : forall i0,
  UploadQueueItem.chunk_id <$> chunk_items loc fsz tid i0 chunks = chunks
  /\ UploadQueueItem.chunk_index <$> chunk_items loc fsz tid i0 chunks
     = (fun k => i0 + Z.of_nat k) <$> seq 0 (length chunks)
  /\ Forall (fun it => UploadQueueItem.transaction_id it = tid
                       /\ UploadQueueItem.file_path it = loc)
       (chunk_items loc fsz tid i0 chunks).
Proof.
  induction chunks as [|c chunks IH]; intros i0;
    [repeat split; constructor|].
  destruct (IH (i0 + 1)) as (Hid & Hix & Hall). simpl chunk_items.
  rewrite !fmap_cons. simpl. split; [rewrite Hid; reflexivity|]. split.
  - rewrite Hix, Z.add_0_r. f_equal.
    rewrite <- seq_shift, <- list_fmap_compose. apply list_fmap_ext.
    intros k. simpl. lia.
  - constructor; [split; reflexivity|exact Hall].
Qed.

(** X2. The planning loop makes one task per chunk identifier: the
    identifiers of the tasks are those of the files, file after file and
    in the order each file lists them; the tasks of a file carry the
    indices 0, 1, 2, ... and the location chosen for the file; and every
    task carries the transaction of the job. *)
Theorem plan_upload_tasks mp tid (upload_files : list FileEntry.t) :
  let items := (plan_upload mp tid upload_files).1 in
  items = concat (file_items mp tid <$> upload_files)
  /\ UploadQueueItem.chunk_id <$> items
     = concat (FileEntry.chunks <$> upload_files)
  /\ Forall (fun it => UploadQueueItem.transaction_id it = tid) items
  /\ (forall file,
        UploadQueueItem.chunk_index <$> file_items mp tid file
        = Z.of_nat <$> seq 0 (length (FileEntry.chunks file))
        /\ Forall (fun it => UploadQueueItem.file_path it = (file_source mp file).1)
             (file_items mp tid file)).
Proof.
  rewrite plan_upload_spec. simpl.
  assert (Hfile : forall file,
    UploadQueueItem.chunk_id <$> file_items mp tid file = FileEntry.chunks file
    /\ UploadQueueItem.chunk_index <$> file_items mp tid file
       = Z.of_nat <$> seq 0 (length (FileEntry.chunks file))
    /\ Forall (fun it => UploadQueueItem.transaction_id it = tid
                         /\ UploadQueueItem.file_path it = (file_source mp file).1)
         (file_items mp tid file)).
  { intros file. unfold file_items.
    destruct (file_source mp file) as [loc fsz]. simpl.
    destruct (chunk_items_ids loc fsz tid (FileEntry.chunks file) 0)
      as (Hid & Hix & Hall).
    split; [exact Hid|]. split; [|exact Hall].
    rewrite Hix. apply list_fmap_ext. intros k. simpl. lia. }
  split; [reflexivity|]. split; [|split].
  - induction upload_files as [|f files IH]; [reflexivity|].
    rewrite !fmap_cons. simpl concat. rewrite fmap_app, IH.
    rewrite (proj1 (Hfile f)). reflexivity.
  - induction upload_files as [|f files IH]; [constructor|].
    rewrite fmap_cons. simpl concat. apply Forall_app. split; [|exact IH].
    eapply Forall_impl; [exact (proj2 (proj2 (Hfile f)))|].
    simpl. intros it H. exact (proj1 H).
  - intros file. destruct (Hfile file) as (_ & Hix & Hall).
    split; [exact Hix|].
    eapply Forall_impl; [exact Hall|]. simpl. intros it H. exact (proj2 H).
Qed.

(** X3. A task planned for a file reads exactly as many bytes as its
    size says, when the file has the length the change set records for it
    and the number of chunk identifiers that goes with that length: what
    the counter of the job adds for the task is what was sent. *)
Theorem task_reads_its_size mp tid file content it :
  well_chunked mp file ->
  len content = file_size mp file ->
  it ∈ file_items mp tid file ->
  len (chunk_data content (UploadQueueItem.chunk_index it))
  = UploadQueueItem.size it.
Proof.
  intros [Hpos Hlen] Hcontent Hin.
  pose proof UPLOAD_CHUNK_SIZE_pos as HU.
  apply list_elem_of_lookup in Hin as [k Hk].
  unfold file_items, file_size in *.
  destruct (file_source mp file) as [loc fsz]. simpl in *.
  rewrite chunk_items_lookup in Hk.
  destruct (FileEntry.chunks file !! k) as [cid|] eqn:Hcid; [|discriminate Hk].
  injection Hk as <-. simpl.
  apply lookup_lt_Some in Hcid.
  destruct (ceil_div_bounds fsz Hpos) as (Hlo & _ & Hz).
  assert (Hk_lt : Z.of_nat k * UPLOAD_CHUNK_SIZE < fsz).
  { destruct (fsz =? 0) eqn:E0.
    - apply Z.eqb_eq in E0. rewrite (Hz E0) in Hlen. lia.
    - simpl in Hlo. nia. }
  unfold chunk_data. rewrite len_read, len_seek by lia. lia.
Qed.

(** An instance: the note of 3 bytes and its only task. *)
Lemma task_reads_its_size_witness :
  len (chunk_data [Byte.x68; Byte.x69; Byte.x0a] 0) = 3.
Proof.
  apply (task_reads_its_size (Demo.mp ∅) (JStr "t-1") Demo.notes
           [Byte.x68; Byte.x69; Byte.x0a] Demo.item).
  - split; [vm_compute; discriminate|reflexivity].
  - reflexivity.
  - apply list_elem_of_here.
Defined.

(** ** What an upload task sends *)

(** X4. When the service acknowledges a chunk with the number of bytes
    sent and with their SHA-1, upload_blocking returns; it has written two
    lines to the log and sent the chunk, and nothing else: no request to
    cancel the transaction follows. *)
Theorem upload_blocking_acknowledged env self mc mp w content resp d size sum :
  Env.file_content env (UploadQueueItem.file_path self) = Some content ->
  0 <= UploadQueueItem.chunk_index self ->
  let data := chunk_data content (UploadQueueItem.chunk_index self) in
  let uploading :=
    Log "debug" ("Uploading " +:+ UploadQueueItem.file_path self +:+ " part="
                   +:+ str_int (UploadQueueItem.chunk_index self)) in
  let chunk_request :=
    Request.mk (chunk_url env self) (Bytes data)
      [("Content-Type", "application/octet-stream")] in
  MerginClient.post mc (World.trace w ++ [uploading]) chunk_request = Answer resp ->
  Response.body resp = Some (JDict d) ->
  assoc "size" d = Some size ->
  eq_int size (len data) = true ->
  assoc "checksum" d = Some sum ->
  eq_str sum (Env.sha1_hexdigest env data) = true ->
  upload_blocking env self mc mp w
  = (Ok tt,
     World.mk
       (World.trace w
        ++ [uploading; Post chunk_request;
            Log "debug" ("Upload finished: " +:+ UploadQueueItem.file_path self)])
       (World.metadata w) (World.tmp_dirs w)).
Proof.
  intros Hfile Hidx data uploading chunk_request Hpost Hbody Hsize Heq Hsum Hsha.
  pose proof UPLOAD_CHUNK_SIZE_pos as HU.
  assert (Hoff : (UploadQueueItem.chunk_index self * UPLOAD_CHUNK_SIZE <? 0) = false)
    by (apply Z.ltb_ge; nia).
  unfold upload_blocking. rewrite Hfile, Hoff.
  rewrite bind_log, bind_post, trace_emit.
  change (read (seek content (UploadQueueItem.chunk_index self * UPLOAD_CHUNK_SIZE))
            UPLOAD_CHUNK_SIZE) with data.
  fold uploading chunk_request. rewrite Hpost.
  unfold json_load. rewrite Hbody, bind_ret, bind_log.
  unfold subscript at 1. rewrite Hsize, bind_ret, Heq.
  unfold bind, subscript, ret. rewrite Hsum, Hsha.
  unfold World.emit. simpl. rewrite <- !app_assoc. reflexivity.
Qed.

(** An instance: the note of 3 bytes sent to a service that acknowledges
    what it gets. *)
Lemma upload_blocking_acknowledged_witness :
  (upload_blocking Demo.env Demo.item
     (Demo.mc (inr (true, 0)) Demo.good_service) (Demo.mp ∅) Demo.world).1
  = Ok tt
  /\ posted_urls
       (World.trace
          (upload_blocking Demo.env Demo.item
             (Demo.mc (inr (true, 0)) Demo.good_service) (Demo.mp ∅)
             Demo.world).2)
     = ["/v1/project/push/chunk/t-1/chunk-a"].
Proof.
  rewrite (upload_blocking_acknowledged Demo.env Demo.item
             (Demo.mc (inr (true, 0)) Demo.good_service) (Demo.mp ∅)
             Demo.world [Byte.x68; Byte.x69; Byte.x0a]
             (Response.mk "OK"
                (Some (JDict [("size", JInt 3); ("checksum", JStr "sha1-3")])))
             [("size", JInt 3); ("checksum", JStr "sha1-3")]
             (JInt 3) (JStr "sha1-3"));
    try reflexivity.
  split; reflexivity.
Defined.

(** The requests among the events of a task. *)
Lemma posted_urls_app a b : posted_urls (a ++ b) = posted_urls a ++ posted_urls b.
Proof. unfold posted_urls. apply omap_app. Qed.

(** X5. Whatever the file, the service and its answers, upload_blocking
    sends at most the chunk and, after it, one request to cancel the
    transaction, and touches neither the metadata of the project nor the
    temporary directories.  It returns only after the chunk was sent and
    without asking to cancel; when it asks to cancel, the error it raises
    is the chunk mismatch. *)
Theorem upload_blocking_requests env self mc mp w :
  exists evs,
    (upload_blocking env self mc mp w).2
    = World.mk (World.trace w ++ evs) (World.metadata w) (World.tmp_dirs w)
    /\ ((posted_urls evs = []
         /\ exists e, (upload_blocking env self mc mp w).1 = Raise e)
        \/ posted_urls evs = [chunk_url env self]
        \/ (posted_urls evs
            = [chunk_url env self;
               cancel_url env (UploadQueueItem.transaction_id self)]
            /\ (upload_blocking env self mc mp w).1
               = Raise (mismatch_error self)))
    /\ ((upload_blocking env self mc mp w).1 = Ok tt ->
        posted_urls evs = [chunk_url env self]).
Proof.
  pose (shape := fun r : result unit * World.t =>
    exists evs,
      r.2 = World.mk (World.trace w ++ evs) (World.metadata w) (World.tmp_dirs w)
      /\ ((posted_urls evs = [] /\ exists e, r.1 = Raise e)
          \/ posted_urls evs = [chunk_url env self]
          \/ (posted_urls evs
              = [chunk_url env self;
                 cancel_url env (UploadQueueItem.transaction_id self)]
              /\ r.1 = Raise (mismatch_error self)))
      /\ (r.1 = Ok tt -> posted_urls evs = [chunk_url env self])).
  change (shape (upload_blocking env self mc mp w)).
  assert (Hearly : forall e, shape (Raise e, w)).
  { intros e. exists []. rewrite app_nil_r. destruct w. simpl.
    split; [reflexivity|]. split; [left; eauto|discriminate]. }
  unfold upload_blocking.
  destruct (Env.file_content env _) as [content|]; [|apply Hearly].
  destruct (_ <? 0); [apply Hearly|].
  rewrite bind_log, bind_post.
  set (uploading := Log "debug" _).
  set (chunk_request := Request.mk (chunk_url env self) _ _).
  assert (Hsent : forall e,
    shape (Raise e, World.emit (Post chunk_request) (World.emit uploading w))).
  { intros e. exists [uploading; Post chunk_request].
    unfold World.emit. simpl. rewrite <- ?app_assoc.
    split; [reflexivity|]. split; [right; left; reflexivity|discriminate]. }
  destruct (MerginClient.post mc _ chunk_request) as [resp|detail];
    [|apply Hsent].
  unfold json_load.
  destruct (Response.body resp) as [resp_dict|]; [|rewrite bind_raise; apply Hsent].
  rewrite bind_ret, bind_log.
  set (finished := Log "debug" _).
  set (w3 := World.emit finished _).
  assert (Hraise : forall e, shape (Raise e, w3)).
  { intros e. exists [uploading; Post chunk_request; finished].
    unfold w3, World.emit. simpl. rewrite <- ?app_assoc.
    split; [reflexivity|]. split; [right; left; reflexivity|discriminate]. }
  assert (Hmismatch :
    shape ((try_except_ClientError
              (post mc (cancel_url env (UploadQueueItem.transaction_id self))
                 NoData [] ;; ret tt)
              (fun _ => ret tt) ;;
            raise (mismatch_error self)) w3)).
  { exists [uploading; Post chunk_request; finished;
            Post (Request.mk
                    (cancel_url env (UploadQueueItem.transaction_id self))
                    NoData [])].
    unfold bind, try_except_ClientError, post, raise, ret.
    destruct (MerginClient.post mc _ _); unfold w3, World.emit; simpl;
      rewrite <- ?app_assoc;
      (split; [reflexivity|]; split; [right; right; split; reflexivity|discriminate]). }
  unfold subscript at 1.
  destruct resp_dict as [| | | | |d]; try (rewrite bind_raise; apply Hraise).
  destruct (assoc "size" d) as [size|]; [|rewrite bind_raise; apply Hraise].
  rewrite bind_ret.
  destruct (eq_int size _).
  - unfold subscript.
    destruct (assoc "checksum" d) as [sum|]; [|apply Hraise].
    unfold bind at 1. unfold bind at 1. unfold ret at 1 2.
    destruct (eq_str sum _); [|apply Hmismatch].
    exists [uploading; Post chunk_request; finished].
    unfold w3, World.emit. simpl. rewrite <- ?app_assoc.
    split; [reflexivity|]. split; [right; left; reflexivity|reflexivity].
  - rewrite bind_ret. apply Hmismatch.
Qed.

(** ** Waiting for the pool *)

Lemma pool_step_all_done env mc mp a s :
  Forall (fun f => Future.done f = true) (UploadJob.futures (JobState.job s)) ->
  a <> SetCancelled ->
  pool_step env mc mp a s = (None, s).
Proof.
  intros Hdone Ha. destruct a as [i|i|]; [| |congruence]; simpl.
  - unfold worker_start.
    destruct (UploadJob.futures (JobState.job s) !! i) as [f|] eqn:Hi;
      [|reflexivity].
    pose proof (Forall_lookup_1 _ _ _ _ Hdone Hi) as Hf.
    unfold Future.done in Hf. destruct (Future.state f); try discriminate.
    reflexivity.
  - unfold worker_finish.
    destruct (UploadJob.futures (JobState.job s) !! i) as [f|] eqn:Hi;
      [|reflexivity].
    pose proof (Forall_lookup_1 _ _ _ _ Hdone Hi) as Hf.
    unfold Future.done in Hf. destruct (Future.state f); try discriminate.
    reflexivity.
Qed.

Lemma run_workers_all_done env mc mp schedule s :
  Forall (fun f => Future.done f = true) (UploadJob.futures (JobState.job s)) ->
  Forall (fun a => a <> SetCancelled) schedule ->
  run_workers env mc mp schedule s = ([], s).
Proof.
  intros Hdone Hs. induction Hs as [|a schedule Ha _ IH]; [reflexivity|].
  simpl. rewrite (pool_step_all_done env mc mp a s Hdone Ha), IH. reflexivity.
Qed.

Lemma drain_schedule_workers n :
  Forall (fun a => a <> SetCancelled) (drain_schedule n).
Proof.
  unfold drain_schedule. apply Forall_flat_map, Forall_forall.
  intros i _. repeat constructor; discriminate.
Qed.

Lemma is_running_loop_done futures w :
  Forall (fun f => Future.done f = true) futures ->
  (is_running_loop futures w).1 <> Ok true
  /\ (Forall (fun f => Future.exception f = None) futures ->
      (is_running_loop futures w).1 = Ok false).
Proof.
  induction 1 as [|f futures Hf _ IH]; simpl.
  - split; [discriminate|reflexivity].
  - rewrite Hf.
    assert (Hr : Future.running f = false).
    { unfold Future.done, Future.running in *.
      destruct (Future.state f); try discriminate. reflexivity. }
    destruct (Future.exception f) as [e|] eqn:He.
    + split; [discriminate|]. intros Hnone. inversion Hnone; congruence.
    + rewrite Hr. destruct IH as [IH1 IH2]. split; [exact IH1|].
      intros Hnone. apply IH2. inversion Hnone; assumption.
Qed.

(** X6. When push_project_wait returns, every task has ended: polling
    the job then never answers that it is running, it answers false
    exactly when no task ended with an exception, and waiting once more
    changes nothing. *)
Theorem push_project_wait_settles env mc mp (s : JobState.t) :
  let s' := (push_project_wait env mc mp s).2 in
  Forall (fun f => Future.done f = true) (UploadJob.futures (JobState.job s'))
  /\ (push_project_is_running s').1 <> Ok true
  /\ ((push_project_is_running s').1 = Ok false
      <-> no_worker_exception (JobState.job s'))
  /\ push_project_wait env mc mp s' = (Ok tt, s').
Proof.
  intros s'. unfold push_project_wait in s'. simpl in s'.
  pose proof (drain_all_done env mc mp s) as Hdone. fold s' in Hdone.
  assert (Hpoll : (push_project_is_running s').1
                  = (is_running_loop (UploadJob.futures (JobState.job s'))
                       (JobState.world s')).1).
  { unfold push_project_is_running. rewrite bind_get_job. unfold on_world.
    destruct (is_running_loop _ _). reflexivity. }
  destruct (is_running_loop_done _ (JobState.world s') Hdone) as [Hnot Hfalse].
  split; [exact Hdone|]. rewrite Hpoll. split; [exact Hnot|]. split.
  - split; [|exact Hfalse].
    intros H. apply is_running_loop_false in H.
    eapply Forall_impl; [exact H|]. intros f [_ Hf]. exact Hf.
  - unfold push_project_wait, drain.
    rewrite (run_workers_all_done env mc mp _ s' Hdone
               (drain_schedule_workers _)).
    reflexivity.
Qed.

(** ** A cancelled pool *)

Lemma cancelled_step env mc mp a s :
  UploadJob.is_cancelled (JobState.job s) = true ->
  UploadJob.is_cancelled (JobState.job (pool_step env mc mp a s).2) = true
  /\ (forall j, in_flight (pool_step env mc mp a s).2 j -> in_flight s j)
  /\ ((((pool_step env mc mp a s).1 = None
        \/ (pool_step env mc mp a s).1 = Some Skipped)
       /\ JobState.world (pool_step env mc mp a s).2 = JobState.world s
       /\ UploadJob.transferred_size (JobState.job (pool_step env mc mp a s).2)
          = UploadJob.transferred_size (JobState.job s))
      \/ in_flight s (action_index a)).
Proof.
  intros Hc. destruct a as [i|i|]; simpl.
  - unfold worker_start.
    destruct (UploadJob.futures (JobState.job s) !! i) as [f|] eqn:Hi;
      [|split; [exact Hc|split; [tauto|left; auto]]].
    destruct (Future.state f) eqn:Hst;
      try (split; [exact Hc|split; [tauto|left; auto]]).
    rewrite Hc. simpl. split; [exact Hc|]. split; [|left; auto].
    intros j (f' & Hj & Hr). unfold set_future_state in Hj. simpl in Hj.
    destruct (decide (j = i)) as [->|Hne].
    + rewrite list_lookup_alter_eq, Hi in Hj. simpl in Hj.
      injection Hj as <-. discriminate Hr.
    + rewrite list_lookup_alter_ne in Hj by congruence. exists f'. auto.
  - unfold worker_finish.
    destruct (UploadJob.futures (JobState.job s) !! i) as [f|] eqn:Hi;
      [|split; [exact Hc|split; [tauto|left; auto]]].
    destruct (Future.state f) eqn:Hst;
      try (split; [exact Hc|split; [tauto|left; auto]]).
    rewrite upload_and_account_run.
    assert (Hback : forall st j f',
      alter (fun f0 => Future.mk (Future.item f0) (FINISHED st)) i
        (UploadJob.futures (JobState.job s)) !! j = Some f' ->
      Future.running f' = true -> in_flight s j).
    { intros st j f' Hj Hr. destruct (decide (j = i)) as [->|Hne].
      - rewrite list_lookup_alter_eq, Hi in Hj. simpl in Hj.
        injection Hj as <-. discriminate Hr.
      - rewrite list_lookup_alter_ne in Hj by congruence. exists f'. auto. }
    assert (Hfl : in_flight s i).
    { exists f. split; [exact Hi|]. unfold Future.running. rewrite Hst.
      reflexivity. }
    destruct (upload_blocking env (Future.item f) mc mp (JobState.world s))
      as [[[]|e] w']; simpl;
      (split; [exact Hc|]; split; [|right; exact Hfl]);
      intros j (f' & Hj & Hr); unfold set_future_state in Hj; simpl in Hj;
      eapply Hback; eassumption.
  - split; [reflexivity|]. split; [tauto|left; auto].
Qed.

Lemma cancelled_run env mc mp schedule : forall s : JobState.t,
  UploadJob.is_cancelled (JobState.job s) = true ->
  UploadJob.is_cancelled
    (JobState.job (run_workers env mc mp schedule s).2) = true
  /\ (forall i o, (i, o) ∈ (run_workers env mc mp schedule s).1 ->
        o <> Skipped -> in_flight s i)
  /\ ((forall i, ~ in_flight s i) ->
      JobState.world (run_workers env mc mp schedule s).2 = JobState.world s
      /\ UploadJob.transferred_size
           (JobState.job (run_workers env mc mp schedule s).2)
         = UploadJob.transferred_size (JobState.job s)).
Proof.
  induction schedule as [|a schedule IH]; intros s Hc.
  - simpl. split; [exact Hc|]. split; [intros i o Hin; inversion Hin|auto].
  - simpl.
    destruct (cancelled_step env mc mp a s Hc) as (Hc1 & Hback & Hstep).
    destruct (pool_step env mc mp a s) as [o s1]. simpl in *.
    destruct (IH s1 Hc1) as (Hc2 & IH1 & IH2).
    destruct (run_workers env mc mp schedule s1) as [ended s2]. simpl in *.
    split; [exact Hc2|]. split.
    + intros i o' Hin Hne.
      assert (Htail : (i, o') ∈ ended -> in_flight s i)
        by (intros H; apply Hback; eapply IH1; eassumption).
      destruct o as [out|]; [|exact (Htail Hin)].
      apply elem_of_cons in Hin as [Heq|Hin]; [|exact (Htail Hin)].
      injection Heq as -> ->.
      destruct Hstep as [([Ho|Ho] & _)|Hfl]; [discriminate Ho| |exact Hfl].
      injection Ho as ->. congruence.
    + intros Hnone.
      destruct Hstep as [(_ & Hw & Ht)|Hfl]; [|destruct (Hnone _ Hfl)].
      destruct IH2 as [Hw2 Ht2].
      { intros i Hi. exact (Hnone i (Hback i Hi)). }
      split; congruence.
Qed.

(** X7. Once the cancellation flag is set, only the tasks already in
    flight can still transfer a chunk or fail: every other task that ends
    is skipped.  With no task in flight the pool sends nothing more, logs
    nothing and leaves transferred_size as it is, whatever the workers
    do. *)
Theorem cancelled_pool_skips_pending env mc mp schedule (s : JobState.t) :
  UploadJob.is_cancelled (JobState.job s) = true ->
  (forall i o, (i, o) ∈ (run_workers env mc mp schedule s).1 ->
     o <> Skipped -> in_flight s i)
  /\ ((forall i, ~ in_flight s i) ->
      JobState.world (run_workers env mc mp schedule s).2 = JobState.world s
      /\ UploadJob.transferred_size
           (JobState.job (run_workers env mc mp schedule s).2)
         = UploadJob.transferred_size (JobState.job s)).
Proof.
  intros Hc. exact (proj2 (cancelled_run env mc mp schedule s Hc)).
Qed.

(** An instance: a pending task taken after the cancellation. *)
Lemma cancelled_pool_skips_pending_witness :
  (run_workers Demo.env (Demo.mc (inr (true, 0)) Demo.good_service) (Demo.mp ∅)
     [Start 0; Finish 0]
     (JobState.mk
        (UploadJob.set_is_cancelled true
           (Demo.job 0 [Future.mk Demo.item PENDING])) Demo.world)).1
  = [(0%nat, Skipped)]
  /\ JobState.world
       (run_workers Demo.env (Demo.mc (inr (true, 0)) Demo.good_service)
          (Demo.mp ∅) [Start 0; Finish 0]
          (JobState.mk
             (UploadJob.set_is_cancelled true
                (Demo.job 0 [Future.mk Demo.item PENDING])) Demo.world)).2
     = Demo.world.
Proof.
  split; [reflexivity|].
  apply (cancelled_pool_skips_pending Demo.env
           (Demo.mc (inr (true, 0)) Demo.good_service) (Demo.mp ∅)
           [Start 0; Finish 0]
           (JobState.mk
              (UploadJob.set_is_cancelled true
                 (Demo.job 0 [Future.mk Demo.item PENDING])) Demo.world)).
  - reflexivity.
  - intros i (f & Hi & Hr). destruct i as [|i]; [|discriminate Hi].
    injection Hi as <-. discriminate Hr.
Defined.

(** ** Progress of a job *)

(** What push_project_async leaves in the job it returns, for files that
    carry the chunk identifiers of their size. *)
Lemma async_job_start env mc mp w0 w1 job :
  push_project_async env mc mp w0 = (Ok (Some job), w1) ->
  Forall (well_chunked mp) (upload_files_of (UploadJob.changes job)) ->
  UploadJob.transferred_size job = 0
  /\ UploadJob.is_cancelled job = false
  /\ UploadJob.futures job
     = (fun item => Future.mk item PENDING) <$> UploadJob.upload_queue_items job
  /\ Forall (fun it => 0 < UploadQueueItem.size it)
       (UploadJob.upload_queue_items job)
  /\ UploadJob.total_size job = sum_sizes (UploadJob.upload_queue_items job).
Proof.
  intros Hrun Hwell.
  pose proof (push_project_async_planned env mc mp w0) as Hplanned.
  rewrite Hrun in Hplanned. simpl in Hplanned.
  destruct Hplanned as (Hzero & Hc & Hitems & Htotal & Hfutures).
  rewrite plan_upload_spec in Hitems, Htotal. simpl in Hitems, Htotal.
  destruct (plan_sum mp (UploadJob.transaction_id job) _ Hwell) as [Hsum Hbound].
  rewrite <- Hitems in Hsum, Hbound.
  repeat split; try assumption.
  - eapply Forall_impl; [exact Hbound|]. simpl. intros it Hit. lia.
  - rewrite Htotal, Hsum. reflexivity.
Qed.

Lemma sum_fmap_nonneg {A} (f : A -> Z) (k : list A) :
  (forall x, 0 <= f x) -> 0 <= sum_list_Z (f <$> k).
Proof.
  intros Hf. induction k as [|x k IH]; [reflexivity|].
  rewrite fmap_cons, sum_list_Z_cons. pose proof (Hf x). lia.
Qed.

Lemma size_of_nonneg items i :
  Forall (fun it => 0 < UploadQueueItem.size it) items -> 0 <= size_of items i.
Proof.
  intros Hpos. unfold size_of. destruct (items !! i) as [it|] eqn:Hi; simpl;
    [|reflexivity].
  pose proof (Forall_lookup_1 _ _ _ _ Hpos Hi) as H. simpl in H. lia.
Qed.

(** X8. The progress of a job never goes backwards: along any sequential
    execution of the pool of a job started by push_project_async, with
    the cancellation flag set at any moment, transferred_size only
    grows. *)
Theorem transferred_size_never_decreases env mc mp w0 w1 job sched1 sched2 :
  push_project_async env mc mp w0 = (Ok (Some job), w1) ->
  Forall (well_chunked mp) (upload_files_of (UploadJob.changes job)) ->
  UploadJob.transferred_size
    (JobState.job (run_workers env mc mp sched1 (JobState.mk job w1)).2)
  <= UploadJob.transferred_size
       (JobState.job
          (run_workers env mc mp (sched1 ++ sched2) (JobState.mk job w1)).2).
Proof.
  intros Hrun Hwell.
  destruct (async_job_start env mc mp w0 w1 job Hrun Hwell)
    as (_ & _ & Hfutures & Hpos & _).
  rewrite run_workers_app.
  pose proof (run_workers_ok env mc mp sched1 (JobState.mk job w1)) as H1.
  destruct (run_workers env mc mp sched1 (JobState.mk job w1)) as [ended1 s1].
  pose proof (run_workers_ok env mc mp sched2 s1) as H2.
  destruct (run_workers env mc mp sched2 s1) as [ended2 s2]. simpl.
  rewrite (ro_transferred _ _ _ H2).
  assert (Hitems : items_of s1 = UploadJob.upload_queue_items job).
  { destruct (ro_frame _ _ _ H1) as (_ & _ & _ & _ & _ & _ & _ & _ & Hit).
    unfold items_of. rewrite Hit. apply (items_of_pending _ w1 _ Hfutures). }
  rewrite Hitems.
  pose proof (sum_fmap_nonneg (size_of (UploadJob.upload_queue_items job))
                (uploaded ended2)
                (fun i => size_of_nonneg _ i Hpos)).
  lia.
Qed.






(** The push of the demo project starts a job of one task over files that
    carry the chunk identifiers of their size. *)
Lemma demo_push_starts :
  exists job w1,
    push_project_async Demo.env demo_client demo_project Demo.world
    = (Ok (Some job), w1)
    /\ Forall (well_chunked demo_project)
         (upload_files_of (UploadJob.changes job)).
Proof.
  destruct (push_project_async Demo.env demo_client demo_project Demo.world)
    as [r w1] eqn:Hrun.
  assert (Hjob : exists job, r = Ok (Some job)).
  { apply (f_equal fst) in Hrun. vm_compute in Hrun. subst r. eexists.
    reflexivity. }
  destruct Hjob as [job ->]. exists job, w1. split; [reflexivity|].
  vm_compute in Hrun. injection Hrun as <- <-.
  repeat constructor; vm_compute; discriminate.
Defined.

(** An instance: the task of the demo project is taken, then ends. *)
Lemma transferred_size_never_decreases_witness :
  exists job w1,
    push_project_async Demo.env demo_client demo_project Demo.world
    = (Ok (Some job), w1)
    /\ UploadJob.transferred_size
         (JobState.job
            (run_workers Demo.env demo_client demo_project [Start 0]
               (JobState.mk job w1)).2)
       <= UploadJob.transferred_size
            (JobState.job
               (run_workers Demo.env demo_client demo_project
                  ([Start 0] ++ [Finish 0]) (JobState.mk job w1)).2).
Proof.
  destruct demo_push_starts as (job & w1 & Hrun & Hwell).
  exists job, w1. split; [exact Hrun|].
  exact (transferred_size_never_decreases Demo.env demo_client demo_project
           Demo.world w1 job [Start 0] [Finish 0] Hrun Hwell).
Defined.


(** ** Finalisation, step by step *)

Lemma check_sizes_ok (s : JobState.t) :
  UploadJob.transferred_size (JobState.job s)
    = UploadJob.total_size (JobState.job s) ->
  check_sizes s = (Ok tt, s).
Proof.
  intros H. unfold check_sizes. rewrite bind_get_job.
  replace (UploadJob.transferred_size (JobState.job s)
           =? UploadJob.total_size (JobState.job s)) with true
    by (symmetry; apply Z.eqb_eq, H).
  reflexivity.
Qed.

Lemma finish_transaction_ok env mc (s : JobState.t) resp server_resp :
  let transaction_id := UploadJob.transaction_id (JobState.job s) in
  let finishing :=
    Log "info" ("Finishing transaction "
                  +:+ py_str (Env.repr env) transaction_id) in
  let finish_request := Request.mk (finish_url env transaction_id) NoData [] in
  MerginClient.post mc (World.trace (JobState.world s) ++ [finishing])
    finish_request = Answer resp ->
  Response.body resp = Some server_resp ->
  finish_transaction env mc s
  = (Ok tt,
     JobState.mk (UploadJob.set_server_resp server_resp (JobState.job s))
       (World.emit (Post finish_request)
          (World.emit finishing (JobState.world s)))).
Proof.
  intros transaction_id finishing finish_request Hpost Hbody.
  unfold finish_transaction. rewrite bind_get_job.
  unfold try_except_ClientError.
  rewrite bind_on_world_log, bind_on_world_post.
  simpl JobState.world. rewrite trace_emit.
  fold transaction_id. fold finishing. fold finish_request.
  rewrite Hpost. unfold json_load. rewrite Hbody, bind_ret.
  reflexivity.
Qed.

Lemma apply_changes_ok mp (s : JobState.t) d version files :
  UploadJob.server_resp (JobState.job s) = JDict d ->
  assoc "version" d = Some (JStr version) ->
  assoc "files" d = Some files ->
  MerginProject.apply_push_changes mp (UploadJob.changes (JobState.job s))
    = None ->
  apply_changes mp s
  = (Ok tt,
     JobState.mk (JobState.job s)
       (World.mk
          (World.trace (JobState.world s)
           ++ [ApplyPushChanges (UploadJob.changes (JobState.job s));
               Log "info" ("--- push finished - new project version "
                             +:+ version)])
          (Metadata.mk (UploadJob.project_path (JobState.job s))
             (JStr version) files)
          (World.tmp_dirs (JobState.world s)
             ∖ {[UploadJob.tmp_dir (JobState.job s)]}))).
Proof.
  intros Hresp Hversion Hfiles Happly.
  unfold apply_changes. rewrite bind_get_job, Hresp.
  unfold subscript. rewrite Hversion, Hfiles, !bind_ret.
  unfold bind, on_world, set_metadata, try_except_Exception,
    mp_apply_push_changes, cleanup, str_add, log, ret.
  simpl. rewrite Happly. simpl.
  unfold World.emit, World.set_tmp_dirs, World.set_metadata. simpl.
  rewrite <- app_assoc. reflexivity.
Qed.

Lemma apply_changes_fail mp (s : JobState.t) d version files e :
  UploadJob.server_resp (JobState.job s) = JDict d ->
  assoc "version" d = Some version ->
  assoc "files" d = Some files ->
  MerginProject.apply_push_changes mp (UploadJob.changes (JobState.job s))
    = Some e ->
  apply_changes mp s
  = (Raise (ClientError ("Failed to apply push changes: " +:+ str_exn e)),
     JobState.mk (JobState.job s)
       (World.mk
          (World.trace (JobState.world s)
           ++ [ApplyPushChanges (UploadJob.changes (JobState.job s));
               Log "error" ("Failed to apply push changes: " +:+ str_exn e);
               Log "info" "--- push aborted"])
          (Metadata.mk (UploadJob.project_path (JobState.job s)) version files)
          (World.tmp_dirs (JobState.world s)))).
Proof.
  intros Hresp Hversion Hfiles Happly.
  unfold apply_changes. rewrite bind_get_job, Hresp.
  unfold subscript. rewrite Hversion, Hfiles, !bind_ret.
  unfold bind, on_world, set_metadata, try_except_Exception,
    mp_apply_push_changes, log, raise, ret.
  simpl. rewrite Happly. simpl.
  unfold World.emit, World.set_metadata. simpl.
  rewrite <- !app_assoc. reflexivity.
Qed.

(** X10. A finalisation that goes through: with the pool shut down, no
    exception of a worker, everything transferred, the finish request
    answered with the new state of the project and the changes applied,
    push_project_finalize returns; it has sent the finish request and no
    other, stored the answer in the job, replaced the project metadata by
    the name, version and files of the answer, and removed the temporary
    directory of the job. *)
Theorem finalize_success env mc mp (s : JobState.t) ex resp d version files :
  UploadJob.executor (JobState.job s) = Some ex ->
  let s1 := after_shutdown env mc mp s in
  let job := JobState.job s1 in
  let finishing :=
    Log "info" ("Finishing transaction "
                  +:+ py_str (Env.repr env) (UploadJob.transaction_id job)) in
  let finish_request :=
    Request.mk (finish_url env (UploadJob.transaction_id job)) NoData [] in
  no_worker_exception job ->
  UploadJob.transferred_size job = UploadJob.total_size job ->
  MerginClient.post mc (World.trace (JobState.world s1) ++ [finishing])
    finish_request = Answer resp ->
  Response.body resp = Some (JDict d) ->
  assoc "version" d = Some (JStr version) ->
  assoc "files" d = Some files ->
  MerginProject.apply_push_changes mp (UploadJob.changes job) = None ->
  push_project_finalize env mc mp s
  = (Ok tt,
     JobState.mk (UploadJob.set_server_resp (JDict d) job)
       (World.mk
          (World.trace (JobState.world s1)
           ++ [finishing; Post finish_request;
               ApplyPushChanges (UploadJob.changes job);
               Log "info" ("--- push finished - new project version "
                             +:+ version)])
          (Metadata.mk (UploadJob.project_path job) (JStr version) files)
          (World.tmp_dirs (JobState.world s1) ∖ {[UploadJob.tmp_dir job]}))).
Proof.
  intros Hex s1 job finishing finish_request Hnone Hsize Hpost Hbody Hversion
    Hfiles Happly.
  unfold push_project_finalize. rewrite bind_get_job.
  rewrite (bind_ok _ _ _ _ _ (await_workers_run env mc mp s Hnone)).
  fold s1. rewrite (bind_ok _ _ _ _ _ (check_sizes_ok s1 Hsize)).
  rewrite Hex, bool_decide_eq_true_2 by eauto.
  rewrite (bind_ok _ _ _ _ _
             (finish_transaction_ok env mc s1 resp (JDict d) Hpost Hbody)).
  rewrite (apply_changes_ok mp _ d version files); try assumption;
    try reflexivity.
  unfold World.emit. simpl. rewrite <- !app_assoc. reflexivity.
Qed.

(** An instance: the only task has transferred its 3 bytes. *)
Lemma finalize_success_witness :
  exists s',
    push_project_finalize Demo.env demo_client (Demo.mp ∅)
      (Demo.state 3 [Future.mk Demo.item (FINISHED None)]) = (Ok tt, s')
    /\ posted_urls (World.trace (JobState.world s'))
       = ["/v1/project/push/finish/t-1"]
    /\ World.metadata (JobState.world s')
       = Metadata.mk "alice/field" (JStr "v4") (JList [])
    /\ World.tmp_dirs (JobState.world s') = ∅.
Proof.
  eexists. split.
  - apply (finalize_success Demo.env demo_client (Demo.mp ∅)
             (Demo.state 3 [Future.mk Demo.item (FINISHED None)])
             (ThreadPoolExecutor.mk 4 false)
             (Response.mk "OK" (Some Demo.project_state))
             [("version", JStr "v4"); ("files", JList [])] "v4" (JList []));
      try reflexivity.
    repeat constructor.
  - split; [reflexivity|]. split; [reflexivity|]. vm_compute. reflexivity.
Defined.

Lemma raise_worker_exception_first pre f post e w :
  Forall (fun g => Future.exception g = None) pre ->
  Future.exception f = Some e ->
  raise_worker_exception (pre ++ f :: post) w
  = (Raise e,
     World.mk
       (World.trace w
        ++ [Log "error" ("Error while pushing data: " +:+ str_exn e);
            Log "info" "--- push aborted"])
       (World.metadata w) (World.tmp_dirs w)).
Proof.
  intros Hpre He. induction Hpre as [|g pre Hg _ IH]; simpl.
  - rewrite He. unfold bind, log, raise, World.emit. simpl.
    rewrite <- app_assoc. reflexivity.
  - rewrite Hg. exact IH.
Qed.

(** X11. When a worker ended with an exception, push_project_finalize
    raises the exception of the first such task in the order of
    submission, after two lines in the log: it sends no finish request and
    no cancel request, so that the transaction stays open, and it leaves
    the project metadata and the temporary directory as they are. *)
Theorem finalize_raises_worker_exception env mc mp (s : JobState.t) ex
    pre f post e :
  UploadJob.executor (JobState.job s) = Some ex ->
  let s1 := after_shutdown env mc mp s in
  UploadJob.futures (JobState.job s1) = pre ++ f :: post ->
  Forall (fun g => Future.exception g = None) pre ->
  Future.exception f = Some e ->
  push_project_finalize env mc mp s
  = (Raise e,
     JobState.mk (JobState.job s1)
       (World.mk
          (World.trace (JobState.world s1)
           ++ [Log "error" ("Error while pushing data: " +:+ str_exn e);
               Log "info" "--- push aborted"])
          (World.metadata (JobState.world s1))
          (World.tmp_dirs (JobState.world s1)))).
Proof.
  intros Hex s1 Hfutures Hpre He.
  assert (Hawait :
    await_workers env mc mp s
    = (Raise e,
       JobState.mk (JobState.job s1)
         (World.mk
            (World.trace (JobState.world s1)
             ++ [Log "error" ("Error while pushing data: " +:+ str_exn e);
                 Log "info" "--- push aborted"])
            (World.metadata (JobState.world s1))
            (World.tmp_dirs (JobState.world s1))))).
  { unfold await_workers.
    rewrite (bind_ok _ _ _ _ _ (executor_shutdown_run env mc mp s ex Hex)).
    fold s1. rewrite bind_get_job, Hfutures.
    unfold on_world.
    rewrite (raise_worker_exception_first pre f post e _ Hpre He).
    reflexivity. }
  unfold push_project_finalize. rewrite bind_get_job.
  rewrite Hex, bool_decide_eq_true_2 by eauto.
  rewrite (bind_fail _ _ _ _ _ Hawait). reflexivity.
Qed.

(** An instance: the only task failed on a missing file. *)
Lemma finalize_raises_worker_exception_witness :
  exists s',
    push_project_finalize Demo.env demo_client (Demo.mp ∅)
      (Demo.state 0
         [Future.mk Demo.item
            (FINISHED (Some (PyError "FileNotFoundError"
                   "[Errno 2] No such file or directory: '/p/notes.txt'")))])
    = (Raise (PyError "FileNotFoundError"
                   "[Errno 2] No such file or directory: '/p/notes.txt'"), s')
    /\ posted_urls (World.trace (JobState.world s')) = [].
Proof.
  eexists. split.
  - apply (finalize_raises_worker_exception Demo.env demo_client (Demo.mp ∅)
             (Demo.state 0
                [Future.mk Demo.item
                   (FINISHED (Some (PyError "FileNotFoundError"
                                      "[Errno 2] No such file or directory: '/p/notes.txt'")))])
             (ThreadPoolExecutor.mk 4 false) []
             (Future.mk Demo.item
                (FINISHED (Some (PyError "FileNotFoundError"
                   "[Errno 2] No such file or directory: '/p/notes.txt'"))))
             []); try reflexivity.
    constructor.
  - reflexivity.
Defined.

(** X12. When applying the pushed changes to the local project fails,
    push_project_finalize raises a ClientError that carries the message of
    the failure.  By then the finish request was answered and the project
    metadata already hold the new version; the temporary directory is not
    removed and no cancel request is sent. *)
Theorem finalize_apply_failure env mc mp (s : JobState.t) ex resp d version
    files e :
  UploadJob.executor (JobState.job s) = Some ex ->
  let s1 := after_shutdown env mc mp s in
  let job := JobState.job s1 in
  let finishing :=
    Log "info" ("Finishing transaction "
                  +:+ py_str (Env.repr env) (UploadJob.transaction_id job)) in
  let finish_request :=
    Request.mk (finish_url env (UploadJob.transaction_id job)) NoData [] in
  no_worker_exception job ->
  UploadJob.transferred_size job = UploadJob.total_size job ->
  MerginClient.post mc (World.trace (JobState.world s1) ++ [finishing])
    finish_request = Answer resp ->
  Response.body resp = Some (JDict d) ->
  assoc "version" d = Some version ->
  assoc "files" d = Some files ->
  MerginProject.apply_push_changes mp (UploadJob.changes job) = Some e ->
  push_project_finalize env mc mp s
  = (Raise (ClientError ("Failed to apply push changes: " +:+ str_exn e)),
     JobState.mk (UploadJob.set_server_resp (JDict d) job)
       (World.mk
          (World.trace (JobState.world s1)
           ++ [finishing; Post finish_request;
               ApplyPushChanges (UploadJob.changes job);
               Log "error" ("Failed to apply push changes: " +:+ str_exn e);
               Log "info" "--- push aborted"])
          (Metadata.mk (UploadJob.project_path job) version files)
          (World.tmp_dirs (JobState.world s1)))).
Proof.
  intros Hex s1 job finishing finish_request Hnone Hsize Hpost Hbody Hversion
    Hfiles Happly.
  unfold push_project_finalize. rewrite bind_get_job.
  rewrite (bind_ok _ _ _ _ _ (await_workers_run env mc mp s Hnone)).
  fold s1. rewrite (bind_ok _ _ _ _ _ (check_sizes_ok s1 Hsize)).
  rewrite Hex, bool_decide_eq_true_2 by eauto.
  rewrite (bind_ok _ _ _ _ _
             (finish_transaction_ok env mc s1 resp (JDict d) Hpost Hbody)).
  rewrite (apply_changes_fail mp _ d version files e); try assumption;
    try reflexivity.
  unfold World.emit. simpl. rewrite <- !app_assoc. reflexivity.
Qed.

(** An instance: the local project cannot be written. *)
Lemma finalize_apply_failure_witness :
  exists s',
    push_project_finalize Demo.env demo_client
      (MerginProject.mk false ∅ (fun _ => false) (fun f _ => inr f)
         (fun _ => Some (PyError "PermissionError"
                   "[Errno 13] Permission denied: '/p/notes.txt'"))
         (fun path => path) (fun path => path))
      (Demo.state 3 [Future.mk Demo.item (FINISHED None)])
    = (Raise (ClientError
         "Failed to apply push changes: [Errno 13] Permission denied: '/p/notes.txt'"),
       s')
    /\ World.metadata (JobState.world s')
       = Metadata.mk "alice/field" (JStr "v4") (JList [])
    /\ World.tmp_dirs (JobState.world s') = {["/tmp/mergin-py-client-0001"]}.
Proof.
  eexists. split.
  - apply (finalize_apply_failure Demo.env demo_client
             (MerginProject.mk false ∅ (fun _ => false) (fun f _ => inr f)
                (fun _ => Some (PyError "PermissionError"
                   "[Errno 13] Permission denied: '/p/notes.txt'"))
                (fun path => path) (fun path => path))
             (Demo.state 3 [Future.mk Demo.item (FINISHED None)])
             (ThreadPoolExecutor.mk 4 false)
             (Response.mk "OK" (Some Demo.project_state))
             [("version", JStr "v4"); ("files", JList [])] (JStr "v4")
             (JList [])
             (PyError "PermissionError"
                   "[Errno 13] Permission denied: '/p/notes.txt'")); try reflexivity.
    repeat constructor.
  - split; reflexivity.
Defined.

(** X13. A job without a pool, as push_project_async makes one when no
    file is to upload, is finalised without a word to the service: with
    the answer of the service already in the job, push_project_finalize
    sends no request, replaces the project metadata, applies the changes
    and removes the temporary directory. *)
Theorem finalize_without_pool env mc mp (s : JobState.t) d version files :
  let job := JobState.job s in
  UploadJob.executor job = None ->
  UploadJob.transferred_size job = UploadJob.total_size job ->
  UploadJob.server_resp job = JDict d ->
  assoc "version" d = Some (JStr version) ->
  assoc "files" d = Some files ->
  MerginProject.apply_push_changes mp (UploadJob.changes job) = None ->
  push_project_finalize env mc mp s
  = (Ok tt,
     JobState.mk job
       (World.mk
          (World.trace (JobState.world s)
           ++ [ApplyPushChanges (UploadJob.changes job);
               Log "info" ("--- push finished - new project version "
                             +:+ version)])
          (Metadata.mk (UploadJob.project_path job) (JStr version) files)
          (World.tmp_dirs (JobState.world s) ∖ {[UploadJob.tmp_dir job]}))).
Proof.
  intros job Hex Hsize Hresp Hversion Hfiles Happly.
  unfold push_project_finalize. rewrite bind_get_job.
  fold job. rewrite Hex, bool_decide_eq_false_2 by (intros [? ?]; discriminate).
  rewrite bind_ret.
  rewrite (bind_ok _ _ _ _ _ (check_sizes_ok s Hsize)), bind_ret.
  apply (apply_changes_ok mp s d version files); assumption.
Qed.

(** An instance: a job that only removes a file. *)
Lemma finalize_without_pool_witness :
  exists s',
    push_project_finalize Demo.env demo_client (Demo.mp ∅)
      (JobState.mk
         (UploadJob.set_server_resp Demo.project_state
            (UploadJob.init "alice/field"
               (Demo.changes_of [] [] [Demo.notes] []) JNull
               "/tmp/mergin-py-client-0001"))
         Demo.world)
    = (Ok tt, s')
    /\ posted_urls (World.trace (JobState.world s')) = [].
Proof.
  eexists. split.
  - apply (finalize_without_pool Demo.env demo_client (Demo.mp ∅)
             (JobState.mk
                (UploadJob.set_server_resp Demo.project_state
                   (UploadJob.init "alice/field"
                      (Demo.changes_of [] [] [Demo.notes] []) JNull
                      "/tmp/mergin-py-client-0001"))
                Demo.world)
             [("version", JStr "v4"); ("files", JList [])] "v4" (JList []));
      reflexivity.
  - reflexivity.
Defined.

(** ** Cancelling *)

(** X14. push_project_cancel on a job with a pool: the flag is set and
    every task has ended when the cancel request is sent, once.  When the
    service answers, the message of the answer is stored in the job as
    server_resp and logged; when the request fails, its error is logged
    and raised, and server_resp stays as it was.  With no task in flight
    at the call, the request and the lines in the log are all that
    happens and transferred_size is left as it is. *)
Theorem push_project_cancel_outcome env mc mp (s : JobState.t) ex :
  UploadJob.executor (JobState.job s) = Some ex ->
  let s0 := JobState.mk (UploadJob.set_is_cancelled true (JobState.job s))
              (World.emit (Log "info" "user cancelled the push...")
                 (JobState.world s)) in
  let s1 := after_shutdown env mc mp s0 in
  let job := JobState.job s1 in
  let cancel_request :=
    Request.mk (cancel_url env (UploadJob.transaction_id job)) NoData [] in
  UploadJob.is_cancelled job = true
  /\ Forall (fun f => Future.done f = true) (UploadJob.futures job)
  /\ push_project_cancel env mc mp s
     = match MerginClient.post mc (World.trace (JobState.world s1))
               cancel_request with
       | Answer resp =>
           (Ok tt,
            JobState.mk
              (UploadJob.set_server_resp (JStr (Response.msg resp)) job)
              (World.emit
                 (Log "info" ("--- push cancel response: "
                                +:+ Response.msg resp))
                 (World.emit (Post cancel_request) (JobState.world s1))))
       | Failure err =>
           (Raise (ClientError err),
            JobState.mk job
              (World.emit
                 (Log "error" ("--- push cancelling failed! " +:+ err))
                 (World.emit (Post cancel_request) (JobState.world s1))))
       end
  /\ ((forall i, ~ in_flight s i) ->
      JobState.world s1 = JobState.world s0
      /\ UploadJob.transferred_size job
         = UploadJob.transferred_size (JobState.job s)).
Proof.
  intros Hex s0 s1 job cancel_request.
  assert (Hex0 : UploadJob.executor (JobState.job s0) = Some ex) by exact Hex.
  assert (Hs1 : s1 = (executor_shutdown env mc mp s0).2).
  { unfold s1, after_shutdown. rewrite Hex0. reflexivity. }
  destruct (cancelled_run env mc mp
              (drain_schedule (length (UploadJob.futures (JobState.job s0))))
              s0 eq_refl) as (Hflag & _ & Hidle).
  assert (Hshape : UploadJob.is_cancelled job = true
                   /\ JobState.world s1 = JobState.world (drain env mc mp s0)
                   /\ UploadJob.transferred_size job
                      = UploadJob.transferred_size
                          (JobState.job (drain env mc mp s0))).
  { unfold job. rewrite Hs1. unfold executor_shutdown.
    rewrite bind_get_job, Hex0. simpl. unfold drain. auto. }
  destruct Hshape as (Hc & Hw & Ht).
  split; [exact Hc|]. split.
  { exact (after_shutdown_all_done env mc mp s0 ex Hex0). }
  split.
  - unfold push_project_cancel.
    rewrite bind_on_world_log, bind_modify_job.
    change (JobState.mk
              (UploadJob.set_is_cancelled true
                 (JobState.job
                    (JobState.mk (JobState.job s)
                       (World.emit (Log "info" "user cancelled the push...")
                          (JobState.world s)))))
              (JobState.world
                 (JobState.mk (JobState.job s)
                    (World.emit (Log "info" "user cancelled the push...")
                       (JobState.world s))))) with s0.
    rewrite (bind_ok _ _ _ _ _ (executor_shutdown_run env mc mp s0 ex Hex0)).
    fold s1. rewrite bind_get_job. fold job.
    unfold try_except_ClientError, bind at 1.
    rewrite bind_on_world_post. fold cancel_request.
    destruct (MerginClient.post mc (World.trace (JobState.world s1))
                cancel_request) as [resp|err].
    + reflexivity.
    + reflexivity.
  - intros Hnone.
    assert (Hnone0 : forall i, ~ in_flight s0 i) by exact Hnone.
    destruct (Hidle Hnone0) as [Hw0 Ht0].
    unfold drain in Hw, Ht. rewrite Hw, Hw0, Ht, Ht0. split; reflexivity.
Qed.

(** An instance: a pending task is cancelled before any worker took it. *)
Lemma push_project_cancel_outcome_witness :
  exists s',
    push_project_cancel Demo.env demo_client (Demo.mp ∅)
      (Demo.state 0 [Future.mk Demo.item PENDING]) = (Ok tt, s')
    /\ posted_urls (World.trace (JobState.world s'))
       = ["/v1/project/push/cancel/t-1"]
    /\ UploadJob.server_resp (JobState.job s') = JStr "OK".
Proof.
  destruct (push_project_cancel_outcome Demo.env demo_client (Demo.mp ∅)
              (Demo.state 0 [Future.mk Demo.item PENDING])
              (ThreadPoolExecutor.mk 4 false) eq_refl)
    as (_ & _ & Hrun & _).
  eexists. split; [exact Hrun|]. split; reflexivity.
Defined.

(** ** The requests of a push *)

Section Silent.
Context {S : Type} `{HasWorld S}.

Lemma silent_ret {A} (a : A) : silent (ret a : M S A).
Proof. intros s. exists []. rewrite app_nil_r. auto. Qed.

Lemma silent_raise {A} e : silent (raise e : M S A).
Proof. intros s. exists []. rewrite app_nil_r. auto. Qed.

Lemma silent_bind {A B} (m : M S A) (k : A -> M S B) :
  silent m -> (forall a, silent (k a)) -> silent (x <- m ;; k x).
Proof.
  intros Hm Hk s. unfold bind. destruct (Hm s) as (evs1 & H1 & Hp1).
  destruct (m s) as [[a|e] s1]; simpl in *; [|exists evs1; auto].
  destruct (Hk a s1) as (evs2 & H2 & Hp2).
  exists (evs1 ++ evs2). rewrite H2, H1, app_assoc, posted_urls_app, Hp1, Hp2.
  auto.
Qed.

Lemma silent_try {A} (m : M S A) h :
  silent m -> (forall err, silent (h err)) ->
  silent (try_except_ClientError m h).
Proof.
  intros Hm Hh s. unfold try_except_ClientError.
  destruct (Hm s) as (evs1 & H1 & Hp1).
  destruct (m s) as [[a|[err|cls msg]] s1]; simpl in *;
    try (exists evs1; auto; fail).
  destruct (Hh err s1) as (evs2 & H2 & Hp2).
  exists (evs1 ++ evs2). rewrite H2, H1, app_assoc, posted_urls_app, Hp1, Hp2.
  auto.
Qed.

Lemma silent_try_Exception {A} (m : M S A) h :
  silent m -> (forall e, silent (h e)) ->
  silent (try_except_Exception m h).
Proof.
  intros Hm Hh s. unfold try_except_Exception.
  destruct (Hm s) as (evs1 & H1 & Hp1).
  destruct (m s) as [[a|e] s1]; simpl in *; [exists evs1; auto|].
  destruct (Hh e s1) as (evs2 & H2 & Hp2).
  exists (evs1 ++ evs2). rewrite H2, H1, app_assoc, posted_urls_app, Hp1, Hp2.
  auto.
Qed.

Lemma silent_subscript v k : silent (subscript v k : M S json).
Proof.
  unfold subscript. destruct v; try apply silent_raise.
  destruct (assoc k d); [apply silent_ret|apply silent_raise].
Qed.

Lemma silent_json_load env resp :
  silent (json_load env resp : M S json).
Proof.
  unfold json_load. destruct (Response.body resp);
    [apply silent_ret|apply silent_raise].
Qed.

Lemma silent_str_add a v : silent (str_add a v : M S string).
Proof. unfold str_add. destruct v; try apply silent_raise. apply silent_ret. Qed.

Lemma silent_getitem changes key :
  silent (getitem changes key : M S (list FileEntry.t)).
Proof.
  unfold getitem. destruct (changes !! key);
    [apply silent_ret|apply silent_raise].
Qed.

Lemma silent_for_each_update {A} (xs : list A) (body : A -> M S A) :
  (forall x, silent (body x)) -> silent (for_each_update xs body).
Proof.
  intros Hbody. induction xs as [|x xs IH]; simpl; [apply silent_ret|].
  apply silent_bind; [apply Hbody|intros x'].
  apply silent_bind; [exact IH|intros rest']. apply silent_ret.
Qed.
End Silent.

(** An operation on the world that adds one event, not a request. *)
Lemma silent_event {A} (m : M World.t A) e :
  is_post e = false ->
  (forall w, World.trace (m w).2 = World.trace w ++ [e]) ->
  silent m.
Proof.
  intros He Hm w. exists [e]. split; [apply Hm|].
  destruct e; try reflexivity. discriminate He.
Qed.

Lemma silent_log level msg : silent (log level msg).
Proof. apply (silent_event _ (Log level msg)); reflexivity. Qed.

Lemma silent_get_metadata : silent get_metadata.
Proof. intros w. exists []. rewrite app_nil_r. auto. Qed.

Lemma silent_project_info mc project_path :
  silent (mc_project_info mc project_path).
Proof.
  apply (silent_event _ (ProjectInfo project_path)); [reflexivity|].
  intros w. unfold mc_project_info.
  destruct (MerginClient.project_info mc _ _); reflexivity.
Qed.

Lemma silent_storage mc changes :
  silent (mc_enough_storage_available mc changes).
Proof.
  apply (silent_event _ (StorageCheck changes)); [reflexivity|].
  intros w. unfold mc_enough_storage_available.
  destruct (MerginClient.enough_storage_available mc _ _); reflexivity.
Qed.

Lemma silent_copy mp f tmp_dir :
  silent (mp_copy_versioned_file_for_upload mp f tmp_dir).
Proof.
  apply (silent_event _ (CopyVersioned (FileEntry.path f) tmp_dir));
    [reflexivity|].
  intros w. unfold mp_copy_versioned_file_for_upload.
  destruct (MerginProject.copy_versioned_file_for_upload mp f tmp_dir);
    reflexivity.
Qed.

Lemma silent_apply mp changes : silent (mp_apply_push_changes mp changes).
Proof.
  apply (silent_event _ (ApplyPushChanges changes)); [reflexivity|].
  intros w. unfold mp_apply_push_changes.
  destruct (MerginProject.apply_push_changes mp changes); reflexivity.
Qed.

Lemma silent_tmp env prefix : silent (TemporaryDirectory env prefix).
Proof. intros w. exists []. rewrite app_nil_r. auto. Qed.

Lemma silent_set_metadata metadata : silent (set_metadata metadata).
Proof. intros w. exists []. rewrite app_nil_r. auto. Qed.

Lemma silent_cleanup tmp_dir : silent (cleanup tmp_dir).
Proof. intros w. exists []. rewrite app_nil_r. auto. Qed.

Lemma silent_holding tmp_dir body :
  silent body -> silent (holding_tmp_dir tmp_dir body).
Proof.
  intros Hbody w. unfold holding_tmp_dir. destruct (Hbody w) as (evs & H1 & Hp).
  destruct (body w) as [[[job|]|e] w']; exists evs; auto.
Qed.

Lemma silent_megabytes freespace : silent (megabytes freespace : M World.t Z).
Proof.
  unfold megabytes. destruct (_ <=? _); [apply silent_raise|apply silent_ret].
Qed.

Lemma silent_get_job : silent get_job.
Proof. intros s. exists []. rewrite app_nil_r. auto. Qed.

Lemma silent_modify_job f : silent (modify_job f).
Proof. intros s. exists []. rewrite app_nil_r. auto. Qed.

Lemma silent_on_world {A} (m : M World.t A) : silent m -> silent (on_world m).
Proof.
  intros Hm s. unfold on_world. destruct (Hm (JobState.world s)) as (evs & H1 & Hp).
  destruct (m (JobState.world s)) as [r w']. exists evs. auto.
Qed.

Lemma silent_with_job {A} job (m : M JobState.t A) :
  (forall w, exists evs,
     World.trace (JobState.world (m (JobState.mk job w)).2)
     = World.trace w ++ evs
     /\ posted_urls evs = []) ->
  silent (with_job job m).
Proof.
  intros Hm w. unfold with_job. destruct (Hm w) as (evs & H1 & Hp).
  destruct (m (JobState.mk job w)) as [r s]. exists evs. auto.
Qed.

Ltac silent_step :=
  first
    [ apply silent_ret | apply silent_raise | apply silent_log
    | apply silent_get_metadata | apply silent_project_info
    | apply silent_storage | apply silent_copy | apply silent_apply
    | apply silent_tmp | apply silent_set_metadata | apply silent_cleanup
    | apply silent_get_job | apply silent_modify_job
    | apply silent_subscript | apply silent_json_load | apply silent_str_add
    | apply silent_getitem | apply silent_megabytes
    | apply silent_on_world
    | apply silent_for_each_update; intros ?
    | apply silent_try; [|intros ?]
    | apply silent_try_Exception; [|intros ?]
    | apply silent_bind; [|intros ?]
    | match goal with
      | |- silent (match ?c with _ => _ end) => destruct c
      end ].

(** Without a pool, finalisation calls [mc.post] not once. *)
Lemma finalize_without_pool_silent env mc mp job w :
  UploadJob.executor job = None ->
  exists evs,
    World.trace
      (JobState.world (push_project_finalize env mc mp (JobState.mk job w)).2)
    = World.trace w ++ evs
    /\ posted_urls evs = [].
Proof.
  intros Hex.
  assert (Hrun : push_project_finalize env mc mp (JobState.mk job w)
                 = (check_sizes ;; apply_changes mp) (JobState.mk job w)).
  { unfold push_project_finalize. rewrite bind_get_job. simpl JobState.job.
    rewrite Hex, bool_decide_eq_false_2 by (intros [? ?]; discriminate).
    rewrite bind_ret. unfold bind.
    destruct (check_sizes (JobState.mk job w)) as [[[]|e] s']; reflexivity. }
  rewrite Hrun.
  assert (Hs : silent (check_sizes ;; apply_changes mp)).
  { unfold check_sizes, apply_changes. repeat silent_step. }
  exact (Hs (JobState.mk job w)).
Qed.

Lemma sends_post_or_fail {B} mc url data headers
    (h : string -> M World.t Response.t) (k : Response.t -> M World.t B) :
  (forall err, silent (h err)) -> (forall resp, silent (k resp)) ->
  sends (resp <- try_except_ClientError (post mc url data headers) h ;;
         k resp) url.
Proof.
  intros Hh Hk w.
  assert (Hrun :
    (resp <- try_except_ClientError (post mc url data headers) h ;; k resp) w
    = match MerginClient.post mc (World.trace w)
              (Request.mk url data headers) with
      | Answer resp =>
          k resp (World.emit (Post (Request.mk url data headers)) w)
      | Failure err =>
          (resp <- h err ;; k resp)
            (World.emit (Post (Request.mk url data headers)) w)
      end).
  { unfold bind, try_except_ClientError, post.
    destruct (MerginClient.post mc _ _); reflexivity. }
  rewrite Hrun.
  assert (Hrest : forall m : M World.t B, silent m ->
    exists evs,
      World.trace (m (World.emit (Post (Request.mk url data headers)) w)).2
      = World.trace w ++ evs
      /\ posted_urls evs = [url]).
  { intros m Hm.
    destruct (Hm (World.emit (Post (Request.mk url data headers)) w))
      as (evs & H1 & Hp).
    unfold world_of, world_has_world in H1.
    exists (Post (Request.mk url data headers) :: evs).
    rewrite H1, trace_emit, <- app_assoc. split; [reflexivity|].
    change (posted_urls (Post (Request.mk url data headers) :: evs))
      with (url :: posted_urls evs).
    rewrite Hp. reflexivity. }
  destruct (MerginClient.post mc _ _) as [resp|err].
  - apply Hrest, Hk.
  - apply Hrest, silent_bind; [apply Hh|exact Hk].
Qed.

Lemma opens_bind {A} (m : M World.t A) k url :
  silent m -> (forall a, opens (k a) url) -> opens (x <- m ;; k x) url.
Proof.
  intros Hm Hk w. unfold bind. destruct (Hm w) as (evs1 & H1 & Hp1).
  unfold world_of, world_has_world in H1.
  destruct (m w) as [[a|e] w1]; simpl in *.
  - destruct (Hk a w1) as (evs2 & H2 & Hp2).
    exists (evs1 ++ evs2).
    rewrite H2, H1, app_assoc, posted_urls_app, Hp1. simpl. auto.
  - exists evs1. split; [exact H1|]. left. split; [exact Hp1|discriminate].
Qed.

Lemma opens_holding tmp_dir body url :
  opens body url -> opens (holding_tmp_dir tmp_dir body) url.
Proof.
  intros Hbody w. destruct (Hbody w) as (evs & H1 & Hp).
  exists evs. rewrite holding_fst. split; [|exact Hp].
  unfold holding_tmp_dir. destruct (body w) as [[[job|]|e] w']; exact H1.
Qed.

Lemma opens_none {A} (m : M World.t A) url :
  silent m -> opens (m ;; ret None) url.
Proof.
  intros Hm w.
  destruct (silent_bind m (fun _ => ret (@None UploadJob.t)) Hm
              (fun _ => silent_ret _) w) as (evs & H1 & Hp).
  unfold world_of, world_has_world in H1.
  exists evs. split; [exact H1|]. left. split; [exact Hp|].
  intros job. unfold bind, ret. destruct (m w) as [[a|e] w']; discriminate.
Qed.

Lemma opens_sends m url : sends m url -> opens m url.
Proof.
  intros Hm w. destruct (Hm w) as (evs & H1 & Hp). exists evs. auto.
Qed.

(** X15. Whatever the project, the service and its answers,
    push_project_async calls mc.post at most once, on
    /v1/project/push/ followed by the name of the project: it posts no
    chunk and finishes or cancels no transaction itself, also when it
    finalises a push without files to upload.  It returns a job only after
    that call. *)
Theorem push_project_async_posts_once env mc mp w :
  exists evs,
    World.trace (push_project_async env mc mp w).2 = World.trace w ++ evs
    /\ ((posted_urls evs = []
         /\ forall job, (push_project_async env mc mp w).1 <> Ok (Some job))
        \/ posted_urls evs
           = ["/v1/project/push/" +:+ Metadata.name (World.metadata w)]).
Proof.
  unfold push_project_async.
  destruct (MerginProject.has_unfinished_pull mp).
  { exists []. rewrite app_nil_r. split; [reflexivity|].
    left. split; [reflexivity|discriminate]. }
  rewrite bind_ret, bind_get_metadata.
  generalize (World.metadata w). intros metadata. revert w.
  change (opens ?m ?url) with (forall w, exists evs,
    World.trace (m w).2 = World.trace w ++ evs
    /\ ((posted_urls evs = [] /\ forall job, (m w).1 <> Ok (Some job))
        \/ posted_urls evs = [url])).
  match goal with
  | |- forall w, exists evs,
         World.trace (?m w).2 = World.trace w ++ evs /\ _ =>
      change (opens m ("/v1/project/push/" +:+ Metadata.name metadata))
  end.
  do 8 (apply opens_bind; [solve [repeat silent_step]|intros ?]).
  apply opens_holding.
  do 5 (apply opens_bind; [solve [repeat silent_step]|intros ?]).
  destruct (bool_decide (count_changes _ = 0%nat)).
  { apply opens_none. apply silent_log. }
  apply opens_bind; [repeat silent_step|intros updated].
  apply opens_sends, sends_post_or_fail.
  - intros err. repeat silent_step.
  - intros resp. repeat silent_step.
    apply silent_with_job. intros w.
    apply finalize_without_pool_silent. reflexivity.
Qed.

(** ** A push that is refused *)

(** X16. With the information about the project at hand,
    push_project_async refuses a user who is not among the writers of the
    project, and refuses a local copy whose version is not the one of the
    service (v0 when the service reports none).  Either way it raises the
    ClientError of the check after one line in the log of errors, and
    has neither created a temporary directory, nor asked for the changes
    to be copied, nor posted anything. *)
Theorem push_project_async_refused env mc mp w info :
  let name := Metadata.name (World.metadata w) in
  let local_version := Metadata.version (World.metadata w) in
  let server_version :=
    if truthy (ServerInfo.version info)
    then ServerInfo.version info else JStr "v0" in
  let username := MerginClient.username mc in
  let str := py_str (Env.repr env) in
  let asked :=
    World.trace w
    ++ [Log "info" ("--- version: " +:+ MerginClient.user_agent_info mc);
        Log "info" ("--- start push " +:+ name)] in
  let checked :=
    asked
    ++ [ProjectInfo name;
        Log "info" ("got project info: local version " +:+ str local_version
                      +:+ " / server version " +:+ str server_version)] in
  MerginProject.has_unfinished_pull mp = false ->
  MerginClient.project_info mc asked name = inr info ->
  (username ∉ ServerInfo.writersnames info ->
   push_project_async env mc mp w
   = (Raise (ClientError
        ("You do not seem to have write access to the project (username '"
           +:+ username +:+ "')")),
      World.mk
        (checked
         ++ [Log "error" ("--- push " +:+ name +:+ " - username " +:+ username
                            +:+ " does not have write access")])
        (World.metadata w) (World.tmp_dirs w)))
  /\ (username ∈ ServerInfo.writersnames info ->
      py_eq local_version server_version = false ->
      push_project_async env mc mp w
      = (Raise (ClientError
           ("There is a new version of the project on the server. Please update your local copy."
              +:+ newline +:+ newline +:+ "Local version: "
              +:+ str local_version +:+ newline +:+ "Server version: "
              +:+ str server_version)),
         World.mk
           (checked
            ++ [Log "error" ("--- push " +:+ name
                               +:+ " - not up to date (local "
                               +:+ str local_version +:+ " vs server "
                               +:+ str server_version +:+ ")")])
           (World.metadata w) (World.tmp_dirs w))).
Proof.
  intros name local_version server_version username str asked checked
    Hpull Hinfo.
  assert (Hstart :
    forall k : ServerInfo.t -> M World.t (option UploadJob.t),
      (server_info <-
         try_except_ClientError (mc_project_info mc name)
           (fun err =>
              log "error" ("Error getting project info: " +:+ err) ;;
              log "info" "--- push aborted" ;;
              raise (ClientError err)) ;;
       k server_info)
        (World.emit (Log "info" ("--- start push " +:+ name))
           (World.emit
              (Log "info" ("--- version: " +:+ MerginClient.user_agent_info mc))
              w))
      = k info
          (World.mk (asked ++ [ProjectInfo name]) (World.metadata w)
             (World.tmp_dirs w))).
  { intros k. unfold bind at 1, try_except_ClientError, mc_project_info.
    rewrite !trace_emit, <- app_assoc. simpl app.
    unfold asked in *. rewrite Hinfo.
    unfold World.emit. simpl. rewrite <- !app_assoc. reflexivity. }
  split.
  - intros Hwriter.
    unfold push_project_async. rewrite Hpull, bind_ret, bind_get_metadata.
    rewrite !bind_log. fold name local_version.
    rewrite Hstart. fold server_version. rewrite bind_log. fold username.
    rewrite (bool_decide_eq_false_2 _ Hwriter). simpl negb. cbv iota.
    unfold bind, log, raise. simpl.
    unfold checked, World.emit. simpl. rewrite <- !app_assoc.
    reflexivity.
  - intros Hwriter Hversion.
    unfold push_project_async. rewrite Hpull, bind_ret, bind_get_metadata.
    rewrite !bind_log. fold name local_version.
    rewrite Hstart. fold server_version. rewrite bind_log. fold username.
    rewrite (bool_decide_eq_true_2 _ Hwriter). simpl negb. cbv iota.
    rewrite bind_ret, Hversion. simpl negb. cbv iota.
    unfold bind, log, raise. simpl.
    unfold checked, World.emit. simpl. rewrite <- !app_assoc.
    reflexivity.
Qed.

(** An instance: the local copy is at v3, the service at v4. *)
Lemma push_project_async_refused_witness :
  (push_project_async Demo.env
     (MerginClient.mk "py-client/0.7" "alice"
        (fun _ _ => inr (ServerInfo.mk (JStr "v4") ["alice"]))
        (fun _ _ => inr (true, 0)) Demo.good_service)
     demo_project Demo.world).1
  = Raise (ClientError
      ("There is a new version of the project on the server. Please update your local copy."
         +:+ newline +:+ newline +:+ "Local version: v3"
         +:+ newline +:+ "Server version: v4")).
Proof.
  destruct (push_project_async_refused Demo.env
              (MerginClient.mk "py-client/0.7" "alice"
                 (fun _ _ => inr (ServerInfo.mk (JStr "v4") ["alice"]))
                 (fun _ _ => inr (true, 0)) Demo.good_service)
              demo_project Demo.world (ServerInfo.mk (JStr "v4") ["alice"])
              eq_refl eq_refl) as [_ Hstale].
  rewrite Hstale; [reflexivity| |reflexivity].
  apply list_elem_of_here.
Defined.

(** ** A push without files to upload *)

Lemma count_changes_pos (changes : changeset) key files :
  changes !! key = Some files -> files <> [] ->
  count_changes changes <> 0%nat.
Proof.
  intros Hkey Hfiles. unfold count_changes.
  rewrite <- (insert_delete_id changes key files Hkey).
  rewrite map_fold_insert_L.
  - destruct files; [congruence|simpl; lia].
  - intros. lia.
  - apply lookup_delete_eq.
Qed.

Lemma holding_none tmp_dir body w w' w'' :
  body w = (Ok None, w') ->
  finalized tmp_dir w' = w'' ->
  holding_tmp_dir tmp_dir body w = (Ok None, w'').
Proof. intros Hbody <-. unfold holding_tmp_dir. rewrite Hbody. reflexivity. Qed.

(** X17. A push that only removes, that is with a change set in which
    nothing is added or updated, is carried through by push_project_async
    itself: the one request that opens the transaction is also the last,
    the answer to it gives the new project metadata, the changes are
    applied, the temporary directory made for the push is removed again,
    and no job is returned. *)
Theorem push_project_async_removals_only env mc mp w info resp d version
    files :
  let changes := MerginProject.get_push_changes mp in
  let name := Metadata.name (World.metadata w) in
  let local_version := Metadata.version (World.metadata w) in
  let server_version :=
    if truthy (ServerInfo.version info)
    then ServerInfo.version info else JStr "v0" in
  let username := MerginClient.username mc in
  let str := py_str (Env.repr env) in
  let tmp_dir := Env.mkdtemp env "mergin-py-client-" (World.tmp_dirs w) in
  let asked :=
    World.trace w
    ++ [Log "info" ("--- version: " +:+ MerginClient.user_agent_info mc);
        Log "info" ("--- start push " +:+ name)] in
  let checked :=
    asked
    ++ [ProjectInfo name;
        Log "info" ("got project info: local version " +:+ str local_version
                      +:+ " / server version " +:+ str server_version);
        Log "debug" ("push changes:" +:+ newline +:+ Env.pformat env changes)]
    ++ (if String.eqb username (before_slash name)
        then [StorageCheck changes] else []) in
  let push_request :=
    Request.mk ("/v1/project/push/" +:+ name)
      (PushData local_version changes)
      [("Content-Type", "application/json")] in
  MerginProject.has_unfinished_pull mp = false ->
  MerginClient.project_info mc asked name = inr info ->
  username ∈ ServerInfo.writersnames info ->
  py_eq local_version server_version = true ->
  changes !! "updated" = Some [] ->
  changes !! "added" = Some [] ->
  count_changes changes <> 0%nat ->
  (username = before_slash name ->
   exists freespace,
     MerginClient.enough_storage_available mc
       (asked
        ++ [ProjectInfo name;
            Log "info" ("got project info: local version "
                          +:+ str local_version +:+ " / server version "
                          +:+ str server_version);
            Log "debug" ("push changes:" +:+ newline
                           +:+ Env.pformat env changes)]) changes
     = inr (true, freespace)) ->
  MerginClient.post mc checked push_request = Answer resp ->
  Response.body resp = Some (JDict d) ->
  assoc "version" d = Some (JStr version) ->
  assoc "files" d = Some files ->
  MerginProject.apply_push_changes mp changes = None ->
  push_project_async env mc mp w
  = (Ok None,
     World.mk
       (checked
        ++ [Post push_request;
            Log "info" "not uploading any files";
            ApplyPushChanges changes;
            Log "info" ("--- push finished - new project version "
                          +:+ version)])
       (Metadata.mk name (JStr version) files)
       (({[tmp_dir]} ∪ World.tmp_dirs w) ∖ {[tmp_dir]})).
Proof.
  intros changes name local_version server_version username str tmp_dir asked
    checked push_request Hpull Hinfo Hwriter Hversion Hupdated Hadded Hcount
    Hstorage Hpost Hbody Hv Hfiles Happly.
  unfold push_project_async. rewrite Hpull, bind_ret, bind_get_metadata.
  rewrite !bind_log.
  fold name local_version.
  match goal with
  | |- (x <- try_except_ClientError ?m ?h ;; _) ?W = _ =>
      assert (Hpi : try_except_ClientError m h W
                    = (Ok info, World.emit (ProjectInfo name) W))
  end.
  { unfold try_except_ClientError, mc_project_info.
    rewrite !trace_emit, <- app_assoc. simpl app.
    unfold asked in Hinfo. rewrite Hinfo. reflexivity. }
  rewrite (bind_ok _ _ _ _ _ Hpi).
  clear Hpi. fold server_version. rewrite bind_log.
  fold username.
  rewrite (bool_decide_eq_true_2 _ Hwriter). simpl negb. cbv iota.
  rewrite bind_ret.
  rewrite Hversion. simpl negb. cbv iota. rewrite bind_ret, bind_log.
  rewrite bind_tmp. fold changes. fold tmp_dir.
  apply (holding_none tmp_dir _ _
           (World.mk
              (checked
               ++ [Post push_request;
                   Log "info" "not uploading any files";
                   ApplyPushChanges changes;
                   Log "info" ("--- push finished - new project version "
                                 +:+ version)])
              (Metadata.mk name (JStr version) files)
              (({[tmp_dir]} ∪ World.tmp_dirs w) ∖ {[tmp_dir]})));
    [|unfold finalized, World.set_tmp_dirs; simpl; f_equal;
      apply difference_twice_L].
  unfold getitem at 1. rewrite Hupdated, bind_ret.
  simpl for_each_update. rewrite bind_ret.
  rewrite (insert_id _ _ _ Hupdated).
  unfold getitem at 1. rewrite Hadded, bind_ret.
  simpl for_each_update. rewrite bind_ret.
  rewrite (insert_id _ _ _ Hadded).
  rewrite (bool_decide_eq_false_2 _ Hcount).
  set (W := World.set_tmp_dirs _ _).
  assert (HW : World.trace W
               = asked
                 ++ [ProjectInfo name;
                     Log "info" ("got project info: local version "
                                   +:+ str local_version
                                   +:+ " / server version "
                                   +:+ str server_version);
                     Log "debug" ("push changes:" +:+ newline
                                    +:+ Env.pformat env changes)]).
  { unfold W, asked. rewrite trace_set_tmp_dirs, !trace_emit, <- !app_assoc.
    reflexivity. }
  assert (Hblock :
    exists W1,
      (if String.eqb username (before_slash name) then
         answer <- mc_enough_storage_available mc changes ;;
         let '(enough_free_space, freespace) := answer in
         if negb enough_free_space then
           freespace <- megabytes freespace ;;
           log "error" ("--- push " +:+ name +:+ " - not enough space") ;;
           raise (ClientError ("Storage limit has been reached. Only "
                                 +:+ str_int freespace +:+ "MB left"))
         else ret tt
       else ret tt) W = (Ok tt, W1)
      /\ World.trace W1 = checked
      /\ World.metadata W1 = World.metadata w
      /\ World.tmp_dirs W1 = {[tmp_dir]} ∪ World.tmp_dirs w).
  { unfold checked.
    destruct (String.eqb username (before_slash name)) eqn:Howner.
    - apply String.eqb_eq in Howner.
      destruct (Hstorage Howner) as [freespace Hst].
      exists (World.emit (StorageCheck changes) W). split.
      + unfold bind, mc_enough_storage_available. rewrite HW, Hst.
        reflexivity.
      + rewrite trace_emit, HW, <- !app_assoc. repeat split.
    - exists W. split; [reflexivity|]. rewrite HW, app_nil_r.
      repeat split. }
  destruct Hblock as (W1 & Hrun & Htrace & Hmeta & Htmp).
  rewrite (bind_ok _ _ _ _ _ Hrun).
  unfold getitem at 1. rewrite Hupdated, bind_ret.
  rewrite fmap_nil, (insert_id _ _ _ Hupdated).
  match goal with
  | |- (x <- try_except_ClientError ?m ?h ;; _) ?W = _ =>
      assert (Hpush : try_except_ClientError m h W
                      = (Ok resp, World.emit (Post push_request) W))
  end.
  { unfold try_except_ClientError, post. rewrite Htrace.
    fold push_request. rewrite Hpost. reflexivity. }
  rewrite (bind_ok _ _ _ _ _ Hpush). clear Hpush.
  unfold json_load. rewrite Hbody, bind_ret.
  unfold getitem. rewrite Hadded, Hupdated, !bind_ret.
  simpl app. rewrite !bool_decide_eq_true_2 by reflexivity.
  rewrite bind_ret, bind_log.
  set (job := UploadJob.set_server_resp _ _).
  set (W2 := World.emit (Log "info" "not uploading any files") _).
  assert (Hfin :
    push_project_finalize env mc mp (JobState.mk job W2)
    = (Ok tt,
       JobState.mk job
         (World.mk
            (World.trace W2
             ++ [ApplyPushChanges changes;
                 Log "info" ("--- push finished - new project version "
                               +:+ version)])
            (Metadata.mk name (JStr version) files)
            (World.tmp_dirs W2 ∖ {[tmp_dir]})))).
  { unfold push_project_finalize. rewrite bind_get_job.
    rewrite bool_decide_eq_false_2 by (intros [? ?]; discriminate).
    rewrite bind_ret.
    assert (Hsize :
      UploadJob.transferred_size (JobState.job (JobState.mk job W2))
      = UploadJob.total_size (JobState.job (JobState.mk job W2)))
      by reflexivity.
    rewrite (bind_ok _ _ _ _ _ (check_sizes_ok _ Hsize)), bind_ret.
    apply (apply_changes_ok mp (JobState.mk job W2) d version files);
      [reflexivity|exact Hv|exact Hfiles|exact Happly]. }
  unfold bind, with_job. rewrite Hfin. unfold ret. simpl.
  rewrite Htrace, Htmp, <- !app_assoc. reflexivity.
Qed.

(** An instance: the note is removed from the demo project. *)
Lemma push_project_async_removals_only_witness :
  (push_project_async Demo.env demo_client
     (Demo.mp (Demo.changes_of [] [] [Demo.notes] [])) Demo.world).1
  = Ok None
  /\ posted_urls
       (World.trace
          (push_project_async Demo.env demo_client
             (Demo.mp (Demo.changes_of [] [] [Demo.notes] []))
             Demo.world).2)
     = ["/v1/project/push/alice/field"]
  /\ World.metadata
       (push_project_async Demo.env demo_client
          (Demo.mp (Demo.changes_of [] [] [Demo.notes] [])) Demo.world).2
     = Metadata.mk "alice/field" (JStr "v4") (JList []).
Proof.
  rewrite (push_project_async_removals_only Demo.env demo_client
             (Demo.mp (Demo.changes_of [] [] [Demo.notes] [])) Demo.world
             Demo.info
             (Response.mk "OK"
                (Some (JDict [("transaction", JStr "t-1");
                              ("version", JStr "v4"); ("files", JList [])])))
             [("transaction", JStr "t-1"); ("version", JStr "v4");
              ("files", JList [])] "v4" (JList []));
    try reflexivity.
  - repeat split; reflexivity.
  - apply list_elem_of_here.
  - vm_compute. discriminate.
  - intros _. exists 0. reflexivity.
Defined.

(** ** A push over the storage limit *)

Lemma for_each_update_ok {A} (xs : list A) (body : A -> M World.t A) :
  (forall x w, exists x', (body x w).1 = Ok x') ->
  forall w, exists xs', (for_each_update xs body w).1 = Ok xs'.
Proof.
  intros Hbody. induction xs as [|x xs IH]; intros w; simpl.
  - exists []. reflexivity.
  - unfold bind at 1. destruct (Hbody x w) as [x' Hx].
    destruct (body x w) as [r w1]. simpl in Hx. subst r.
    unfold bind at 1. destruct (IH w1) as [xs' Hxs].
    destruct (for_each_update xs body w1) as [r w2]. simpl in Hxs. subst r.
    exists (x' :: xs'). reflexivity.
Qed.

Lemma copy_or_keep_ok mp (test : FileEntry.t -> bool) tmp_dir :
  (forall f dir, exists f',
     MerginProject.copy_versioned_file_for_upload mp f dir = inr f') ->
  forall (f : FileEntry.t) (w : World.t), exists f',
    ((if test f then mp_copy_versioned_file_for_upload mp f tmp_dir
      else ret f) w).1 = Ok f'.
Proof.
  intros Hcopy f w. destruct (test f); [|exists f; reflexivity].
  unfold mp_copy_versioned_file_for_upload.
  destruct (Hcopy f tmp_dir) as [f' ->]. exists f'. reflexivity.
Qed.

Lemma copy_or_keep_silent mp (test : FileEntry.t -> bool) tmp_dir
    (f : FileEntry.t) :
  silent (if test f then mp_copy_versioned_file_for_upload mp f tmp_dir
          else ret f).
Proof. destruct (test f); [apply silent_copy|apply silent_ret]. Qed.

Lemma megabytes_fits {S} freespace (s : S) :
  Z.abs (round_to_double freespace) < float_limit ->
  megabytes freespace s
  = (Ok (Z.quot (round_to_double freespace) (1024 * 1024)), s).
Proof.
  intros Hfits. unfold megabytes.
  replace (float_limit <=? Z.abs (round_to_double freespace)) with false
    by (symmetry; apply Z.leb_gt, Hfits).
  reflexivity.
Qed.

Lemma round_to_double_exact n : Z.abs n < 2 ^ 53 -> round_to_double n = n.
Proof.
  intros Hn. unfold round_to_double.
  assert (Hlog : Z.log2 (Z.abs n) + 1 - 53 <= 0).
  { destruct (Z.eq_dec (Z.abs n) 0) as [->|Hne]; [simpl; lia|].
    assert (Z.log2 (Z.abs n) < 53) by (apply Z.log2_lt_pow2; lia). lia. }
  apply Z.leb_le in Hlog. rewrite Hlog. reflexivity.
Qed.

(** X18. The owner of a project who pushes over the storage limit is
    refused: when the checks on the project pass, the copies of versioned
    files succeed and the service reports that the space does not
    suffice, push_project_async raises the ClientError of the storage
    limit and has posted nothing.  The message gives
    int(freespace/(1024*1024)): the free space as a double holds it,
    divided by 2^20 and truncated towards zero, which below 2^53 is the
    exact quotient truncated. *)
Theorem push_project_async_storage_limit env mc mp w info updated added
    freespace :
  let changes := MerginProject.get_push_changes mp in
  let name := Metadata.name (World.metadata w) in
  let local_version := Metadata.version (World.metadata w) in
  let server_version :=
    if truthy (ServerInfo.version info)
    then ServerInfo.version info else JStr "v0" in
  let username := MerginClient.username mc in
  let asked :=
    World.trace w
    ++ [Log "info" ("--- version: " +:+ MerginClient.user_agent_info mc);
        Log "info" ("--- start push " +:+ name)] in
  MerginProject.has_unfinished_pull mp = false ->
  MerginClient.project_info mc asked name = inr info ->
  username ∈ ServerInfo.writersnames info ->
  py_eq local_version server_version = true ->
  changes !! "updated" = Some updated ->
  changes !! "added" = Some added ->
  (forall f dir, exists f',
     MerginProject.copy_versioned_file_for_upload mp f dir = inr f') ->
  username = before_slash name ->
  (forall trace changes',
     MerginClient.enough_storage_available mc trace changes'
     = inr (false, freespace)) ->
  Z.abs (round_to_double freespace) < float_limit ->
  (push_project_async env mc mp w).1
  = Raise (ClientError ("Storage limit has been reached. Only "
                          +:+ str_int (Z.quot (round_to_double freespace)
                                         (1024 * 1024))
                          +:+ "MB left"))
  /\ posted_urls (World.trace (push_project_async env mc mp w).2)
     = posted_urls (World.trace w)
  /\ (Z.abs freespace < 2 ^ 53 -> round_to_double freespace = freespace).
Proof.
  intros changes name local_version server_version username asked
    Hpull Hinfo Hwriter Hversion Hupdated Hadded Hcopy Howner Hstorage Hfits.
  cut ((push_project_async env mc mp w).1
       = Raise (ClientError ("Storage limit has been reached. Only "
                               +:+ str_int (Z.quot (round_to_double freespace)
                                              (1024 * 1024))
                               +:+ "MB left"))
       /\ posted_urls (World.trace (push_project_async env mc mp w).2)
          = posted_urls (World.trace w)).
  { intros [Hraise Hposted]. split; [exact Hraise|].
    split; [exact Hposted|apply round_to_double_exact]. }
  remember (push_project_async env mc mp w) as p eqn:Hp.
  unfold push_project_async in Hp.
  rewrite Hpull, bind_ret, bind_get_metadata in Hp.
  rewrite !bind_log in Hp.
  fold name local_version in Hp.
  match type of Hp with
  | _ = (x <- try_except_ClientError ?m ?h ;; _) ?W =>
      assert (Hpi : try_except_ClientError m h W
                    = (Ok info, World.emit (ProjectInfo name) W))
  end.
  { unfold try_except_ClientError, mc_project_info.
    rewrite !trace_emit, <- app_assoc. simpl app.
    unfold asked in Hinfo. rewrite Hinfo. reflexivity. }
  rewrite (bind_ok _ _ _ _ _ Hpi) in Hp.
  clear Hpi. fold server_version in Hp. rewrite bind_log in Hp.
  fold username in Hp.
  rewrite (bool_decide_eq_true_2 _ Hwriter) in Hp. simpl negb in Hp.
  cbv iota in Hp. rewrite bind_ret in Hp.
  rewrite Hversion in Hp. simpl negb in Hp. cbv iota in Hp.
  rewrite bind_ret, bind_log in Hp.
  rewrite bind_tmp in Hp. fold changes in Hp.
  set (tmp_dir := Env.mkdtemp env _ _) in Hp.
  set (W := World.set_tmp_dirs _ _) in Hp.
  assert (HW : posted_urls (World.trace W) = posted_urls (World.trace w)).
  { unfold W. rewrite trace_set_tmp_dirs, !trace_emit, !posted_urls_app.
    simpl. rewrite !app_nil_r. reflexivity. }
  clearbody W.
  match type of Hp with
  | _ = holding_tmp_dir _ ?body _ => remember (body W) as q eqn:Hq
  end.
  assert (Hheld : p.1 = q.1 /\ World.trace p.2 = World.trace q.2).
  { rewrite Hp. unfold holding_tmp_dir. rewrite <- Hq.
    destruct q as [[[job|]|e] w']; split; reflexivity. }
  destruct Hheld as [-> ->]. clear Hp.
  unfold getitem at 1 in Hq. rewrite Hupdated, bind_ret in Hq.
  match type of Hq with
  | _ = (x <- for_each_update updated ?body ;; _) W =>
      destruct (for_each_update_ok updated body
                  (copy_or_keep_ok mp _ tmp_dir Hcopy) W) as [updated' Hu];
      destruct (silent_for_each_update updated body
                  (copy_or_keep_silent mp _ tmp_dir) W)
        as (evs1 & Ht1 & Hp1);
      destruct (for_each_update updated body W) as [r1 W1] eqn:Hloop1
  end.
  simpl in Hu. subst r1. unfold world_of, world_has_world in Ht1.
  simpl in Ht1. rewrite (bind_ok _ _ _ _ _ Hloop1) in Hq.
  unfold getitem at 1 in Hq.
  rewrite lookup_insert_ne in Hq by discriminate.
  rewrite Hadded, bind_ret in Hq.
  match type of Hq with
  | _ = (x <- for_each_update added ?body ;; _) W1 =>
      destruct (for_each_update_ok added body
                  (copy_or_keep_ok mp _ tmp_dir Hcopy) W1) as [added' Ha];
      destruct (silent_for_each_update added body
                  (copy_or_keep_silent mp _ tmp_dir) W1)
        as (evs2 & Ht2 & Hp2);
      destruct (for_each_update added body W1) as [r2 W2] eqn:Hloop2
  end.
  simpl in Ha. subst r2. unfold world_of, world_has_world in Ht2.
  simpl in Ht2. rewrite (bind_ok _ _ _ _ _ Hloop2) in Hq.
  replace (String.eqb username (before_slash name)) with true in Hq
    by (symmetry; apply String.eqb_eq, Howner).
  unfold bind, mc_enough_storage_available, log, raise in Hq.
  rewrite Hstorage in Hq. cbn [negb] in Hq.
  rewrite (megabytes_fits _ _ Hfits) in Hq. subst q.
  cbn [fst snd World.emit World.trace].
  split; [reflexivity|].
  rewrite !posted_urls_app, Ht2, Ht1, !posted_urls_app, Hp1, Hp2, HW. simpl.
  rewrite !app_nil_r. reflexivity.
Qed.

(** An instance: the demo project with 1.5 MiB left. *)
Lemma push_project_async_storage_limit_witness :
  (push_project_async Demo.env
     (Demo.mc (inr (false, 1572864)) Demo.good_service) demo_project
     Demo.world).1
  = Raise (ClientError "Storage limit has been reached. Only 1MB left").
Proof.
  apply (push_project_async_storage_limit Demo.env
           (Demo.mc (inr (false, 1572864)) Demo.good_service) demo_project
           Demo.world Demo.info [] [Demo.notes] 1572864);
    try reflexivity.
  - apply list_elem_of_here.
  - intros f dir. exists f. reflexivity.
Defined.
